(** * CompressionTools reference decoder: a shallow embedding

    This development embeds [ReferenceDecoder/Decompressor.c] (with the
    structures of [Decompressor.h]) and proves properties of the bitstream
    reader, the Lomont1 universal code, and the Huffman, Arithmetic, LZ77 and
    LZCL decoders.

    Conventions of the embedding.
    - A [uint32_t] is a [Z] in [0, 2^32); every C operation that can leave
      that range is followed by [wrap32].  A [uint8_t] is wrapped by [wrap8].
      The two [int] variables of [DecodeUniversalLomont1] are plain [Z].
    - A byte array is a [list Z]; element [i] is looked up with [!!].
    - Code runs in an error monad.  [SourceOverrun] is a read of the source
      outside the array, [DestOverrun] an access of the destination outside
      its array, [UndefinedOp] an operation C leaves undefined (a shift count
      outside [0, 32), signed overflow, division by zero), [OutOfFuel] the
      exhaustion of the iteration budget given to a [while] loop whose trip
      count depends on the data.
    - [for] loops with a trip count known on entry recurse on that count. *)

From Stdlib Require Import ZArith Lia Bool.
From stdpp Require Import base list.

Local Open Scope Z_scope.

(** ** Machine arithmetic *)

Definition wrap32 (x : Z) : Z := x mod 2 ^ 32.
Definition wrap8 (x : Z) : Z := x mod 2 ^ 8.

(** Range of the C type [int] (32 bits). *)
Definition INT_MIN : Z := - 2 ^ 31.
Definition INT_MAX : Z := 2 ^ 31 - 1.

(** [(int32_t)x] for a [uint32_t] [x]. *)
Definition to_int32 (x : Z) : Z := if x <? 2 ^ 31 then x else x - 2 ^ 32.

Definition CL_COMPRESSOR_END_TOKEN : Z := 0xFFFFFFFF.

(** ** The error monad *)

Inductive fault : Set := SourceOverrun | DestOverrun | UndefinedOp | OutOfFuel.

Inductive result (A : Type) : Type :=
| Ok (a : A)
| Err (f : fault).

Arguments Ok {A} a.
Arguments Err {A} f.

Definition bind {A B : Type} (m : result A) (k : A -> result B) : result B :=
  match m with
  | Ok a => k a
  | Err f => Err f
  end.

Notation "'let*' x ':=' m 'in' k" := (bind m (fun x => k))
  (at level 10, x name, m at level 200, k at level 200).
Notation "'let*' ' p ':=' m 'in' k" := (bind m (fun x => match x with p => k end))
  (at level 10, p strict pattern, m at level 200, k at level 200).

(** [x << s] on [uint32_t]; the count must lie in [0, 32). *)
Definition shl32 (x s : Z) : result Z :=
  if (0 <=? s) && (s <? 32) then Ok (wrap32 (Z.shiftl x s)) else Err UndefinedOp.

(** [a + b] on [int]; overflow is undefined. *)
Definition int_add (a b : Z) : result Z :=
  let r := a + b in
  if (INT_MIN <=? r) && (r <=? INT_MAX) then Ok r else Err UndefinedOp.

(** [a / b] and [a % b] on [uint32_t]. *)
Definition divu (a b : Z) : result Z :=
  if b =? 0 then Err UndefinedOp else Ok (a / b).
Definition modu (a b : Z) : result Z :=
  if b =? 0 then Err UndefinedOp else Ok (a mod b).

(** ** Utility functions *)

Definition OnesCount (value : Z) : Z :=
  let value := wrap32 (value - Z.land (Z.shiftr value 1) 0x55555555) in
  let value := wrap32 (Z.land (Z.shiftr value 2) 0x33333333 + Z.land value 0x33333333) in
  let value := Z.land (wrap32 (Z.shiftr value 4 + value)) 0x0f0f0f0f in
  let value := wrap32 (value + Z.shiftr value 8) in
  let value := wrap32 (value + Z.shiftr value 16) in
  Z.land value 0x0000003f.

Definition FloorLog2 (value : Z) : Z :=
  let value := Z.lor value (Z.shiftr value 1) in
  let value := Z.lor value (Z.shiftr value 2) in
  let value := Z.lor value (Z.shiftr value 4) in
  let value := Z.lor value (Z.shiftr value 8) in
  let value := Z.lor value (Z.shiftr value 16) in
  OnesCount (Z.shiftr value 1).

Definition BitsRequired (value : Z) : Z := wrap32 (1 + FloorLog2 value).

(** ** Bitstream *)

Record Bitstream_t : Type := mkBitstream {
  position : Z;      (* bit position for next read *)
  data : list Z      (* base of data: the bytes of the source *)
}.

Definition InitializeBitstream (data : list Z) : Bitstream_t :=
  {| position := 0; data := data |}.

(** One trip of the loop of [ReadBitstream]: fetch the bit under the cursor
    and advance the cursor. *)
Definition ReadBitstream_bit (bitstream : Bitstream_t) : result (Z * Bitstream_t) :=
  let pos := position bitstream in
  match data bitstream !! Z.to_nat (pos / 8) with
  | Some b1 =>
      let b := Z.land (Z.shiftr b1 (7 - Z.land pos 7)) 1 in
      Ok (b, {| position := wrap32 (pos + 1); data := data bitstream |})
  | None => Err SourceOverrun
  end.

Fixpoint ReadBitstream_loop (n : nat) (value : Z) (bitstream : Bitstream_t)
  : result (Z * Bitstream_t) :=
  match n with
  | O => Ok (value, bitstream)
  | S n' =>
      let* '(b, bitstream) := ReadBitstream_bit bitstream in
      let value := wrap32 (Z.shiftl value 1) in
      let value := Z.lor value b in
      ReadBitstream_loop n' value bitstream
  end.

(** Read values from current position, MSB first. *)
Definition ReadBitstream (bitstream : Bitstream_t) (bitLength : Z)
  : result (Z * Bitstream_t) :=
  ReadBitstream_loop (Z.to_nat bitLength) 0 bitstream.

(** Read values from given position, update it, MSB first.  The result is
    the value, the updated [*position] and the bitstream. *)
Definition ReadFromBitstreamPosition (bitstream : Bitstream_t) (pos : Z) (bitLength : Z)
  : result (Z * Z * Bitstream_t) :=
  let temp := position bitstream in
  let bitstream := {| position := pos; data := data bitstream |} in
  let* '(value, bitstream) := ReadBitstream bitstream bitLength in
  let pos := position bitstream in
  let bitstream := {| position := temp; data := data bitstream |} in
  Ok (value, pos, bitstream).

(** ** Universal coding: Lomont method 1 *)

(** The update of [chunkSize] at the end of one trip of the loop. *)
Definition Lomont1_nextChunkSize (chunkSize deltaChunk : Z) : result Z :=
  if deltaChunk =? 0 then Ok chunkSize
  else
    let* chunkSize := int_add chunkSize deltaChunk in
    Ok (if chunkSize <=? 0 then 1 else chunkSize).

(** The [do ... while (b != 0)] loop; [fuel] bounds its trips. *)
Fixpoint DecodeUniversalLomont1_loop (fuel : nat) (bitstream : Bitstream_t)
    (value shift chunkSize deltaChunk : Z) : result (Z * Bitstream_t) :=
  match fuel with
  | O => Err OutOfFuel
  | S fuel =>
      let* '(b, bitstream) := ReadBitstream bitstream 1 in
      let* '(chunk, bitstream) := ReadBitstream bitstream (wrap32 chunkSize) in
      let* shifted := shl32 chunk shift in
      let value := wrap32 (value + shifted) in
      let* shift := int_add shift chunkSize in
      let* chunkSize := Lomont1_nextChunkSize chunkSize deltaChunk in
      if b =? 0 then Ok (value, bitstream)
      else DecodeUniversalLomont1_loop fuel bitstream value shift chunkSize deltaChunk
  end.

Definition DecodeUniversalLomont1 (fuel : nat) (bitstream : Bitstream_t)
    (chunkSize deltaChunk : Z) : result (Z * Bitstream_t) :=
  DecodeUniversalLomont1_loop fuel bitstream 0 0 chunkSize deltaChunk.

(** get size of decompressed stream *)
Definition GetDecompressedSize (fuel : nat) (source : list Z) : result Z :=
  let bitstream := InitializeBitstream source in
  let* '(size, _) := DecodeUniversalLomont1 fuel bitstream 6 0 in
  Ok size.

(** ** Huffman coding *)

Module HuffmanState.
Record t : Type := mk {
  bitstream : Bitstream_t;      (* Stream to decode from *)
  tablePosition : Z;            (* bit position of the codeword table *)
  byteLength : Z;               (* Bytes left to decode (or 0xFFFFFFFF) *)
  bitsPerSymbol : Z;            (* uint8_t *)
  minCodewordLength : Z;        (* uint8_t *)
  maxCodewordLength : Z;        (* uint8_t *)
  bitsPerCodelengthCount : Z    (* uint8_t *)
}.

Definition zero : t := mk (mkBitstream 0 []) 0 0 0 0 0 0.

Definition set_bitstream (v : Bitstream_t) (s : t) : t :=
  mk v (tablePosition s) (byteLength s) (bitsPerSymbol s)
     (minCodewordLength s) (maxCodewordLength s) (bitsPerCodelengthCount s).
Definition set_tablePosition (v : Z) (s : t) : t :=
  mk (bitstream s) v (byteLength s) (bitsPerSymbol s)
     (minCodewordLength s) (maxCodewordLength s) (bitsPerCodelengthCount s).
Definition set_byteLength (v : Z) (s : t) : t :=
  mk (bitstream s) (tablePosition s) v (bitsPerSymbol s)
     (minCodewordLength s) (maxCodewordLength s) (bitsPerCodelengthCount s).
Definition set_bitsPerSymbol (v : Z) (s : t) : t :=
  mk (bitstream s) (tablePosition s) (byteLength s) v
     (minCodewordLength s) (maxCodewordLength s) (bitsPerCodelengthCount s).
Definition set_minCodewordLength (v : Z) (s : t) : t :=
  mk (bitstream s) (tablePosition s) (byteLength s) (bitsPerSymbol s)
     v (maxCodewordLength s) (bitsPerCodelengthCount s).
Definition set_maxCodewordLength (v : Z) (s : t) : t :=
  mk (bitstream s) (tablePosition s) (byteLength s) (bitsPerSymbol s)
     (minCodewordLength s) v (bitsPerCodelengthCount s).
Definition set_bitsPerCodelengthCount (v : Z) (s : t) : t :=
  mk (bitstream s) (tablePosition s) (byteLength s) (bitsPerSymbol s)
     (minCodewordLength s) (maxCodewordLength s) v.
End HuffmanState.

Abbreviation HuffmanState_t := HuffmanState.t.

(** Inner loop of [ParseHuffmanTable]: read past [count] symbols. *)
Fixpoint ParseHuffmanTable_symbols (count : nat) (bitsPerSymbol : Z)
    (bitstream : Bitstream_t) : result Bitstream_t :=
  match count with
  | O => Ok bitstream
  | S count =>
      let* '(_, bitstream) := ReadBitstream bitstream bitsPerSymbol in
      ParseHuffmanTable_symbols count bitsPerSymbol bitstream
  end.

(** Outer loop of [ParseHuffmanTable], one trip per codeword length. *)
Fixpoint ParseHuffmanTable_lengths (trips : nat) (state : HuffmanState_t)
    (bitstream : Bitstream_t) : result Bitstream_t :=
  match trips with
  | O => Ok bitstream
  | S trips =>
      let* '(count, bitstream) :=
        ReadBitstream bitstream (HuffmanState.bitsPerCodelengthCount state) in
      let* bitstream :=
        ParseHuffmanTable_symbols (Z.to_nat count)
          (HuffmanState.bitsPerSymbol state) bitstream in
      ParseHuffmanTable_lengths trips state bitstream
  end.

(** [length] runs from [minCodewordLength] to [maxCodewordLength] inclusive;
    both are [uint8_t], so the [uint32_t] counter cannot wrap. *)
Definition ParseHuffmanTable (state : HuffmanState_t) : result HuffmanState_t :=
  let state :=
    HuffmanState.set_tablePosition
      (position (HuffmanState.bitstream state)) state in
  let trips :=
    Z.to_nat (HuffmanState.maxCodewordLength state
              - HuffmanState.minCodewordLength state + 1) in
  let* bitstream :=
    ParseHuffmanTable_lengths trips state (HuffmanState.bitstream state) in
  Ok (HuffmanState.set_bitstream bitstream state).

(** read from header, skipping byte length, assumes state bitstream is set *)
Definition ReadHuffmanHeaderNoLength (fuel : nat) (state : HuffmanState_t)
  : result HuffmanState_t :=
  let* '(v, bitstream) :=
    DecodeUniversalLomont1 fuel (HuffmanState.bitstream state) 3 0 in
  let state := HuffmanState.set_bitstream bitstream state in
  let state := HuffmanState.set_bitsPerSymbol (wrap8 (wrap32 (1 + v))) state in
  let* '(v, bitstream) :=
    DecodeUniversalLomont1 fuel (HuffmanState.bitstream state) 3 0 in
  let state := HuffmanState.set_bitstream bitstream state in
  let state := HuffmanState.set_bitsPerCodelengthCount (wrap8 (wrap32 (1 + v))) state in
  let* '(v, bitstream) :=
    DecodeUniversalLomont1 fuel (HuffmanState.bitstream state) 2 0 in
  let state := HuffmanState.set_bitstream bitstream state in
  let state := HuffmanState.set_minCodewordLength (wrap8 (wrap32 (1 + v))) state in
  let* '(v, bitstream) :=
    DecodeUniversalLomont1 fuel (HuffmanState.bitstream state) 4 (-1) in
  let state := HuffmanState.set_bitstream bitstream state in
  let deltaCodewordLength := wrap32 (1 + v) in
  let state :=
    HuffmanState.set_maxCodewordLength
      (wrap8 (wrap32 (HuffmanState.minCodewordLength state + deltaCodewordLength)))
      state in
  ParseHuffmanTable state.

(** The [for] loop of [DecompressHuffmanSymbol] that reads the minimum
    number of bits. *)
Fixpoint DecompressHuffmanSymbol_minBits (n : nat) (accumulator firstCodewordOnRow : Z)
    (bitstream : Bitstream_t) : result (Z * Z * Bitstream_t) :=
  match n with
  | O => Ok (accumulator, firstCodewordOnRow, bitstream)
  | S n =>
      let* '(b, bitstream) := ReadBitstream bitstream 1 in
      let accumulator := wrap32 (2 * accumulator + b) in
      let firstCodewordOnRow := wrap32 (Z.shiftl firstCodewordOnRow 1) in
      DecompressHuffmanSymbol_minBits n accumulator firstCodewordOnRow bitstream
  end.

(** The [while (1)] table walk of [DecompressHuffmanSymbol]. *)
Fixpoint DecompressHuffmanSymbol_walk (fuel : nat) (state : HuffmanState_t)
    (accumulator firstCodewordOnRow tableIndex : Z) : result (Z * HuffmanState_t) :=
  match fuel with
  | O => Err OutOfFuel
  | S fuel =>
      let* '(numberOfCodes, tableIndex, bitstream) :=
        ReadFromBitstreamPosition (HuffmanState.bitstream state) tableIndex
          (HuffmanState.bitsPerCodelengthCount state) in
      let state := HuffmanState.set_bitstream bitstream state in
      if (0 <? numberOfCodes)
         && (wrap32 (accumulator - firstCodewordOnRow) <? numberOfCodes)
      then
        let itemIndex := wrap32 (accumulator - firstCodewordOnRow) in
        let tableIndex :=
          wrap32 (tableIndex + wrap32 (itemIndex * HuffmanState.bitsPerSymbol state)) in
        let* '(symbol, _, bitstream) :=
          ReadFromBitstreamPosition (HuffmanState.bitstream state) tableIndex
            (HuffmanState.bitsPerSymbol state) in
        Ok (symbol, HuffmanState.set_bitstream bitstream state)
      else
        let firstCodewordOnRow := wrap32 (firstCodewordOnRow + numberOfCodes) in
        let* '(b, bitstream) := ReadBitstream (HuffmanState.bitstream state) 1 in
        let state := HuffmanState.set_bitstream bitstream state in
        let accumulator := wrap32 (2 * accumulator + b) in
        let firstCodewordOnRow := wrap32 (Z.shiftl firstCodewordOnRow 1) in
        let tableIndex :=
          wrap32 (tableIndex + wrap32 (numberOfCodes * HuffmanState.bitsPerSymbol state)) in
        DecompressHuffmanSymbol_walk fuel state accumulator firstCodewordOnRow tableIndex
  end.

(** decompress a symbol. Returns CL_COMPRESSOR_END_TOKEN when no more *)
Definition DecompressHuffmanSymbol (fuel : nat) (state : HuffmanState_t)
  : result (Z * HuffmanState_t) :=
  if HuffmanState.byteLength state =? 0 then Ok (CL_COMPRESSOR_END_TOKEN, state)
  else
    let state :=
      if negb (HuffmanState.byteLength state =? 0xFFFFFFFF)
      then HuffmanState.set_byteLength (wrap32 (HuffmanState.byteLength state - 1)) state
      else state in
    let* '(accumulator, firstCodewordOnRow, bitstream) :=
      DecompressHuffmanSymbol_minBits
        (Z.to_nat (HuffmanState.minCodewordLength state)) 0 0
        (HuffmanState.bitstream state) in
    let state := HuffmanState.set_bitstream bitstream state in
    DecompressHuffmanSymbol_walk fuel state accumulator firstCodewordOnRow
      (HuffmanState.tablePosition state).

(** start decompression, follow up with DecompressHuffmanSymbol until done *)
Definition DecompressHuffmanStart (fuel : nat) (state : HuffmanState_t)
    (source : list Z) (sourceLength : Z) : result HuffmanState_t :=
  let state := HuffmanState.set_bitstream (InitializeBitstream source) state in
  let* '(v, bitstream) :=
    DecodeUniversalLomont1 fuel (HuffmanState.bitstream state) 6 0 in
  let state := HuffmanState.set_bitstream bitstream state in
  let state := HuffmanState.set_byteLength v state in
  ReadHuffmanHeaderNoLength fuel state.

(** Store into the byte array [dest]; the value is converted to [uint8_t]. *)
Definition store (dest : list Z) (i v : Z) : result (list Z) :=
  if (0 <=? i) && (i <? Z.of_nat (length dest))
  then Ok (<[Z.to_nat i := wrap8 v]> dest)
  else Err DestOverrun.

(** Load from the byte array [dest]. *)
Definition load (dest : list Z) (i : Z) : result Z :=
  if 0 <=? i then
    match dest !! Z.to_nat i with
    | Some v => Ok v
    | None => Err DestOverrun
    end
  else Err DestOverrun.

(** The [while] loop of [DecompressHuffman]; [destLength] is the bound
    already converted to [uint32_t]. *)
Fixpoint DecompressHuffman_loop (fuel : nat) (symbolFuel : nat) (state : HuffmanState_t)
    (byteIndex : Z) (dest : list Z) (destLength : Z) : result (Z * list Z) :=
  match fuel with
  | O => Err OutOfFuel
  | S fuel =>
      if negb (HuffmanState.byteLength state =? 0) && (byteIndex <? destLength)
      then
        let* '(symbol, state) := DecompressHuffmanSymbol symbolFuel state in
        if symbol =? CL_COMPRESSOR_END_TOKEN then Ok (byteIndex, dest)
        else
          let* dest := store dest byteIndex symbol in
          let byteIndex := wrap32 (byteIndex + 1) in
          DecompressHuffman_loop fuel symbolFuel state byteIndex dest destLength
      else Ok (byteIndex, dest)
  end.

(** decompress, return bytes decoded (and the destination array) *)
Definition DecompressHuffman (fuel : nat) (source : list Z) (sourceLength : Z)
    (dest : list Z) (destLength : Z) : result (Z * list Z) :=
  let* state := DecompressHuffmanStart fuel HuffmanState.zero source sourceLength in
  let byteIndex := 0 in
  let* '(byteIndex, dest) :=
    DecompressHuffman_loop fuel fuel state byteIndex dest (wrap32 destLength) in
  Ok (to_int32 byteIndex, dest).

(** ** Arithmetic coding *)

(** constants defining the range *)
Definition range25Percent : Z := 0x20000000.
Definition range50Percent : Z := 0x40000000.
Definition range75Percent : Z := 0x60000000.
Definition range100Percent : Z := 0x80000000.

Module ArithmeticState.
Record t : Type := mk {
  bitstream : Bitstream_t;
  lowValue : Z;
  highValue : Z;
  total : Z;
  scaling : Z;
  symbolMin : Z;
  tableStartBitPosition : Z;
  buffer : Z;                   (* lookahead buffer *)
  bitLength : Z;                (* bits in compressed region *)
  bitsRead : Z                  (* bits read from compressed region *)
}.

Definition zero : t := mk (mkBitstream 0 []) 0 0 0 0 0 0 0 0 0.

Definition set_bitstream (v : Bitstream_t) (s : t) : t :=
  mk v (lowValue s) (highValue s) (total s) (scaling s) (symbolMin s)
     (tableStartBitPosition s) (buffer s) (bitLength s) (bitsRead s).
Definition set_lowValue (v : Z) (s : t) : t :=
  mk (bitstream s) v (highValue s) (total s) (scaling s) (symbolMin s)
     (tableStartBitPosition s) (buffer s) (bitLength s) (bitsRead s).
Definition set_highValue (v : Z) (s : t) : t :=
  mk (bitstream s) (lowValue s) v (total s) (scaling s) (symbolMin s)
     (tableStartBitPosition s) (buffer s) (bitLength s) (bitsRead s).
Definition set_total (v : Z) (s : t) : t :=
  mk (bitstream s) (lowValue s) (highValue s) v (scaling s) (symbolMin s)
     (tableStartBitPosition s) (buffer s) (bitLength s) (bitsRead s).
Definition set_symbolMin (v : Z) (s : t) : t :=
  mk (bitstream s) (lowValue s) (highValue s) (total s) (scaling s) v
     (tableStartBitPosition s) (buffer s) (bitLength s) (bitsRead s).
Definition set_tableStartBitPosition (v : Z) (s : t) : t :=
  mk (bitstream s) (lowValue s) (highValue s) (total s) (scaling s) (symbolMin s)
     v (buffer s) (bitLength s) (bitsRead s).
Definition set_buffer (v : Z) (s : t) : t :=
  mk (bitstream s) (lowValue s) (highValue s) (total s) (scaling s) (symbolMin s)
     (tableStartBitPosition s) v (bitLength s) (bitsRead s).
Definition set_bitLength (v : Z) (s : t) : t :=
  mk (bitstream s) (lowValue s) (highValue s) (total s) (scaling s) (symbolMin s)
     (tableStartBitPosition s) (buffer s) v (bitsRead s).
Definition set_bitsRead (v : Z) (s : t) : t :=
  mk (bitstream s) (lowValue s) (highValue s) (total s) (scaling s) (symbolMin s)
     (tableStartBitPosition s) (buffer s) (bitLength s) v.
End ArithmeticState.

Abbreviation ArithmeticState_t := ArithmeticState.t.

Definition ReadArithmeticBistream (state : ArithmeticState_t) (bitCount : Z)
  : result (Z * ArithmeticState_t) :=
  let state :=
    ArithmeticState.set_bitsRead (wrap32 (ArithmeticState.bitsRead state + 1)) state in
  if ArithmeticState.bitsRead state <? ArithmeticState.bitLength state then
    let* '(value, bitstream) :=
      ReadBitstream (ArithmeticState.bitstream state) bitCount in
    Ok (value, ArithmeticState.set_bitstream bitstream state)
  else Ok (0, state).

Definition DecodeArithmeticTable (fuel : nat) (state : ArithmeticState_t)
  : result ArithmeticState_t :=
  let bs := ArithmeticState.bitstream state in
  let* '(v, bs) := DecodeUniversalLomont1 fuel bs 6 0 in
  let state := ArithmeticState.set_symbolMin v state in
  let* '(symbolMax, bs) := DecodeUniversalLomont1 fuel bs 6 0 in
  let* '(tableBitLength, bs) := DecodeUniversalLomont1 fuel bs 6 0 in
  let state := ArithmeticState.set_tableStartBitPosition (position bs) state in
  let bs := {| position := wrap32 (position bs + tableBitLength); data := data bs |} in
  Ok (ArithmeticState.set_bitstream bs state).

(** The loop of [ReadArithmeticHeaderNoLength] that fills the buffer. *)
Fixpoint ReadArithmeticHeaderNoLength_buffer (n : nat) (state : ArithmeticState_t)
  : result ArithmeticState_t :=
  match n with
  | O => Ok state
  | S n =>
      let* '(b, state) := ReadArithmeticBistream state 1 in
      let state :=
        ArithmeticState.set_buffer
          (Z.lor (wrap32 (Z.shiftl (ArithmeticState.buffer state) 1)) b) state in
      ReadArithmeticHeaderNoLength_buffer n state
  end.

(** read from header, assumes state bitstream is set; return number of symbols *)
Definition ReadArithmeticHeaderNoLength (fuel : nat) (state : ArithmeticState_t)
  : result (Z * ArithmeticState_t) :=
  let state := ArithmeticState.set_lowValue 0 state in
  let state := ArithmeticState.set_highValue (wrap32 (range100Percent - 1)) state in
  let* '(v, bs) := DecodeUniversalLomont1 fuel (ArithmeticState.bitstream state) 6 0 in
  let state := ArithmeticState.set_total v (ArithmeticState.set_bitstream bs state) in
  let* '(v, bs) := DecodeUniversalLomont1 fuel (ArithmeticState.bitstream state) 8 (-1) in
  let state := ArithmeticState.set_bitLength v (ArithmeticState.set_bitstream bs state) in
  let state := ArithmeticState.set_bitsRead 0 state in
  let tempPos := position (ArithmeticState.bitstream state) in
  let* state := DecodeArithmeticTable fuel state in
  let state :=
    ArithmeticState.set_bitsRead
      (wrap32 (position (ArithmeticState.bitstream state) - tempPos)) state in
  let state := ArithmeticState.set_buffer 0 state in
  let* state := ReadArithmeticHeaderNoLength_buffer 31 state in
  Ok (ArithmeticState.total state, state).

Definition DecompressArithmeticStart (fuel : nat) (state : ArithmeticState_t)
    (source : list Z) (sourceLength : Z) : result (Z * ArithmeticState_t) :=
  let state := ArithmeticState.set_bitstream (InitializeBitstream source) state in
  ReadArithmeticHeaderNoLength fuel state.

(** The inner [do ... while (decision != 0)] loop of the table lookup. *)
Fixpoint LookupArithmeticLowMemoryCount_delta (fuel : nat) (bitstream : Bitstream_t)
    (delta : Z) : result (Z * Bitstream_t) :=
  match fuel with
  | O => Err OutOfFuel
  | S fuel =>
      let* '(decision, bitstream) := ReadBitstream bitstream 1 in
      let delta := wrap32 (delta + 1) in
      if decision =? 0 then Ok (delta, bitstream)
      else LookupArithmeticLowMemoryCount_delta fuel bitstream delta
  end.

(** The [while ( *highCount <= cumCount)] loop of the table lookup.  The
    result is [(symbol, lowCount, highCount, bitstream)]. *)
Fixpoint LookupArithmeticLowMemoryCount_loop (fuel : nat) (bitstream : Bitstream_t)
    (cumCount b1 lowCount highCount symbol i : Z)
  : result (Z * Z * Z * Bitstream_t) :=
  match fuel with
  | O => Err OutOfFuel
  | S fuel =>
      if highCount <=? cumCount then
        let* '(decision, bitstream) := ReadBitstream bitstream 1 in
        let* '(xi, bitstream) :=
          if decision =? 0 then
            (* bi is <= b(i-1), so enough bits *)
            ReadBitstream bitstream b1
          else
            (* bi is bigger than b(i-1), must increase it *)
            let* '(delta, bitstream) :=
              LookupArithmeticLowMemoryCount_delta fuel bitstream 0 in
            let b1 := wrap32 (b1 + delta) in
            let* '(xi, bitstream) := ReadBitstream bitstream (wrap32 (b1 - 1)) in
            let* leading := shl32 1 (to_int32 (wrap32 (b1 - 1))) in
            Ok (Z.lor xi leading, bitstream) in
        let b1 := BitsRequired xi in
        let lowCount := highCount in
        let highCount := wrap32 (highCount + xi) in
        let i := wrap32 (i + 1) in
        let symbol := if negb (xi =? 0) then i else symbol in
        LookupArithmeticLowMemoryCount_loop fuel bitstream cumCount b1
          lowCount highCount symbol i
      else Ok (symbol, lowCount, highCount, bitstream)
  end.

(** lookup symbol and probability range using table decoding; the result is
    [(symbol, lowCount, highCount, state)]. *)
Definition LookupArithmeticLowMemoryCount (fuel : nat) (state : ArithmeticState_t)
    (cumCount : Z) : result (Z * Z * Z * ArithmeticState_t) :=
  let tempPosition := position (ArithmeticState.bitstream state) in
  let bitstream :=
    {| position := ArithmeticState.tableStartBitPosition state;
       data := data (ArithmeticState.bitstream state) |} in
  let* '(length, bitstream) := DecodeUniversalLomont1 fuel bitstream 6 0 in
  let* '(symbol, lowCount, highCount, bitstream) :=
    if negb (length =? 0) then
      let* '(b1, bitstream) := DecodeUniversalLomont1 fuel bitstream 6 0 in
      let* '(xi, bitstream) := ReadBitstream bitstream b1 in
      LookupArithmeticLowMemoryCount_loop fuel bitstream cumCount b1
        0 xi (ArithmeticState.symbolMin state) (ArithmeticState.symbolMin state)
    else Ok (0, 0, 0, bitstream) in
  let bitstream := {| position := tempPosition; data := data bitstream |} in
  Ok (symbol, lowCount, highCount, ArithmeticState.set_bitstream bitstream state).

(** The e1/e2 scaling loop of [DecompressArithmeticSymbol]. *)
Fixpoint DecompressArithmeticSymbol_e1e2 (fuel : nat) (state : ArithmeticState_t)
  : result ArithmeticState_t :=
  match fuel with
  | O => Err OutOfFuel
  | S fuel =>
      if (ArithmeticState.highValue state <? range50Percent)
         || (range50Percent <=? ArithmeticState.lowValue state)
      then
        let* state :=
          if ArithmeticState.highValue state <? range50Percent then
            let state :=
              ArithmeticState.set_lowValue
                (wrap32 (2 * ArithmeticState.lowValue state)) state in
            let state :=
              ArithmeticState.set_highValue
                (wrap32 (2 * ArithmeticState.highValue state + 1)) state in
            let* '(b, state) := ReadArithmeticBistream state 1 in
            Ok (ArithmeticState.set_buffer
                  (wrap32 (2 * ArithmeticState.buffer state + b)) state)
          else if range50Percent <=? ArithmeticState.lowValue state then
            let state :=
              ArithmeticState.set_lowValue
                (wrap32 (2 * wrap32 (ArithmeticState.lowValue state - range50Percent)))
                state in
            let state :=
              ArithmeticState.set_highValue
                (wrap32 (2 * wrap32 (ArithmeticState.highValue state - range50Percent) + 1))
                state in
            let* '(b, state) := ReadArithmeticBistream state 1 in
            Ok (ArithmeticState.set_buffer
                  (wrap32 (2 * wrap32 (ArithmeticState.buffer state - range50Percent) + b))
                  state)
          else Ok state in
        DecompressArithmeticSymbol_e1e2 fuel state
      else Ok state
  end.

(** The e3 scaling loop of [DecompressArithmeticSymbol]. *)
Fixpoint DecompressArithmeticSymbol_e3 (fuel : nat) (state : ArithmeticState_t)
  : result ArithmeticState_t :=
  match fuel with
  | O => Err OutOfFuel
  | S fuel =>
      if (range25Percent <=? ArithmeticState.lowValue state)
         && (ArithmeticState.highValue state <? range75Percent)
      then
        let state :=
          ArithmeticState.set_lowValue
            (wrap32 (2 * wrap32 (ArithmeticState.lowValue state - range25Percent)))
            state in
        let state :=
          ArithmeticState.set_highValue
            (wrap32 (2 * wrap32 (ArithmeticState.highValue state - range25Percent) + 1))
            state in
        let* '(b, state) := ReadArithmeticBistream state 1 in
        let state :=
          ArithmeticState.set_buffer
            (wrap32 (2 * wrap32 (ArithmeticState.buffer state - range25Percent) + b))
            state in
        DecompressArithmeticSymbol_e3 fuel state
      else Ok state
  end.

(** The cumulative count looked up by [DecompressArithmeticSymbol], with
    the step it is computed from: [(step, cumCount)]. *)
Definition DecompressArithmeticSymbol_cumCount (state : ArithmeticState_t)
  : result (Z * Z) :=
  let* step :=
    divu (wrap32 (ArithmeticState.highValue state - ArithmeticState.lowValue state + 1))
         (ArithmeticState.total state) in
  let* cumCount :=
    divu (wrap32 (ArithmeticState.buffer state - ArithmeticState.lowValue state)) step in
  Ok (step, cumCount).

(** Decompress a symbol in the compression algorithm *)
Definition DecompressArithmeticSymbol (fuel : nat) (state : ArithmeticState_t)
  : result (Z * ArithmeticState_t) :=
  (* split range into single steps *)
  let* '(step, cumCount) := DecompressArithmeticSymbol_cumCount state in
  let* '(symbol, lowCount, highCount, state) :=
    LookupArithmeticLowMemoryCount fuel state cumCount in
  (* upper bound *)
  let state :=
    ArithmeticState.set_highValue
      (wrap32 (ArithmeticState.lowValue state + wrap32 (step * highCount) - 1)) state in
  (* lower bound *)
  let state :=
    ArithmeticState.set_lowValue
      (wrap32 (ArithmeticState.lowValue state + wrap32 (step * lowCount))) state in
  let* state := DecompressArithmeticSymbol_e1e2 fuel state in
  let* state := DecompressArithmeticSymbol_e3 fuel state in
  Ok (symbol, state).



(** ** LZ77 coding *)

Module LZ77State.
Record t : Type := mk {
  bitstream : Bitstream_t;      (* stream to decode from *)
  byteIndex : Z;                (* bytes decoded *)
  byteLength : Z;               (* total bytes to decode *)
  dest : list Z;                (* destination buffer *)
  destLength : Z;               (* and size *)
  actualMaxToken : Z;
  actualMaxDistance : Z;
  actualMinLength : Z;          (* uint8_t *)
  actualBitsPerSymbol : Z;      (* uint8_t *)
  actualBitsPerToken : Z        (* uint8_t *)
}.

Definition set_bitstream (v : Bitstream_t) (s : t) : t :=
  mk v (byteIndex s) (byteLength s) (dest s) (destLength s) (actualMaxToken s)
     (actualMaxDistance s) (actualMinLength s) (actualBitsPerSymbol s)
     (actualBitsPerToken s).
Definition set_byteIndex (v : Z) (s : t) : t :=
  mk (bitstream s) v (byteLength s) (dest s) (destLength s) (actualMaxToken s)
     (actualMaxDistance s) (actualMinLength s) (actualBitsPerSymbol s)
     (actualBitsPerToken s).
Definition set_dest (v : list Z) (s : t) : t :=
  mk (bitstream s) (byteIndex s) (byteLength s) v (destLength s) (actualMaxToken s)
     (actualMaxDistance s) (actualMinLength s) (actualBitsPerSymbol s)
     (actualBitsPerToken s).
End LZ77State.

Abbreviation LZ77State_t := LZ77State.t.

(** start decompression, follow up with DecompressLZ77Block until done *)
Definition DecompressLZ77Start (fuel : nat) (source : list Z) (sourceLength : Z)
    (dest : list Z) (destLength : Z) : result LZ77State_t :=
  let bitstream := InitializeBitstream source in
  (* header values *)
  let* '(byteLength, bitstream) := DecodeUniversalLomont1 fuel bitstream 6 0 in
  let* '(v, bitstream) := DecodeUniversalLomont1 fuel bitstream 3 0 in
  let actualBitsPerSymbol := wrap8 (wrap32 (v + 1)) in
  let* '(v, bitstream) := DecodeUniversalLomont1 fuel bitstream 5 0 in
  let actualBitsPerToken := wrap8 (wrap32 (v + 1)) in
  let* '(v, bitstream) := DecodeUniversalLomont1 fuel bitstream 2 0 in
  let actualMinLength := wrap8 v in
  let* '(actualMaxToken, bitstream) := DecodeUniversalLomont1 fuel bitstream 25 (-10) in
  let* '(actualMaxDistance, bitstream) := DecodeUniversalLomont1 fuel bitstream 14 (-7) in
  Ok (LZ77State.mk bitstream 0 byteLength dest (wrap32 destLength) actualMaxToken
        actualMaxDistance actualMinLength actualBitsPerSymbol actualBitsPerToken).

(** The copy loop of [DecompressLZ77Block]; besides the state it returns the
    stores it made, oldest first, as (index, byte loaded) pairs. *)
Fixpoint DecompressLZ77Block_copy (n : nat) (delta : Z) (state : LZ77State_t)
  : result (LZ77State_t * list (Z * Z)) :=
  match n with
  | O => Ok (state, [])
  | S n =>
      let* to := modu (LZ77State.byteIndex state) (LZ77State.destLength state) in
      let* from :=
        modu (wrap32 (LZ77State.byteIndex state + delta)) (LZ77State.destLength state) in
      let* v := load (LZ77State.dest state) from in
      let* dest := store (LZ77State.dest state) to v in
      let state := LZ77State.set_dest dest state in
      let state :=
        LZ77State.set_byteIndex (wrap32 (LZ77State.byteIndex state + 1)) state in
      let* '(state, stores) := DecompressLZ77Block_copy n delta state in
      Ok (state, (to, v) :: stores)
  end.

(** [delta] of [DecompressLZ77Block]:
    positive delta that looks back when taken mod destLength *)
Definition DecompressLZ77Block_delta (state : LZ77State_t) (distance : Z) : Z :=
  wrap32 (LZ77State.destLength state - distance - 1).

(** The run branch of [DecompressLZ77Block] once the token is split: from
    the computation of [delta] to [return length]. *)
Definition DecompressLZ77Block_run (state : LZ77State_t) (distance length : Z)
  : result (Z * LZ77State_t * list (Z * Z)) :=
  let delta := DecompressLZ77Block_delta state distance in
  let* '(state, stores) := DecompressLZ77Block_copy (Z.to_nat length) delta state in
  Ok (length, state, stores).

(** returns number of items decompressed, or CL_COMPRESSOR_END_TOKEN when
    no more. *)
Definition DecompressLZ77Block (state : LZ77State_t) : result (Z * LZ77State_t) :=
  if LZ77State.byteLength state <=? LZ77State.byteIndex state
  then Ok (CL_COMPRESSOR_END_TOKEN, state)
  else
    let* '(decision, bitstream) := ReadBitstream (LZ77State.bitstream state) 1 in
    let state := LZ77State.set_bitstream bitstream state in
    if decision =? 0 then
      (* literal *)
      let* '(lit, bitstream) :=
        ReadBitstream (LZ77State.bitstream state) (LZ77State.actualBitsPerSymbol state) in
      let state := LZ77State.set_bitstream bitstream state in
      let* to := modu (LZ77State.byteIndex state) (LZ77State.destLength state) in
      let* dest := store (LZ77State.dest state) to lit in
      let state := LZ77State.set_dest dest state in
      let state :=
        LZ77State.set_byteIndex (wrap32 (LZ77State.byteIndex state + 1)) state in
      Ok (1, state)
    else
      (* run *)
      let* '(token, bitstream) :=
        ReadBitstream (LZ77State.bitstream state) (LZ77State.actualBitsPerToken state) in
      let state := LZ77State.set_bitstream bitstream state in
      (* decode token *)
      let* q := divu token (wrap32 (LZ77State.actualMaxDistance state + 1)) in
      let length := wrap32 (q + LZ77State.actualMinLength state) in
      let* distance := modu token (wrap32 (LZ77State.actualMaxDistance state + 1)) in
      (* copy run *)
      let* '(length, state, _) := DecompressLZ77Block_run state distance length in
      Ok (length, state).

(** The [while] loop of [DecompressLZ77]. *)
Fixpoint DecompressLZ77_loop (fuel : nat) (state : LZ77State_t) : result LZ77State_t :=
  match fuel with
  | O => Err OutOfFuel
  | S fuel =>
      let* '(symbolCount, state) := DecompressLZ77Block state in
      if negb (symbolCount =? CL_COMPRESSOR_END_TOKEN)
      then DecompressLZ77_loop fuel state
      else Ok state
  end.

(** decompress, return bytes decoded (and the destination array) *)
Definition DecompressLZ77 (fuel : nat) (source : list Z) (sourceLength : Z)
    (dest : list Z) (destLength : Z) : result (Z * list Z) :=
  let* state := DecompressLZ77Start fuel source sourceLength dest destLength in
  let* state := DecompressLZ77_loop fuel state in
  Ok (to_int32 (LZ77State.byteIndex state), LZ77State.dest state).

(** ** Fixed length coding *)

Module FixedState.
Record t : Type := mk {
  bitstream : Bitstream_t;
  bitsPerSymbol : Z
}.
Definition zero : t := mk (mkBitstream 0 []) 0.
End FixedState.

Abbreviation FixedState_t := FixedState.t.

Definition ReadFixedHeaderNoLength (fuel : nat) (state : FixedState_t)
  : result FixedState_t :=
  let* '(v, bitstream) := DecodeUniversalLomont1 fuel (FixedState.bitstream state) 3 0 in
  Ok (FixedState.mk bitstream (wrap32 (v + 1))).

Definition DecompressFixedSymbol (state : FixedState_t) : result (Z * FixedState_t) :=
  let* '(v, bitstream) :=
    ReadBitstream (FixedState.bitstream state) (FixedState.bitsPerSymbol state) in
  Ok (v, FixedState.mk bitstream (FixedState.bitsPerSymbol state)).

(** ** Golomb coding *)

Module GolombState.
Record t : Type := mk {
  bitstream : Bitstream_t;
  parameter : Z
}.
Definition zero : t := mk (mkBitstream 0 []) 0.
End GolombState.

Abbreviation GolombState_t := GolombState.t.

Definition ReadGolombHeaderNoLength (fuel : nat) (state : GolombState_t)
  : result GolombState_t :=
  let* '(v, bitstream) := DecodeUniversalLomont1 fuel (GolombState.bitstream state) 6 0 in
  Ok (GolombState.mk bitstream v).

(** Decodes truncated code item *)
Definition DecodeTruncated (bitstream : Bitstream_t) (n : Z) : result (Z * Bitstream_t) :=
  let k := BitsRequired n in
  let* one := shl32 1 (to_int32 k) in
  let u := wrap32 (one - n) in  (* u = number of unused codewords *)
  let* '(x, bitstream) := ReadBitstream bitstream (wrap32 (k - 1)) in
  if u <=? x then
    (* need another bit *)
    let* '(b, bitstream) := ReadBitstream bitstream 1 in
    let x := wrap32 (2 * x + b) in
    let x := wrap32 (x - u) in
    Ok (x, bitstream)
  else Ok (x, bitstream).

(** The [while (ReadBitstream(..., 1) == 1) ++q] loop. *)
Fixpoint DecompressGolombSymbol_unary (fuel : nat) (bitstream : Bitstream_t) (q : Z)
  : result (Z * Bitstream_t) :=
  match fuel with
  | O => Err OutOfFuel
  | S fuel =>
      let* '(b, bitstream) := ReadBitstream bitstream 1 in
      if b =? 1 then DecompressGolombSymbol_unary fuel bitstream (wrap32 (q + 1))
      else Ok (q, bitstream)
  end.

Definition DecompressGolombSymbol (fuel : nat) (state : GolombState_t)
  : result (Z * GolombState_t) :=
  let* '(q, bitstream) :=
    DecompressGolombSymbol_unary fuel (GolombState.bitstream state) 0 in
  let* '(r, bitstream) := DecodeTruncated bitstream (GolombState.parameter state) in
  Ok (wrap32 (wrap32 (q * GolombState.parameter state) + r),
      GolombState.mk bitstream (GolombState.parameter state)).

(** ** LZCL coding *)

(** A sub-codec.  The C structure overlays the four codec states in a
    union; [codecType] selects the member in use.  The code only accesses
    the member selected by [codecType], which is the one [ReadLZCLItem]
    filled in (or, in storage that [memset] cleared and no item was read
    into, the all-zero [fixedState]), so each member is kept as a field. *)
Module LZCLSubCodec.
Record t : Type := mk {
  fixedState : FixedState_t;
  arithmeticState : ArithmeticState_t;
  huffmanState : HuffmanState_t;
  golombState : GolombState_t;
  codecType : Z;                (* codec type 0-3 *)
  bitLength : Z
}.

Definition zero : t :=
  mk FixedState.zero ArithmeticState.zero HuffmanState.zero GolombState.zero 0 0.

Definition set_fixedState (v : FixedState_t) (c : t) : t :=
  mk v (arithmeticState c) (huffmanState c) (golombState c) (codecType c) (bitLength c).
Definition set_arithmeticState (v : ArithmeticState_t) (c : t) : t :=
  mk (fixedState c) v (huffmanState c) (golombState c) (codecType c) (bitLength c).
Definition set_huffmanState (v : HuffmanState_t) (c : t) : t :=
  mk (fixedState c) (arithmeticState c) v (golombState c) (codecType c) (bitLength c).
Definition set_golombState (v : GolombState_t) (c : t) : t :=
  mk (fixedState c) (arithmeticState c) (huffmanState c) v (codecType c) (bitLength c).
Definition set_codecType (v : Z) (c : t) : t :=
  mk (fixedState c) (arithmeticState c) (huffmanState c) (golombState c) v (bitLength c).
Definition set_bitLength (v : Z) (c : t) : t :=
  mk (fixedState c) (arithmeticState c) (huffmanState c) (golombState c) (codecType c) v.
End LZCLSubCodec.

Abbreviation LZCLSubCodec_t := LZCLSubCodec.t.

(** The LZCL state.  Two members of the C structure are unions of
    sub-codecs of the same type: [decisionCodec] shares its storage with
    [decisionRunCodec], and [tokenCodec] shares its storage with
    [distanceCodec] ([lengthCodec] follows [distanceCodec] and overlaps
    nothing that is named).  Each shared storage is one field here, read
    and written under both names. *)
Module LZCLState.
Record t : Type := mk {
  actualMinLength : Z;
  actualMaxDistance : Z;
  byteLength : Z;
  byteIndex : Z;
  bitstream : Bitstream_t;
  useDecisionRuns : Z;          (* how to decode decisions *)
  decisionCodec : LZCLSubCodec_t;   (* union with decisionRunCodec *)
  literalCodec : LZCLSubCodec_t;
  useTokens : Z;                (* how to decode distance/length pairs *)
  tokenCodec : LZCLSubCodec_t;      (* union with distanceCodec *)
  lengthCodec : LZCLSubCodec_t;
  initialValue : Z;
  dest : list Z;
  destLength : Z;
  curRun : Z;                   (* int32_t: 0 or 1, -1 if none decoded yet *)
  runsLeft : Z                  (* runs of current type left *)
}.

Definition decisionRunCodec (s : t) : LZCLSubCodec_t := decisionCodec s.
Definition distanceCodec (s : t) : LZCLSubCodec_t := tokenCodec s.

(** [memset(state, 0, sizeof(LZCLState_t))]; the null [dest] is the empty
    array. *)
Definition zero : t :=
  mk 0 0 0 0 (mkBitstream 0 []) 0 LZCLSubCodec.zero LZCLSubCodec.zero 0
     LZCLSubCodec.zero LZCLSubCodec.zero 0 [] 0 0 0.

Definition set_actualMinLength (v : Z) (s : t) : t :=
  mk v (actualMaxDistance s) (byteLength s) (byteIndex s) (bitstream s)
     (useDecisionRuns s) (decisionCodec s) (literalCodec s) (useTokens s)
     (tokenCodec s) (lengthCodec s) (initialValue s) (dest s) (destLength s)
     (curRun s) (runsLeft s).
Definition set_actualMaxDistance (v : Z) (s : t) : t :=
  mk (actualMinLength s) v (byteLength s) (byteIndex s) (bitstream s)
     (useDecisionRuns s) (decisionCodec s) (literalCodec s) (useTokens s)
     (tokenCodec s) (lengthCodec s) (initialValue s) (dest s) (destLength s)
     (curRun s) (runsLeft s).
Definition set_byteLength (v : Z) (s : t) : t :=
  mk (actualMinLength s) (actualMaxDistance s) v (byteIndex s) (bitstream s)
     (useDecisionRuns s) (decisionCodec s) (literalCodec s) (useTokens s)
     (tokenCodec s) (lengthCodec s) (initialValue s) (dest s) (destLength s)
     (curRun s) (runsLeft s).
Definition set_byteIndex (v : Z) (s : t) : t :=
  mk (actualMinLength s) (actualMaxDistance s) (byteLength s) v (bitstream s)
     (useDecisionRuns s) (decisionCodec s) (literalCodec s) (useTokens s)
     (tokenCodec s) (lengthCodec s) (initialValue s) (dest s) (destLength s)
     (curRun s) (runsLeft s).
Definition set_bitstream (v : Bitstream_t) (s : t) : t :=
  mk (actualMinLength s) (actualMaxDistance s) (byteLength s) (byteIndex s) v
     (useDecisionRuns s) (decisionCodec s) (literalCodec s) (useTokens s)
     (tokenCodec s) (lengthCodec s) (initialValue s) (dest s) (destLength s)
     (curRun s) (runsLeft s).
Definition set_useDecisionRuns (v : Z) (s : t) : t :=
  mk (actualMinLength s) (actualMaxDistance s) (byteLength s) (byteIndex s) (bitstream s)
     v (decisionCodec s) (literalCodec s) (useTokens s)
     (tokenCodec s) (lengthCodec s) (initialValue s) (dest s) (destLength s)
     (curRun s) (runsLeft s).
Definition set_decisionCodec (v : LZCLSubCodec_t) (s : t) : t :=
  mk (actualMinLength s) (actualMaxDistance s) (byteLength s) (byteIndex s) (bitstream s)
     (useDecisionRuns s) v (literalCodec s) (useTokens s)
     (tokenCodec s) (lengthCodec s) (initialValue s) (dest s) (destLength s)
     (curRun s) (runsLeft s).
Definition set_decisionRunCodec (v : LZCLSubCodec_t) (s : t) : t :=
  set_decisionCodec v s.
Definition set_literalCodec (v : LZCLSubCodec_t) (s : t) : t :=
  mk (actualMinLength s) (actualMaxDistance s) (byteLength s) (byteIndex s) (bitstream s)
     (useDecisionRuns s) (decisionCodec s) v (useTokens s)
     (tokenCodec s) (lengthCodec s) (initialValue s) (dest s) (destLength s)
     (curRun s) (runsLeft s).
Definition set_tokenCodec (v : LZCLSubCodec_t) (s : t) : t :=
  mk (actualMinLength s) (actualMaxDistance s) (byteLength s) (byteIndex s) (bitstream s)
     (useDecisionRuns s) (decisionCodec s) (literalCodec s) (useTokens s)
     v (lengthCodec s) (initialValue s) (dest s) (destLength s)
     (curRun s) (runsLeft s).
Definition set_distanceCodec (v : LZCLSubCodec_t) (s : t) : t :=
  set_tokenCodec v s.
Definition set_lengthCodec (v : LZCLSubCodec_t) (s : t) : t :=
  mk (actualMinLength s) (actualMaxDistance s) (byteLength s) (byteIndex s) (bitstream s)
     (useDecisionRuns s) (decisionCodec s) (literalCodec s) (useTokens s)
     (tokenCodec s) v (initialValue s) (dest s) (destLength s)
     (curRun s) (runsLeft s).
Definition set_initialValue (v : Z) (s : t) : t :=
  mk (actualMinLength s) (actualMaxDistance s) (byteLength s) (byteIndex s) (bitstream s)
     (useDecisionRuns s) (decisionCodec s) (literalCodec s) (useTokens s)
     (tokenCodec s) (lengthCodec s) v (dest s) (destLength s)
     (curRun s) (runsLeft s).
Definition set_dest (v : list Z) (s : t) : t :=
  mk (actualMinLength s) (actualMaxDistance s) (byteLength s) (byteIndex s) (bitstream s)
     (useDecisionRuns s) (decisionCodec s) (literalCodec s) (useTokens s)
     (tokenCodec s) (lengthCodec s) (initialValue s) v (destLength s)
     (curRun s) (runsLeft s).
Definition set_destLength (v : Z) (s : t) : t :=
  mk (actualMinLength s) (actualMaxDistance s) (byteLength s) (byteIndex s) (bitstream s)
     (useDecisionRuns s) (decisionCodec s) (literalCodec s) (useTokens s)
     (tokenCodec s) (lengthCodec s) (initialValue s) (dest s) v
     (curRun s) (runsLeft s).
Definition set_curRun (v : Z) (s : t) : t :=
  mk (actualMinLength s) (actualMaxDistance s) (byteLength s) (byteIndex s) (bitstream s)
     (useDecisionRuns s) (decisionCodec s) (literalCodec s) (useTokens s)
     (tokenCodec s) (lengthCodec s) (initialValue s) (dest s) (destLength s)
     v (runsLeft s).
Definition set_runsLeft (v : Z) (s : t) : t :=
  mk (actualMinLength s) (actualMaxDistance s) (byteLength s) (byteIndex s) (bitstream s)
     (useDecisionRuns s) (decisionCodec s) (literalCodec s) (useTokens s)
     (tokenCodec s) (lengthCodec s) (initialValue s) (dest s) (destLength s)
     (curRun s) v.
End LZCLState.

Abbreviation LZCLState_t := LZCLState.t.

Definition DecodeLZCLSymbol (fuel : nat) (codec : LZCLSubCodec_t)
  : result (Z * LZCLSubCodec_t) :=
  if LZCLSubCodec.codecType codec =? 0 then
    let* '(v, st) := DecompressFixedSymbol (LZCLSubCodec.fixedState codec) in
    Ok (v, LZCLSubCodec.set_fixedState st codec)
  else if LZCLSubCodec.codecType codec =? 1 then
    let* '(v, st) := DecompressArithmeticSymbol fuel (LZCLSubCodec.arithmeticState codec) in
    Ok (v, LZCLSubCodec.set_arithmeticState st codec)
  else if LZCLSubCodec.codecType codec =? 2 then
    let* '(v, st) := DecompressHuffmanSymbol fuel (LZCLSubCodec.huffmanState codec) in
    Ok (v, LZCLSubCodec.set_huffmanState st codec)
  else if LZCLSubCodec.codecType codec =? 3 then
    let* '(v, st) := DecompressGolombSymbol fuel (LZCLSubCodec.golombState codec) in
    Ok (v, LZCLSubCodec.set_golombState st codec)
  else Ok (0xBADC0DE, codec).

(** Get codec type, a bitstream for it, read the header, advance the
    bitstream. *)
Definition ReadLZCLItem (fuel : nat) (decoder : LZCLSubCodec_t) (bitstream : Bitstream_t)
  : result (LZCLSubCodec_t * Bitstream_t) :=
  (* get type *)
  let* '(v, bitstream) := ReadBitstream bitstream 2 in
  let decoder := LZCLSubCodec.set_codecType (wrap8 v) decoder in
  (* get encoded bit length *)
  let* '(v, bitstream) := DecodeUniversalLomont1 fuel bitstream 6 0 in
  let decoder := LZCLSubCodec.set_bitLength v decoder in
  (* prepare a bitstream for the codec, parse header *)
  let own := {| position := position bitstream; data := data bitstream |} in
  let* decoder :=
    if LZCLSubCodec.codecType decoder =? 0 then
      let st :=
        FixedState.mk own (FixedState.bitsPerSymbol (LZCLSubCodec.fixedState decoder)) in
      let* st := ReadFixedHeaderNoLength fuel st in
      Ok (LZCLSubCodec.set_fixedState st decoder)
    else if LZCLSubCodec.codecType decoder =? 1 then
      let st :=
        ArithmeticState.set_bitstream own (LZCLSubCodec.arithmeticState decoder) in
      let* '(_, st) := ReadArithmeticHeaderNoLength fuel st in
      Ok (LZCLSubCodec.set_arithmeticState st decoder)
    else if LZCLSubCodec.codecType decoder =? 2 then
      let st := HuffmanState.set_bitstream own (LZCLSubCodec.huffmanState decoder) in
      let* st := ReadHuffmanHeaderNoLength fuel st in
      let st := HuffmanState.set_byteLength 0xFFFFFFFF st in (* mark continual run *)
      Ok (LZCLSubCodec.set_huffmanState st decoder)
    else if LZCLSubCodec.codecType decoder =? 3 then
      let st :=
        GolombState.mk own (GolombState.parameter (LZCLSubCodec.golombState decoder)) in
      let* st := ReadGolombHeaderNoLength fuel st in
      Ok (LZCLSubCodec.set_golombState st decoder)
    else Ok decoder in
  (* skip general bitstream ahead *)
  let bitstream :=
    {| position := wrap32 (position bitstream + LZCLSubCodec.bitLength decoder);
       data := data bitstream |} in
  Ok (decoder, bitstream).

Definition GetLZCLDecision (fuel : nat) (state : LZCLState_t) : result (Z * LZCLState_t) :=
  if LZCLState.useDecisionRuns state =? 0 then
    let* '(v, codec) := DecodeLZCLSymbol fuel (LZCLState.decisionCodec state) in
    Ok (v, LZCLState.set_decisionCodec codec state)
  else
    let* state :=
      if LZCLState.curRun state =? -1 then
        let state :=
          LZCLState.set_curRun (to_int32 (LZCLState.initialValue state)) state in
        let* '(v, codec) := DecodeLZCLSymbol fuel (LZCLState.decisionRunCodec state) in
        Ok (LZCLState.set_runsLeft v (LZCLState.set_decisionRunCodec codec state))
      else Ok state in
    let* state :=
      if LZCLState.runsLeft state =? 0 then
        (* toggle direction *)
        let state := LZCLState.set_curRun (Z.lxor (LZCLState.curRun state) 1) state in
        let* '(v, codec) := DecodeLZCLSymbol fuel (LZCLState.decisionRunCodec state) in
        Ok (LZCLState.set_runsLeft v (LZCLState.set_decisionRunCodec codec state))
      else Ok state in
    let state := LZCLState.set_runsLeft (wrap32 (LZCLState.runsLeft state - 1)) state in
    Ok (wrap32 (LZCLState.curRun state), state).

(** The result is [( *distance1, *length1, state)]. *)
Definition GetLZCLDecodedToken (fuel : nat) (state : LZCLState_t)
  : result (Z * Z * LZCLState_t) :=
  if LZCLState.useTokens state =? 0 then
    let* '(distance1, codec) := DecodeLZCLSymbol fuel (LZCLState.distanceCodec state) in
    let state := LZCLState.set_distanceCodec codec state in
    let* '(v, codec) := DecodeLZCLSymbol fuel (LZCLState.lengthCodec state) in
    let state := LZCLState.set_lengthCodec codec state in
    let length1 := wrap32 (v + LZCLState.actualMinLength state) in
    Ok (distance1, length1, state)
  else
    let* '(token, codec) := DecodeLZCLSymbol fuel (LZCLState.tokenCodec state) in
    let state := LZCLState.set_tokenCodec codec state in
    let* q := divu token (wrap32 (LZCLState.actualMaxDistance state + 1)) in
    let length1 := wrap32 (q + LZCLState.actualMinLength state) in
    let* distance1 := modu token (wrap32 (LZCLState.actualMaxDistance state + 1)) in
    Ok (distance1, length1, state).

(** Read the header for the compression algorithm.  The result is the
    returned [byteLength] and the state. *)
Definition DecompressLZCLStart (fuel : nat) (source : list Z) (sourceLength : Z)
    (dest : list Z) (destLength : Z) : result (Z * LZCLState_t) :=
  (* initalize state *)
  let state := LZCLState.zero in
  let state := LZCLState.set_curRun (-1) state in
  (* save info about buffer we can write into *)
  let state := LZCLState.set_dest dest state in
  let state := LZCLState.set_destLength (wrap32 destLength) state in
  (* prepare bitstream *)
  let state := LZCLState.set_bitstream (InitializeBitstream source) state in
  (* read header values *)
  let* '(v, bs) := DecodeUniversalLomont1 fuel (LZCLState.bitstream state) 6 0 in
  let state := LZCLState.set_byteLength v (LZCLState.set_bitstream bs state) in
  let* '(v, bs) := DecodeUniversalLomont1 fuel (LZCLState.bitstream state) 10 0 in
  let state := LZCLState.set_actualMaxDistance v (LZCLState.set_bitstream bs state) in
  let* '(v, bs) := DecodeUniversalLomont1 fuel (LZCLState.bitstream state) 2 0 in
  let state := LZCLState.set_actualMinLength v (LZCLState.set_bitstream bs state) in
  (* see if decisions or decision runs *)
  let* '(v, bs) := ReadBitstream (LZCLState.bitstream state) 1 in
  let state := LZCLState.set_bitstream bs state in
  let* state :=
    if v =? 0 then
      let state := LZCLState.set_useDecisionRuns 0 state in
      let* '(codec, bs) :=
        ReadLZCLItem fuel (LZCLState.decisionCodec state) (LZCLState.bitstream state) in
      Ok (LZCLState.set_bitstream bs (LZCLState.set_decisionCodec codec state))
    else
      let state := LZCLState.set_useDecisionRuns 1 state in
      (* read initial value *)
      let* '(v, bs) := ReadBitstream (LZCLState.bitstream state) 1 in
      let state := LZCLState.set_initialValue v (LZCLState.set_bitstream bs state) in
      (* read item *)
      let* '(codec, bs) :=
        ReadLZCLItem fuel (LZCLState.decisionRunCodec state) (LZCLState.bitstream state) in
      Ok (LZCLState.set_bitstream bs (LZCLState.set_decisionRunCodec codec state)) in
  (* literals *)
  let* '(codec, bs) :=
    ReadLZCLItem fuel (LZCLState.literalCodec state) (LZCLState.bitstream state) in
  let state := LZCLState.set_bitstream bs (LZCLState.set_literalCodec codec state) in
  (* tokens or separate distance, length pairs *)
  let* '(v, bs) := ReadBitstream (LZCLState.bitstream state) 1 in
  let state := LZCLState.set_bitstream bs state in
  let* state :=
    if v =? 0 then
      let* '(codec, bs) :=
        ReadLZCLItem fuel (LZCLState.tokenCodec state) (LZCLState.bitstream state) in
      Ok (LZCLState.set_bitstream bs (LZCLState.set_tokenCodec codec state))
    else
      let* '(codec, bs) :=
        ReadLZCLItem fuel (LZCLState.distanceCodec state) (LZCLState.bitstream state) in
      let state := LZCLState.set_bitstream bs (LZCLState.set_distanceCodec codec state) in
      let* '(codec, bs) :=
        ReadLZCLItem fuel (LZCLState.lengthCodec state) (LZCLState.bitstream state) in
      Ok (LZCLState.set_bitstream bs (LZCLState.set_lengthCodec codec state)) in
  Ok (LZCLState.byteLength state, state).

(** The copy loop of [DecompressLZCLBlock]; besides the state it returns the
    stores it made, oldest first, as (index, byte loaded) pairs. *)
Fixpoint DecompressLZCLBlock_copy (n : nat) (delta : Z) (state : LZCLState_t)
  : result (LZCLState_t * list (Z * Z)) :=
  match n with
  | O => Ok (state, [])
  | S n =>
      let* to := modu (LZCLState.byteIndex state) (LZCLState.destLength state) in
      let* from :=
        modu (wrap32 (LZCLState.byteIndex state + delta)) (LZCLState.destLength state) in
      let* v := load (LZCLState.dest state) from in
      let* dest := store (LZCLState.dest state) to v in
      let state := LZCLState.set_dest dest state in
      let state :=
        LZCLState.set_byteIndex (wrap32 (LZCLState.byteIndex state + 1)) state in
      let* '(state, stores) := DecompressLZCLBlock_copy n delta state in
      Ok (state, (to, v) :: stores)
  end.

(** [delta] of [DecompressLZCLBlock]:
    positive delta that looks back when taken mod destLength *)
Definition DecompressLZCLBlock_delta (state : LZCLState_t) (distance : Z) : Z :=
  wrap32 (LZCLState.destLength state - distance - 1).

(** The token branch of [DecompressLZCLBlock] once distance and length are
    decoded: from the computation of [delta] to [return length]. *)
Definition DecompressLZCLBlock_run (state : LZCLState_t) (distance length : Z)
  : result (Z * LZCLState_t * list (Z * Z)) :=
  let delta := DecompressLZCLBlock_delta state distance in
  let* '(state, stores) := DecompressLZCLBlock_copy (Z.to_nat length) delta state in
  Ok (length, state, stores).

(** returns number of items decompressed, or CL_COMPRESSOR_END_TOKEN when
    no more. *)
Definition DecompressLZCLBlock (fuel : nat) (state : LZCLState_t)
  : result (Z * LZCLState_t) :=
  if LZCLState.byteLength state <=? LZCLState.byteIndex state
  then Ok (CL_COMPRESSOR_END_TOKEN, state)
  else
    let* '(decision, state) := GetLZCLDecision fuel state in
    if decision =? 0 then
      (* literal *)
      let* '(symbol, codec) := DecodeLZCLSymbol fuel (LZCLState.literalCodec state) in
      let state := LZCLState.set_literalCodec codec state in
      let* to := modu (LZCLState.byteIndex state) (LZCLState.destLength state) in
      let* dest := store (LZCLState.dest state) to symbol in
      let state := LZCLState.set_dest dest state in
      let state :=
        LZCLState.set_byteIndex (wrap32 (LZCLState.byteIndex state + 1)) state in
      Ok (1, state)
    else
      (* token - either a single token or a token pair *)
      let* '(distance, length, state) := GetLZCLDecodedToken fuel state in
      (* copy run *)
      let* '(length, state, _) := DecompressLZCLBlock_run state distance length in
      Ok (length, state).

(** The [while] loop of [DecompressLZCL]. *)
Fixpoint DecompressLZCL_loop (fuel : nat) (blockFuel : nat) (state : LZCLState_t)
  : result LZCLState_t :=
  match fuel with
  | O => Err OutOfFuel
  | S fuel =>
      let* '(symbolCount, state) := DecompressLZCLBlock blockFuel state in
      if negb (symbolCount =? CL_COMPRESSOR_END_TOKEN)
      then DecompressLZCL_loop fuel blockFuel state
      else Ok state
  end.

(** decompress, return bytes decoded (and the destination array) *)
Definition DecompressLZCL (fuel : nat) (source : list Z) (sourceLength : Z)
    (dest : list Z) (destLength : Z) : result (Z * list Z) :=
  let* '(_, state) := DecompressLZCLStart fuel source sourceLength dest destLength in
  let* state := DecompressLZCL_loop fuel fuel state in
  Ok (to_int32 (LZCLState.byteIndex state), LZCLState.dest state).

(** * Definitions following the specification's wording *)

(** Bit number [q] of the stream, MSB first within each byte: bit
    [7 - q mod 8] of byte [data[q / 8]]. *)
Definition bit_at (data : list Z) (q : Z) : Z :=
  match data !! Z.to_nat (q / 8) with
  | Some byte => Z.b2z (Z.testbit byte (7 - q mod 8))
  | None => 0
  end.

(** [b0 * 2^(k-1) + b1 * 2^(k-2) + ... + b(k-1)] for the [k] bits from
    position [p]. *)
Fixpoint msb_first_value (data : list Z) (p : Z) (k : nat) : Z :=
  match k with
  | O => 0
  | S k' => bit_at data p * 2 ^ Z.of_nat k' + msb_first_value data (p + 1) k'
  end.

(** The Lomont1 decoding loop as the specification words it, over the
    integers: read one continuation bit [b], read [chunkSize] bits as
    [chunk], add [chunk << shift] to [value], add [chunkSize] to [shift],
    replace [chunkSize] by [max(1, chunkSize + deltaChunk)] if [deltaChunk]
    is not zero, and leave after the first trip whose [b] was 0. *)
Fixpoint Lomont1_spec_loop (fuel : nat) (bitstream : Bitstream_t)
    (value shift chunkSize deltaChunk : Z) : result (Z * Bitstream_t) :=
  match fuel with
  | O => Err OutOfFuel
  | S fuel =>
      let* '(b, bitstream) := ReadBitstream bitstream 1 in
      let* '(chunk, bitstream) := ReadBitstream bitstream chunkSize in
      let value := value + chunk * 2 ^ shift in
      let shift := shift + chunkSize in
      let chunkSize :=
        if deltaChunk =? 0 then chunkSize else Z.max 1 (chunkSize + deltaChunk) in
      if b =? 0 then Ok (value, bitstream)
      else Lomont1_spec_loop fuel bitstream value shift chunkSize deltaChunk
  end.

(** The value is returned as a [uint32_t]. *)
Definition Lomont1_spec (fuel : nat) (bitstream : Bitstream_t)
    (chunkSize deltaChunk : Z) : result (Z * Bitstream_t) :=
  let* '(value, bitstream) :=
    Lomont1_spec_loop fuel bitstream 0 0 chunkSize deltaChunk in
  Ok (wrap32 value, bitstream).

(** The chunk size in force after [n] trips of the loop of
    [DecodeUniversalLomont1]. *)
Fixpoint Lomont1_chunkSizes (n : nat) (chunkSize deltaChunk : Z) : result Z :=
  match n with
  | O => Ok chunkSize
  | S n =>
      let* chunkSize := Lomont1_nextChunkSize chunkSize deltaChunk in
      Lomont1_chunkSizes n chunkSize deltaChunk
  end.

(** Whether the loop of the specification, run on [bitstream], stays inside
    what the C variables hold: on every trip that reads its chunk the chunk
    is shifted by less than 32 bits, and [shift + chunkSize] and
    [chunkSize + deltaChunk] are values of type [int].  A trip whose reads
    fail, and an exhausted budget, end the run inside the range. *)
Fixpoint Lomont1_spec_in_range (fuel : nat) (bitstream : Bitstream_t)
    (shift chunkSize deltaChunk : Z) : bool :=
  match fuel with
  | O => true
  | S fuel =>
      match ReadBitstream bitstream 1 with
      | Err _ => true
      | Ok (b, bitstream) =>
          match ReadBitstream bitstream chunkSize with
          | Err _ => true
          | Ok (_, bitstream) =>
              (shift <? 32)
              && (shift + chunkSize <=? INT_MAX)
              && ((deltaChunk =? 0)
                  || ((INT_MIN <=? chunkSize + deltaChunk)
                      && (chunkSize + deltaChunk <=? INT_MAX)))
              && ((b =? 0)
                  || Lomont1_spec_in_range fuel bitstream (shift + chunkSize)
                       (if deltaChunk =? 0 then chunkSize
                        else Z.max 1 (chunkSize + deltaChunk))
                       deltaChunk)
          end
      end
  end.

(** The loop of the specification with the chunk size of trip [n] in closed
    form: [max(1, chunkSize + n * deltaChunk)]. *)
Fixpoint Lomont1_clamped_loop (fuel : nat) (bitstream : Bitstream_t)
    (value shift n chunkSize deltaChunk : Z) : result (Z * Bitstream_t) :=
  match fuel with
  | O => Err OutOfFuel
  | S fuel =>
      let size := Z.max 1 (chunkSize + n * deltaChunk) in
      let* '(b, bitstream) := ReadBitstream bitstream 1 in
      let* '(chunk, bitstream) := ReadBitstream bitstream size in
      let value := value + chunk * 2 ^ shift in
      let shift := shift + size in
      if b =? 0 then Ok (value, bitstream)
      else Lomont1_clamped_loop fuel bitstream value shift (n + 1) chunkSize deltaChunk
  end.

(** A computation that does not fail on the destination array. *)
Definition no_dest_fault {A : Type} (r : result A) : Prop := r <> Err DestOverrun.

(** * Inputs of the examples *)

(** Seven chunks of six bits, each holding 1: [1 000001] six times, then
    [0 000001].  The seventh chunk is read at shift 36. *)
Definition lomont1_overlong_stream : list Z := [131; 6; 12; 24; 48; 64; 128].

(** A state whose compressed region is the single bit 1, none read yet. *)
Definition one_bit_region : ArithmeticState_t :=
  ArithmeticState.mk (mkBitstream 0 [0x80]) 0 0x7FFFFFFF 1 0 0 0 0 1 0.

(** A state whose compressed region is the three bits 111, none read yet. *)
Definition three_bit_region : ArithmeticState_t :=
  ArithmeticState.mk (mkBitstream 0 [0xE0]) 0 0x7FFFFFFF 1 0 0 0 0 3 0.

(** [n] successive calls of [DecompressHuffmanSymbol] on the same state,
    with the values they return. *)
Fixpoint DecompressHuffmanSymbol_calls (fuel : nat) (n : nat) (state : HuffmanState_t)
  : result (list Z * HuffmanState_t) :=
  match n with
  | O => Ok ([], state)
  | S n =>
      let* '(symbol, state) := DecompressHuffmanSymbol fuel state in
      let* '(symbols, state) := DecompressHuffmanSymbol_calls fuel n state in
      Ok (symbol :: symbols, state)
  end.

(** A Huffman stream with 32-bit symbols.  In bit order: [byteLength = 1]
    as [0 000001]; [bitsPerSymbol - 1 = 31] as [1 111 0 011];
    [bitsPerCodelengthCount - 1 = 0] as [0 000]; [minCodewordLength - 1 = 0]
    as [0 00]; the length delta less one, 0, as [0 0000]; the table: for
    length 1 the count [1] and one symbol of 32 one bits, for length 2 the
    count [0]; then the codeword [0]. *)
Definition wide_symbol_stream : list Z := [3; 230; 0; 31; 255; 255; 255; 240].

(** A Huffman stream with 8-bit symbols, [byteLength = 3], the symbols 65
    and 66 with the codewords [0] and [1], and the data [0 1 0]. *)
Definition aba_stream : list Z := [6; 226; 1; 32; 161; 8].

(** The state [DecompressHuffmanStart] builds from [aba_stream]. *)
Definition aba_state : HuffmanState_t :=
  HuffmanState.mk (mkBitstream 43 aba_stream) 23 3 8 1 2 2.

(** The state [DecompressHuffmanStart] builds from [wide_symbol_stream]. *)
Definition wide_symbol_state : HuffmanState_t :=
  HuffmanState.mk (mkBitstream 61 wide_symbol_stream) 27 1 32 1 2 1.

(** The LZ77 copy as the specification words it: for [i = 0 ... length-1],
    copy [dest[(byte_index + delta) mod dest_length]] to
    [dest[byte_index mod dest_length]], where [byte_index] is the entry value
    plus [i]. *)
Fixpoint LZ77_copy_spec (i : Z) (n : nat) (byte_index delta dest_length : Z)
    (dest : list Z) : result (list Z) :=
  match n with
  | O => Ok dest
  | S n =>
      let at_i := wrap32 (byte_index + i) in
      let* source_position := modu (wrap32 (at_i + delta)) dest_length in
      let* target_position := modu at_i dest_length in
      let* byte := load dest source_position in
      let* dest := store dest target_position byte in
      LZ77_copy_spec (i + 1) n byte_index delta dest_length dest
  end.

(** One block step of LZ77 as the specification words it. *)
Definition DecompressLZ77Block_spec (state : LZ77State_t) : result (Z * LZ77State_t) :=
  let byte_index := LZ77State.byteIndex state in
  let dest_length := LZ77State.destLength state in
  if LZ77State.byteLength state <=? byte_index then
    (* cursor exhausted *)
    Ok (CL_COMPRESSOR_END_TOKEN, state)
  else
    let* '(decision, cursor) := ReadBitstream (LZ77State.bitstream state) 1 in
    if decision =? 0 then
      let* '(literal, cursor) :=
        ReadBitstream cursor (LZ77State.actualBitsPerSymbol state) in
      let* target_position := modu byte_index dest_length in
      let* dest := store (LZ77State.dest state) target_position literal in
      Ok (1, LZ77State.set_byteIndex (wrap32 (byte_index + 1))
               (LZ77State.set_dest dest (LZ77State.set_bitstream cursor state)))
    else
      let* '(token, cursor) :=
        ReadBitstream cursor (LZ77State.actualBitsPerToken state) in
      let* quotient := divu token (wrap32 (LZ77State.actualMaxDistance state + 1)) in
      let length := wrap32 (quotient + LZ77State.actualMinLength state) in
      let* distance := modu token (wrap32 (LZ77State.actualMaxDistance state + 1)) in
      let delta := wrap32 (dest_length - distance - 1) in
      let* dest :=
        LZ77_copy_spec 0 (Z.to_nat length) byte_index delta dest_length
          (LZ77State.dest state) in
      Ok (length, LZ77State.set_byteIndex (wrap32 (byte_index + length))
                    (LZ77State.set_dest dest (LZ77State.set_bitstream cursor state))).

(** An LZ77 state about to copy: the stream holds the decision bit 1 and the
    8-bit token 5; with [actualMaxDistance = 3] and [actualMinLength = 2] the
    token splits into length 3 and distance 1 (the literals a, b are in
    place, two bytes decoded). *)
Definition lz77_run_state : LZ77State_t :=
  LZ77State.mk (mkBitstream 0 [0x82; 0x80]) 2 10 [97; 98; 0; 0; 0; 0; 0; 0] 8
    100 3 2 8 8.

(** An LZCL state with the buffer, the index and the length of
    [lz77_run_state]. *)
Definition lzcl_run_state : LZCLState_t :=
  LZCLState.set_byteIndex 2
    (LZCLState.set_byteLength 10
       (LZCLState.set_destLength 8
          (LZCLState.set_dest [97; 98; 0; 0; 0; 0; 0; 0] LZCLState.zero))).

(** The invariant of the range coder: [total > 0], [low], [high] and
    [buffer] are 31-bit values with [low < high] and [low <= buffer <= high],
    and the range is wider than a quarter. *)
Definition Arithmetic_invariant (state : ArithmeticState_t) : Prop :=
  0 < ArithmeticState.total state
  /\ 0 <= ArithmeticState.lowValue state
  /\ ArithmeticState.highValue state < range100Percent
  /\ ArithmeticState.lowValue state < ArithmeticState.highValue state
  /\ ArithmeticState.lowValue state <= ArithmeticState.buffer state
     <= ArithmeticState.highValue state
  /\ range25Percent
     < ArithmeticState.highValue state - ArithmeticState.lowValue state + 1.

(** The stream is well formed at [state]: the table lookup for the current
    cumulative count returns, the table is not empty, and the count reached
    at the symbol found does not exceed [total]. *)
Definition Arithmetic_lookup_within_total (fuel : nat) (state : ArithmeticState_t) : Prop :=
  exists step cumCount symbol lowCount highCount state1,
    DecompressArithmeticSymbol_cumCount state = Ok (step, cumCount)
    /\ LookupArithmeticLowMemoryCount fuel state cumCount
       = Ok (symbol, lowCount, highCount, state1)
    /\ 0 < highCount <= ArithmeticState.total state.

(** The values kept in order by the scaling loops. *)
Definition Arithmetic_ordered (state : ArithmeticState_t) : Prop :=
  0 <= ArithmeticState.lowValue state
  /\ ArithmeticState.lowValue state <= ArithmeticState.buffer state
     <= ArithmeticState.highValue state
  /\ ArithmeticState.highValue state < range100Percent.

(** [n] successive calls of [DecompressArithmeticSymbol] on the same state,
    with the symbols they return. *)
Fixpoint DecompressArithmeticSymbol_calls (fuel : nat) (n : nat)
    (state : ArithmeticState_t) : result (list Z * ArithmeticState_t) :=
  match n with
  | O => Ok ([], state)
  | S n =>
      let* '(symbol, state) := DecompressArithmeticSymbol fuel state in
      let* '(symbols, state) := DecompressArithmeticSymbol_calls fuel n state in
      Ok (symbol :: symbols, state)
  end.

(** The part of the compressed region that is still to be read lies inside
    the source, with room for [k] more calls of [ReadArithmeticBistream]
    before the counter [bitsRead] wraps: the bits of the region that
    [bitsRead] has not counted yet fit between the cursor and the end of the
    array, and the array is one the 32-bit cursor can address. *)
Definition Arithmetic_region_within (k : Z) (state : ArithmeticState_t) : Prop :=
  let bs := ArithmeticState.bitstream state in
  0 <= position bs
  /\ 0 <= ArithmeticState.bitsRead state
  /\ position bs + (ArithmeticState.bitLength state - ArithmeticState.bitsRead state)
     <= 8 * Z.of_nat (length (data bs))
  /\ 8 * Z.of_nat (length (data bs)) < 2 ^ 32
  /\ ArithmeticState.bitsRead state + k < 2 ^ 32.

(** The same with room for the reads of one call of
    [DecompressArithmeticSymbol]: at most 32 for each scaling loop. *)
Definition Arithmetic_region_in_source (state : ArithmeticState_t) : Prop :=
  Arithmetic_region_within 64 state.

(** An arithmetic stream.  In bit order: [total = 4] as [0 000100];
    [bitLength = 71] as [0 01000111]; [symbolMin = 65] as [1 000001 0 000001];
    the maximum symbol 66 as [1 000010 0 000001]; the table length 19 as
    [0 010011]; the table: [length = 2] as [0 000010], [b = 2] as
    [0 000010], the count 3 as [11], the decision [0] and the count 1 as
    [01]; then the compressed bits [0xB4 0x5A] and padding. *)
Definition arithmetic_stream : list Z :=
  [8; 71; 130; 6; 16; 18; 96; 129; 102; 209; 104; 0; 0; 0].

(** The state [DecompressArithmeticStart] builds from [arithmetic_stream]. *)
Definition arithmetic_start_state : ArithmeticState_t :=
  ArithmeticState.mk (mkBitstream 86 arithmetic_stream) 0 0x7FFFFFFF 4 0 65 51
    0x5A2D0000 71 85.

(** A longer arithmetic stream: [arithmetic_stream] with [bitLength = 110]
    as [0 01101110] and the compressed bits [0110000], 24 bits [0], and
    [0xB4 0x5A 0xCA], which decode to 65, 65, 65, 66. *)
Definition arithmetic_long_stream : list Z :=
  [8; 110; 130; 6; 16; 18; 96; 129; 101; 128; 0; 0; 5; 162; 214; 80].

(** The state [DecompressArithmeticStart] builds from
    [arithmetic_long_stream]. *)
Definition arithmetic_long_start_state : ArithmeticState_t :=
  ArithmeticState.mk (mkBitstream 101 arithmetic_long_stream) 0 0x7FFFFFFF 4 0 65 51
    0x30000000 110 85.

(** The state three symbols later: the range is [[0, 0x6BFFFFFF]], and the
    symbol 66 that comes next narrows it to [[0x51000000, 0x6BFFFFFF]],
    which lies above the half and is scaled back by one trip of the e1/e2
    loop and one trip of the e3 loop. *)
Definition arithmetic_scaling_state : ArithmeticState_t :=
  ArithmeticState.mk (mkBitstream 102 arithmetic_long_stream) 0 0x6BFFFFFF 4 0 65 51
    0x60000001 110 86.

(** An LZCL stream in token mode, for the output "ababa".  In bit order:
    [byteLength = 5] as [0 000101]; [actualMaxDistance = 3] as
    [0 0000000011]; [actualMinLength = 2] as [0 10]; the decision mode bit
    [0]; the decision codec: type [00] (Fixed), bit length 7 as [0 000111],
    one bit per symbol as [0 000], and the decisions [0 0 1]; the literal
    codec: type [00], bit length 20 as [0 010100], eight bits per symbol as
    [0 111], and the literals 97 and 98; at bit 67 the token mode bit [0];
    the token codec: type [00], bit length 12 as [0 001100], eight bits per
    symbol as [0 111], and the token 5, which stands for length
    [5 / (3 + 1) + 2 = 3] and distance [5 mod (3 + 1) = 1]. *)
Definition token_mode_stream : list Z :=
  [10; 0; 208; 14; 4; 40; 236; 44; 64; 99; 130; 128].

(** [x] has no bit above [k] and its [m] bits from [k] downwards are set. *)
Definition top_run (m k x : Z) : Prop :=
  (forall i, k < i -> Z.testbit x i = false)
  /\ (forall i, 0 <= i -> k - m < i <= k -> Z.testbit x i = true).

(** An LZ77 stream: the header announces 5 bytes, 8 bits per symbol, 4 bits
    per token, a minimum length of 2, a maximum token of 15 and a maximum
    distance of 1; then come the literals a and b and the token 3, a run of
    length 3 at distance 1. *)
Definition lz77_stream : list Z := [10; 225; 160; 0; 0; 60; 0; 9; 132; 197; 48].

(** An LZCL state that decodes decisions as runs, with two decisions left
    in a run of 1. *)
Definition lzcl_runs_state : LZCLState_t :=
  LZCLState.set_runsLeft 2
    (LZCLState.set_curRun 1 (LZCLState.set_useDecisionRuns 1 lzcl_run_state)).

(** The value of a list of base [2^k] digits, least significant first. *)
Definition digits_value (k : Z) (ds : list Z) : Z :=
  foldr (fun d acc => d + 2 ^ k * acc) 0 ds.

(** The lowest [n] bits of [v], least significant first. *)
Definition bits_of (n : nat) (v : Z) : list Z :=
  (fun i => Z.b2z (Z.testbit v (Z.of_nat i))) <$> seq 0 n.

(** The number of 1 bits among the lowest 32 bits of [v]. *)
Definition bits_set (v : Z) : Z := foldr Z.add 0 (bits_of 32 v).

(** The sums of the digits taken two by two. *)
Fixpoint pair_sums (ds : list Z) : list Z :=
  match ds with
  | a :: b :: ds => (a + b) :: pair_sums ds
  | _ => []
  end.

(** * Properties *)

(** ** Machine arithmetic *)

Lemma wrap32_range x : 0 <= wrap32 x < 2 ^ 32.
Proof. unfold wrap32. apply Z.mod_pos_bound. lia. Qed.

Lemma wrap32_small x : 0 <= x < 2 ^ 32 -> wrap32 x = x.
Proof. intros H. unfold wrap32. apply Z.mod_small. exact H. Qed.

Lemma wrap32_add_l x y : wrap32 (wrap32 x + y) = wrap32 (x + y).
Proof. unfold wrap32. apply Zplus_mod_idemp_l. Qed.

Lemma wrap32_le x : 0 <= x -> wrap32 x <= x.
Proof. intros H. unfold wrap32. apply Z.mod_le; lia. Qed.

Lemma bind_Ok {A B} (m : result A) (k : A -> result B) b :
  bind m k = Ok b -> exists a, m = Ok a /\ k a = Ok b.
Proof. destruct m as [a|f]; simpl; intros H; [eauto | discriminate]. Qed.

(** ** Bitstream *)

Lemma ReadBitstream_bit_Ok bs b bs' :
  ReadBitstream_bit bs = Ok (b, bs') ->
  (b = 0 \/ b = 1) /\ data bs' = data bs /\ position bs' = wrap32 (position bs + 1).
Proof.
  unfold ReadBitstream_bit. destruct (data bs !! _) as [b1|]; [|discriminate].
  intros [= <- <-]. simpl. split; [|split; reflexivity].
  change 1 with (Z.ones 1) at 1 2. rewrite Z.land_ones by lia.
  change (2 ^ 1) with 2. pose proof (Z.mod_pos_bound (Z.shiftr b1 (7 - Z.land (position bs) 7)) 2).
  lia.
Qed.

Lemma ReadBitstream_bit_at p d :
  0 <= p -> p < 8 * Z.of_nat (length d) ->
  ReadBitstream_bit (mkBitstream p d) = Ok (bit_at d p, mkBitstream (wrap32 (p + 1)) d).
Proof.
  intros Hp Hlen. unfold ReadBitstream_bit, bit_at. simpl.
  destruct (d !! Z.to_nat (p / 8)) as [b1|] eqn:E.
  - do 2 f_equal.
    change 7 with (Z.ones 3) at 2. rewrite Z.land_ones by lia. change (2 ^ 3) with 8.
    change 1 with (Z.ones 1). rewrite Z.land_ones by lia. change (2 ^ 1) with 2.
    rewrite <- Z.bit0_mod. f_equal. rewrite Z.shiftr_spec by lia. f_equal.
  - apply lookup_ge_None in E.
    assert (p / 8 < Z.of_nat (length d)) by (apply Z.div_lt_upper_bound; lia).
    assert (0 <= p / 8) by (apply Z.div_pos; lia). lia.
Qed.

Lemma ReadBitstream_loop_data n : forall v bs v' bs',
  ReadBitstream_loop n v bs = Ok (v', bs') ->
  data bs' = data bs /\ position bs' = Nat.iter n (fun q => wrap32 (q + 1)) (position bs).
Proof.
  induction n as [|n IH]; simpl; intros v bs v' bs' H.
  - injection H as <- <-. auto.
  - apply bind_Ok in H as [[b bs1] [Hb H]].
    apply ReadBitstream_bit_Ok in Hb as (_ & Hd & Hp).
    apply IH in H as [Hd' Hp']. split; [congruence|].
    rewrite Hp', Hp. clear. induction n; simpl; congruence.
Qed.

Lemma iter_wrap32 n p : 0 <= p < 2 ^ 32 ->
  Nat.iter n (fun q => wrap32 (q + 1)) p = wrap32 (p + Z.of_nat n).
Proof.
  intros Hp. induction n as [|n IH].
  - simpl. rewrite Z.add_0_r, wrap32_small; auto.
  - simpl Nat.iter. rewrite IH, wrap32_add_l. f_equal. lia.
Qed.

(** A read that stays inside the array succeeds and moves the cursor. *)
Lemma ReadBitstream_loop_in_bounds n : forall v p d,
  0 <= p < 2 ^ 32 -> p + Z.of_nat n <= 8 * Z.of_nat (length d) ->
  exists v', ReadBitstream_loop n v (mkBitstream p d)
             = Ok (v', mkBitstream (wrap32 (p + Z.of_nat n)) d).
Proof.
  induction n as [|n IH]; intros v p d Hp Hlen.
  - exists v. simpl. rewrite Z.add_0_r, wrap32_small; auto.
  - simpl ReadBitstream_loop. rewrite ReadBitstream_bit_at by lia. simpl.
    destruct (IH (Z.lor (wrap32 (Z.shiftl v 1)) (bit_at d p)) (wrap32 (p + 1)) d)
      as [v' Hv'].
    + apply wrap32_range.
    + pose proof (wrap32_le (p + 1)). lia.
    + exists v'. rewrite Hv'. do 3 f_equal. rewrite wrap32_add_l. f_equal. lia.
Qed.

Lemma bit_at_range d q : 0 <= bit_at d q <= 1.
Proof. unfold bit_at. destruct (d !! _); [destruct (Z.testbit _ _); simpl|]; lia. Qed.

Lemma msb_first_value_range d k : forall p,
  0 <= msb_first_value d p k < 2 ^ Z.of_nat k.
Proof.
  induction k as [|k IH]; intros p; simpl msb_first_value.
  - simpl. lia.
  - pose proof (IH (p + 1)). pose proof (bit_at_range d p).
    rewrite Nat2Z.inj_succ, Z.pow_succ_r by lia. nia.
Qed.

Lemma lor_double_bit v b : 0 <= v -> 0 <= b <= 1 -> Z.lor (2 * v) b = 2 * v + b.
Proof.
  intros Hv Hb. assert (b = 0 \/ b = 1) as [-> | ->] by lia.
  - rewrite Z.lor_0_r. lia.
  - symmetry. apply Z.add_nocarry_lor.
    change 1 with (Z.ones 1). rewrite Z.land_ones by lia.
    change (2 ^ 1) with 2. rewrite Z.mul_comm. apply Z.mod_mul. lia.
Qed.

Lemma ReadBitstream_loop_value n : forall v p d,
  (n <= 32)%nat -> 0 <= v < 2 ^ (32 - Z.of_nat n) ->
  0 <= p -> p + Z.of_nat n <= 8 * Z.of_nat (length d) -> p + Z.of_nat n < 2 ^ 32 ->
  ReadBitstream_loop n v (mkBitstream p d)
  = Ok (v * 2 ^ Z.of_nat n + msb_first_value d p n, mkBitstream (p + Z.of_nat n) d).
Proof.
  induction n as [|n IH]; intros v p d Hn Hv Hp Hlen Hpos.
  - simpl. rewrite Z.mul_1_r, !Z.add_0_r. reflexivity.
  - simpl ReadBitstream_loop. rewrite ReadBitstream_bit_at by lia. simpl bind.
    assert (Hpow : 2 ^ (32 - Z.of_nat n) = 2 * 2 ^ (32 - Z.of_nat (S n))).
    { rewrite <- Z.pow_succ_r by lia. f_equal. lia. }
    assert (Hle : 2 ^ (32 - Z.of_nat n) <= 2 ^ 32) by (apply Z.pow_le_mono_r; lia).
    pose proof (bit_at_range d p) as Hb.
    rewrite Z.shiftl_mul_pow2 by lia. change (2 ^ 1) with 2.
    rewrite (wrap32_small (v * 2)) by lia.
    rewrite (Z.mul_comm v 2), lor_double_bit by lia.
    rewrite (wrap32_small (p + 1)) by lia.
    rewrite IH by lia.
    simpl msb_first_value.
    rewrite (Nat2Z.inj_succ n), Z.pow_succ_r by lia.
    do 2 f_equal; [ring | f_equal; lia].
Qed.

(** C4. For a bitstream over the byte array [d], a start position [p] and a
    bit count [k <= 32] with the read inside the array (and inside the range
    of the 32-bit cursor), [ReadBitstream] returns
    [b0 * 2^(k-1) + ... + b(k-1)], where [bi] is bit [7 - (p+i) mod 8] of
    byte [d[(p+i) / 8]], and leaves the cursor at [p + k]; reading 8 bits at
    position 0 of a stream whose first byte is [0xA5] returns [0xA5]. *)
Theorem ReadBitstream_msb_first (d : list Z) (p k : Z) :
  0 <= p -> 0 <= k <= 32 ->
  p + k <= 8 * Z.of_nat (length d) -> p + k < 2 ^ 32 ->
  ReadBitstream (mkBitstream p d) k
  = Ok (msb_first_value d p (Z.to_nat k), mkBitstream (p + k) d)
  /\ (forall rest, ReadBitstream (InitializeBitstream (0xA5 :: rest)) 8
                   = Ok (0xA5, mkBitstream 8 (0xA5 :: rest))).
Proof.
  intros Hp Hk Hlen Hpos. split.
  - unfold ReadBitstream.
    assert (Hv : 0 <= 0 < 2 ^ (32 - Z.of_nat (Z.to_nat k))).
    { split; [lia|]. apply Z.pow_pos_nonneg; lia. }
    rewrite ReadBitstream_loop_value by (first [exact Hv | lia]).
    rewrite Z2Nat.id by lia. reflexivity.
  - intros rest. reflexivity.
Qed.

Lemma ReadBitstream_msb_first_witness :
  ReadBitstream (mkBitstream 4 [0x12; 0x34; 0x56]) 12
  = Ok (0x234, mkBitstream 16 [0x12; 0x34; 0x56]).
Proof.
  refine (proj1 (ReadBitstream_msb_first [0x12; 0x34; 0x56] 4 12 _ _ _ _));
    simpl; lia.
Defined.

Lemma ReadBitstream_data bs k v bs' :
  ReadBitstream bs k = Ok (v, bs') -> data bs' = data bs.
Proof. intros H. apply ReadBitstream_loop_data in H. tauto. Qed.

Lemma ReadBitstream_in_bounds p d k v0 :
  0 <= p < 2 ^ 32 -> 0 <= k -> p + k <= 8 * Z.of_nat (length d) ->
  exists v, ReadBitstream_loop (Z.to_nat k) v0 (mkBitstream p d)
            = Ok (v, mkBitstream (wrap32 (p + k)) d).
Proof.
  intros Hp Hk Hlen.
  destruct (ReadBitstream_loop_in_bounds (Z.to_nat k) v0 p d) as [v Hv]; [lia..|].
  rewrite Z2Nat.id in Hv by lia. eauto.
Qed.

(** [ReadFromBitstreamPosition] is [ReadBitstream] run on a cursor placed at
    [pos], with the bitstream handed back untouched. *)
Lemma ReadFromBitstreamPosition_eq bs pos k :
  ReadFromBitstreamPosition bs pos k
  = match ReadBitstream (mkBitstream pos (data bs)) k with
    | Ok (v, bs') => Ok (v, position bs', bs)
    | Err f => Err f
    end.
Proof.
  unfold ReadFromBitstreamPosition.
  destruct (ReadBitstream (mkBitstream pos (data bs)) k) as [[v bs']|f] eqn:E;
    simpl; [|reflexivity].
  apply ReadBitstream_data in E. simpl in E. rewrite E. destruct bs; reflexivity.
Qed.

(** C9. For a position [pos] from which [k] bits lie inside the array,
    [ReadFromBitstreamPosition] returns the value [ReadBitstream] returns
    with the cursor standing at [pos], writes [pos + k] (as a [uint32_t])
    back into the position argument, and returns the bitstream unchanged:
    same internal position, same data, wherever the cursor stands. *)
Theorem ReadFromBitstreamPosition_frame (bs : Bitstream_t) (pos k : Z) :
  0 <= pos < 2 ^ 32 -> 0 <= k ->
  pos + k <= 8 * Z.of_nat (length (data bs)) ->
  exists v,
    ReadBitstream (mkBitstream pos (data bs)) k
    = Ok (v, mkBitstream (wrap32 (pos + k)) (data bs))
    /\ ReadFromBitstreamPosition bs pos k = Ok (v, wrap32 (pos + k), bs)
    /\ (pos + k < 2 ^ 32 -> wrap32 (pos + k) = pos + k).
Proof.
  intros Hpos Hk Hlen.
  destruct (ReadBitstream_in_bounds pos (data bs) k 0 Hpos Hk Hlen) as [v Hv].
  exists v. fold (ReadBitstream (mkBitstream pos (data bs)) k) in Hv.
  split; [exact Hv|]. split.
  - rewrite ReadFromBitstreamPosition_eq, Hv. reflexivity.
  - intros Hlt. apply wrap32_small. lia.
Qed.

Lemma ReadFromBitstreamPosition_frame_witness :
  exists v,
    ReadBitstream (mkBitstream 4 [0x12; 0x34; 0x56]) 12
    = Ok (v, mkBitstream (wrap32 (4 + 12)) [0x12; 0x34; 0x56])
    /\ ReadFromBitstreamPosition (mkBitstream 21 [0x12; 0x34; 0x56]) 4 12
       = Ok (v, wrap32 (4 + 12), mkBitstream 21 [0x12; 0x34; 0x56])
    /\ (4 + 12 < 2 ^ 32 -> wrap32 (4 + 12) = 4 + 12).
Proof.
  refine (ReadFromBitstreamPosition_frame (mkBitstream 21 [0x12; 0x34; 0x56]) 4 12 _ _ _);
    simpl; lia.
Defined.

(** ** Universal coding *)

Lemma wrap32_add x y : wrap32 (wrap32 x + wrap32 y) = wrap32 (x + y).
Proof. unfold wrap32. symmetry. apply Zplus_mod. Qed.

Lemma wrap32_idem x : wrap32 (wrap32 x) = wrap32 x.
Proof. unfold wrap32. apply Zmod_mod. Qed.

Lemma int_add_cases a b :
  int_add a b = Err UndefinedOp
  \/ (int_add a b = Ok (a + b) /\ INT_MIN <= a + b <= INT_MAX).
Proof.
  unfold int_add. cbv zeta.
  destruct ((INT_MIN <=? a + b) && (a + b <=? INT_MAX)) eqn:E; [right | left; reflexivity].
  apply andb_true_iff in E as [E1 E2]. apply Z.leb_le in E1, E2. auto.
Qed.

Lemma Lomont1_nextChunkSize_spec cs dc :
  1 <= cs <= INT_MAX ->
  Lomont1_nextChunkSize cs dc = Err UndefinedOp
  \/ (Lomont1_nextChunkSize cs dc
       = Ok (if dc =? 0 then cs else Z.max 1 (cs + dc))
      /\ 1 <= (if dc =? 0 then cs else Z.max 1 (cs + dc)) <= INT_MAX).
Proof.
  intros Hcs. unfold Lomont1_nextChunkSize, int_add.
  destruct (dc =? 0) eqn:Edc; [right; auto|].
  destruct ((INT_MIN <=? cs + dc) && (cs + dc <=? INT_MAX)) eqn:E; [|left; reflexivity].
  right. simpl. apply andb_true_iff in E as [E1 E2].
  apply Z.leb_le in E1, E2.
  destruct (cs + dc <=? 0) eqn:E0; [apply Z.leb_le in E0 | apply Z.leb_gt in E0].
  - rewrite Z.max_l by lia. unfold INT_MAX. split; [reflexivity | lia].
  - rewrite Z.max_r by lia. split; [reflexivity | lia].
Qed.

Lemma DecodeUniversalLomont1_loop_refines fuel : forall bs v vs shift cs dc,
  v = wrap32 vs -> 1 <= cs <= INT_MAX ->
  DecodeUniversalLomont1_loop fuel bs v shift cs dc = Err UndefinedOp
  \/ DecodeUniversalLomont1_loop fuel bs v shift cs dc
     = (let* '(r, bs') := Lomont1_spec_loop fuel bs vs shift cs dc in
        Ok (wrap32 r, bs')).
Proof.
  induction fuel as [|fuel IH]; intros bs v vs shift cs dc Hv Hcs; [right; reflexivity|].
  simpl DecodeUniversalLomont1_loop. simpl Lomont1_spec_loop.
  destruct (ReadBitstream bs 1) as [[b bs1]|f] eqn:Eb; simpl bind; [|right; reflexivity].
  assert (Hw : wrap32 cs = cs).
  { apply wrap32_small. unfold INT_MAX in Hcs. lia. }
  rewrite Hw.
  destruct (ReadBitstream bs1 cs) as [[chunk bs2]|f] eqn:Ec; simpl bind;
    [|right; reflexivity].
  unfold shl32.
  destruct ((0 <=? shift) && (shift <? 32)) eqn:Es; simpl bind; [|left; reflexivity].
  apply andb_true_iff in Es as [Es1 Es2]. apply Z.leb_le in Es1. apply Z.ltb_lt in Es2.
  destruct (int_add_cases shift cs) as [-> | [-> _]]; simpl bind; [left; reflexivity|].
  destruct (Lomont1_nextChunkSize_spec cs dc Hcs) as [-> | [-> Hcs']]; simpl bind;
    [left; reflexivity|].
  assert (Hval : wrap32 (v + wrap32 (Z.shiftl chunk shift))
                 = wrap32 (vs + chunk * 2 ^ shift)).
  { rewrite Hv, wrap32_add, Z.shiftl_mul_pow2 by lia. reflexivity. }
  destruct (b =? 0).
  - right. simpl. rewrite Hval. reflexivity.
  - apply IH; [exact Hval | exact Hcs'].
Qed.

Lemma Lomont1_chunkSizes_clamp n : forall cs dc,
  1 <= cs <= INT_MAX -> INT_MIN < dc < 0 ->
  Lomont1_chunkSizes n cs dc = Ok (Z.max 1 (cs + Z.of_nat n * dc)).
Proof.
  induction n as [|n IH]; intros cs dc Hcs Hdc.
  - simpl. rewrite Z.max_r by lia. f_equal. lia.
  - simpl Lomont1_chunkSizes. unfold Lomont1_nextChunkSize, int_add.
    assert (Edc : (dc =? 0) = false) by (apply Z.eqb_neq; lia). rewrite Edc.
    assert (Ei : (INT_MIN <=? cs + dc) && (cs + dc <=? INT_MAX) = true).
    { apply andb_true_iff. split; apply Z.leb_le; unfold INT_MIN, INT_MAX in *; lia. }
    rewrite Ei. simpl bind.
    destruct (cs + dc <=? 0) eqn:E0; [apply Z.leb_le in E0 | apply Z.leb_gt in E0].
    + rewrite IH by (unfold INT_MAX; lia). f_equal. nia.
    + rewrite IH by lia. f_equal. lia.
Qed.

(** Chunks of 4, 3, 2, 1 and 1 bits: bits [1 1010 1 011 1 10 1 1 0 1]. *)
Example DecodeUniversalLomont1_clamped :
  DecodeUniversalLomont1 8 (InitializeBitstream [0xD5; 0xED]) 4 (-1)
  = Ok (1850, mkBitstream 16 [0xD5; 0xED]).
Proof. reflexivity. Qed.

Lemma DecodeUniversalLomont1_loop_in_range fuel : forall bs v vs shift cs dc,
  v = wrap32 vs -> 1 <= cs <= INT_MAX -> 0 <= shift ->
  Lomont1_spec_in_range fuel bs shift cs dc = true ->
  DecodeUniversalLomont1_loop fuel bs v shift cs dc
  = (let* '(r, bs') := Lomont1_spec_loop fuel bs vs shift cs dc in
     Ok (wrap32 r, bs')).
Proof.
  induction fuel as [|fuel IH]; intros bs v vs shift cs dc Hv Hcs Hs Hr; [reflexivity|].
  cbn [DecodeUniversalLomont1_loop Lomont1_spec_loop Lomont1_spec_in_range] in *.
  destruct (ReadBitstream bs 1) as [[b bs1]|f]; cbn [bind]; [|reflexivity].
  assert (Hw : wrap32 cs = cs).
  { apply wrap32_small. unfold INT_MAX in Hcs. lia. }
  rewrite Hw.
  destruct (ReadBitstream bs1 cs) as [[chunk bs2]|f]; cbn [bind]; [|reflexivity].
  apply andb_true_iff in Hr as [Hr Hrec]. apply andb_true_iff in Hr as [Hr Hcsdc].
  apply andb_true_iff in Hr as [Hshift Hadd].
  apply Z.ltb_lt in Hshift. apply Z.leb_le in Hadd.
  unfold shl32.
  assert (E1 : (0 <=? shift) && (shift <? 32) = true).
  { apply andb_true_iff. split; [apply Z.leb_le | apply Z.ltb_lt]; lia. }
  rewrite E1. cbn [bind].
  unfold int_add at 1. cbv zeta.
  assert (E2 : (INT_MIN <=? shift + cs) && (shift + cs <=? INT_MAX) = true).
  { apply andb_true_iff. split; apply Z.leb_le; unfold INT_MIN in *; lia. }
  rewrite E2. cbn [bind].
  assert (Hval : wrap32 (v + wrap32 (Z.shiftl chunk shift))
                 = wrap32 (vs + chunk * 2 ^ shift)).
  { rewrite Hv, wrap32_add, Z.shiftl_mul_pow2 by lia. reflexivity. }
  assert (Hnext : Lomont1_nextChunkSize cs dc
                  = Ok (if dc =? 0 then cs else Z.max 1 (cs + dc))
                  /\ 1 <= (if dc =? 0 then cs else Z.max 1 (cs + dc)) <= INT_MAX).
  { unfold Lomont1_nextChunkSize, int_add. cbv zeta.
    destruct (dc =? 0); [auto|]. cbn [orb] in Hcsdc. rewrite Hcsdc. cbn [bind].
    apply andb_true_iff in Hcsdc as [_ Hhi]. apply Z.leb_le in Hhi.
    destruct (cs + dc <=? 0) eqn:E0; [apply Z.leb_le in E0 | apply Z.leb_gt in E0].
    - rewrite Z.max_l by lia. unfold INT_MAX. split; [reflexivity | lia].
    - rewrite Z.max_r by lia. split; [reflexivity | lia]. }
  destruct Hnext as [-> Hcs']. cbn [bind].
  destruct (b =? 0).
  - rewrite Hval. reflexivity.
  - cbn [orb] in Hrec. apply IH; [exact Hval | exact Hcs' | lia | exact Hrec].
Qed.

Lemma Lomont1_spec_loop_clamped fuel : forall bs v shift n cs dc,
  1 <= cs -> dc < 0 -> 0 <= n ->
  Lomont1_spec_loop fuel bs v shift (Z.max 1 (cs + n * dc)) dc
  = Lomont1_clamped_loop fuel bs v shift n cs dc.
Proof.
  induction fuel as [|fuel IH]; intros bs v shift n cs dc Hcs Hdc Hn; [reflexivity|].
  cbn [Lomont1_spec_loop Lomont1_clamped_loop]. cbv zeta.
  destruct (ReadBitstream bs 1) as [[b bs1]|f]; cbn [bind]; [|reflexivity].
  destruct (ReadBitstream bs1 _) as [[chunk bs2]|f]; cbn [bind]; [|reflexivity].
  destruct (b =? 0); [reflexivity|].
  assert (E : (dc =? 0) = false) by (apply Z.eqb_neq; lia). rewrite E.
  replace (Z.max 1 (Z.max 1 (cs + n * dc) + dc)) with (Z.max 1 (cs + (n + 1) * dc))
    by lia.
  apply IH; lia.
Qed.

(** C3, as amended.  For every bitstream (so every position), every initial
    [chunkSize >= 1] of type [int] and every [deltaChunk], as long as the
    run shifts every chunk by less than 32 bits and keeps [shift] and
    [chunkSize] inside [int] ([Lomont1_spec_in_range]),
    [DecodeUniversalLomont1] returns exactly what the loop of the
    specification returns, the value taken as a [uint32_t], with the cursor
    in the same place (a failed read and an exhausted iteration budget
    included).  With a negative [deltaChunk] such as -1 or -7 it is the
    loop that reads [max(1, chunkSize + n * deltaChunk)] bits on trip [n]:
    a size that is never below 1 and is 1 from trip [chunkSize - 1] on, as
    is the size the update of the code computes. *)
Theorem DecodeUniversalLomont1_refines (fuel : nat) (bs : Bitstream_t) (chunkSize deltaChunk : Z) :
  1 <= chunkSize <= INT_MAX ->
  Lomont1_spec_in_range fuel bs 0 chunkSize deltaChunk = true ->
  DecodeUniversalLomont1 fuel bs chunkSize deltaChunk
  = Lomont1_spec fuel bs chunkSize deltaChunk
  /\ (deltaChunk < 0 ->
      DecodeUniversalLomont1 fuel bs chunkSize deltaChunk
      = (let* '(value, bs') :=
           Lomont1_clamped_loop fuel bs 0 0 0 chunkSize deltaChunk in
         Ok (wrap32 value, bs'))
      /\ forall n, 0 <= n ->
           1 <= Z.max 1 (chunkSize + n * deltaChunk)
           /\ (chunkSize - 1 <= n -> Z.max 1 (chunkSize + n * deltaChunk) = 1))
  /\ (forall n delta, INT_MIN < delta < 0 ->
       exists c, Lomont1_chunkSizes n chunkSize delta = Ok c
                 /\ 1 <= c
                 /\ c = Z.max 1 (chunkSize + Z.of_nat n * delta)
                 /\ (chunkSize - 1 <= Z.of_nat n -> c = 1)).
Proof.
  intros Hcs Hr.
  assert (Heq : DecodeUniversalLomont1 fuel bs chunkSize deltaChunk
                = Lomont1_spec fuel bs chunkSize deltaChunk).
  { unfold DecodeUniversalLomont1, Lomont1_spec.
    apply DecodeUniversalLomont1_loop_in_range; [reflexivity | exact Hcs | lia | exact Hr]. }
  split; [exact Heq|]. split.
  - intros Hd. split.
    + rewrite Heq. unfold Lomont1_spec.
      rewrite <- (Lomont1_spec_loop_clamped fuel bs 0 0 0 chunkSize deltaChunk) by lia.
      replace (Z.max 1 (chunkSize + 0 * deltaChunk)) with chunkSize by lia.
      reflexivity.
    + intros n Hn. split; [lia | nia].
  - intros n delta Hd. exists (Z.max 1 (chunkSize + Z.of_nat n * delta)).
    split; [apply Lomont1_chunkSizes_clamp; assumption|].
    split; [lia|]. split; [reflexivity|]. intros Hn. nia.
Qed.

Lemma DecodeUniversalLomont1_refines_witness :
  DecodeUniversalLomont1 8 (InitializeBitstream [0xD5; 0xED]) 4 (-1)
  = Ok (1850, mkBitstream 16 [0xD5; 0xED])
  /\ Lomont1_spec_in_range 8 (InitializeBitstream [0xD5; 0xED]) 0 4 (-1) = true
  /\ DecodeUniversalLomont1 8 (InitializeBitstream [0xD5; 0xED]) 4 (-1)
     = Lomont1_spec 8 (InitializeBitstream [0xD5; 0xED]) 4 (-1)
  /\ DecodeUniversalLomont1 8 (InitializeBitstream [0xD5; 0xED]) 4 (-1)
     = (let* '(value, bs') :=
          Lomont1_clamped_loop 8 (InitializeBitstream [0xD5; 0xED]) 0 0 0 4 (-1) in
        Ok (wrap32 value, bs'))
  /\ (forall n, 0 <= n ->
        1 <= Z.max 1 (4 + n * -1) /\ (4 - 1 <= n -> Z.max 1 (4 + n * -1) = 1))
  /\ (forall n delta, INT_MIN < delta < 0 ->
       exists c, Lomont1_chunkSizes n 4 delta = Ok c
                 /\ 1 <= c
                 /\ c = Z.max 1 (4 + Z.of_nat n * delta)
                 /\ (4 - 1 <= Z.of_nat n -> c = 1)).
Proof.
  split; [reflexivity|]. split; [reflexivity|].
  destruct (DecodeUniversalLomont1_refines 8 (InitializeBitstream [0xD5; 0xED]) 4 (-1))
    as (H1 & H2 & H3).
  - unfold INT_MAX. lia.
  - reflexivity.
  - destruct (H2 ltac:(lia)) as [H2a H2b]. auto.
Defined.

(** C3 as stated fails on a run that goes past 32 bits.  On
    [lomont1_overlong_stream] the loop of the specification shifts the
    seventh chunk by 36 and returns [0x41041041] (the chunk falls outside
    the 32 bits), while the code evaluates [chunk << 36] on a [uint32_t],
    which C leaves undefined: it does not implement the loop there. *)
Lemma DecodeUniversalLomont1_refines_counterexample :
  Lomont1_spec 8 (InitializeBitstream lomont1_overlong_stream) 6 0
  = Ok (0x41041041, mkBitstream 49 lomont1_overlong_stream)
  /\ Lomont1_spec_in_range 8 (InitializeBitstream lomont1_overlong_stream) 0 6 0 = false
  /\ DecodeUniversalLomont1 8 (InitializeBitstream lomont1_overlong_stream) 6 0
     <> Lomont1_spec 8 (InitializeBitstream lomont1_overlong_stream) 6 0.
Proof.
  split; [reflexivity|]. split; [reflexivity|].
  intros H. vm_compute in H. discriminate H.
Qed.

(** ** Arithmetic coding: reading the compressed region *)

(** What [ReadArithmeticBistream] does: the counter is incremented first and
    the incremented value is compared with [bitLength]. *)
Lemma ReadArithmeticBistream_cases (state : ArithmeticState_t) (bitCount : Z) :
  let state1 :=
    ArithmeticState.set_bitsRead (wrap32 (ArithmeticState.bitsRead state + 1)) state in
  ReadArithmeticBistream state bitCount
  = if wrap32 (ArithmeticState.bitsRead state + 1) <? ArithmeticState.bitLength state
    then
      let* '(value, bitstream) :=
        ReadBitstream (ArithmeticState.bitstream state) bitCount in
      Ok (value, ArithmeticState.set_bitstream bitstream state1)
    else Ok (0, state1).
Proof. reflexivity. Qed.

(** C1. [ReadArithmeticBistream] with [bitCount = 1] does not deliver the
    last bit of the compressed region.  With [bitsRead = 0] and
    [bitLength = 1] the next stream bit is 1, yet the call returns 0 and
    leaves the cursor where it was; filling the 31-bit buffer from a region
    of three 1 bits delivers only two of them.  [bitsRead] is incremented by
    one in both cases. *)
Theorem ReadArithmeticBistream_last_bit_not_delivered :
  ArithmeticState.bitsRead one_bit_region < ArithmeticState.bitLength one_bit_region
  /\ ReadBitstream (ArithmeticState.bitstream one_bit_region) 1
     = Ok (1, mkBitstream 1 [0x80])
  /\ ReadArithmeticBistream one_bit_region 1
     = Ok (0, ArithmeticState.set_bitsRead 1 one_bit_region)
  /\ (let* state := ReadArithmeticHeaderNoLength_buffer 31 three_bit_region in
      Ok (ArithmeticState.buffer state, position (ArithmeticState.bitstream state),
          ArithmeticState.bitsRead state))
     = Ok (0x60000000, 2, 31).
Proof. repeat split. Qed.

(** ** Huffman coding *)

Lemma ReadBitstream_loop_bound n : forall v bs v' bs' m,
  ReadBitstream_loop n v bs = Ok (v', bs') ->
  0 <= m -> m + Z.of_nat n <= 32 -> 0 <= v < 2 ^ m ->
  0 <= v' < 2 ^ (m + Z.of_nat n).
Proof.
  induction n as [|n IH]; intros v bs v' bs' m H Hm Hn Hv.
  - simpl in H. injection H as <- <-. rewrite Z.add_0_r. exact Hv.
  - simpl in H. apply bind_Ok in H as [[b bs1] [Hb H]].
    apply ReadBitstream_bit_Ok in Hb as (Hb & _ & _).
    assert (Hle : 2 ^ m <= 2 ^ 31) by (apply Z.pow_le_mono_r; lia).
    rewrite Z.shiftl_mul_pow2 in H by lia. change (2 ^ 1) with 2 in H.
    rewrite (wrap32_small (v * 2)) in H by lia.
    rewrite (Z.mul_comm v 2), lor_double_bit in H by lia.
    apply (IH _ _ _ _ (m + 1)) in H; try lia.
    + replace (m + Z.of_nat (S n)) with (m + 1 + Z.of_nat n) by lia. exact H.
    + rewrite Z.pow_add_r by lia. change (2 ^ 1) with 2. lia.
Qed.

Lemma ReadBitstream_bound bs k v bs' :
  ReadBitstream bs k = Ok (v, bs') -> 0 <= k <= 32 -> 0 <= v < 2 ^ k.
Proof.
  intros H Hk. unfold ReadBitstream in H.
  apply (ReadBitstream_loop_bound _ _ _ _ _ 0) in H; try lia.
  rewrite Z2Nat.id in H by lia. exact H.
Qed.

Lemma ReadFromBitstreamPosition_Ok bs pos k v pos' bs' :
  ReadFromBitstreamPosition bs pos k = Ok (v, pos', bs') ->
  bs' = bs /\ exists bs1, ReadBitstream (mkBitstream pos (data bs)) k = Ok (v, bs1).
Proof.
  rewrite ReadFromBitstreamPosition_eq.
  destruct (ReadBitstream _ k) as [[v1 bs1]|f]; [|discriminate].
  intros [= <- <- <-]. eauto.
Qed.

Lemma DecompressHuffmanSymbol_walk_Ok fuel : forall state acc first idx symbol state',
  DecompressHuffmanSymbol_walk fuel state acc first idx = Ok (symbol, state') ->
  0 <= HuffmanState.bitsPerSymbol state <= 32 ->
  0 <= symbol < 2 ^ HuffmanState.bitsPerSymbol state
  /\ HuffmanState.byteLength state' = HuffmanState.byteLength state
  /\ HuffmanState.bitsPerSymbol state' = HuffmanState.bitsPerSymbol state.
Proof.
  induction fuel as [|fuel IH]; intros state acc first idx symbol state' H Hbits;
    [discriminate|].
  simpl in H. apply bind_Ok in H as [[[n idx1] bs1] [Hn H]].
  destruct ((0 <? n) && (wrap32 (acc - first) <? n)).
  - apply bind_Ok in H as [[[sym idx2] bs2] [Hs H]]. injection H as <- <-.
    apply ReadFromBitstreamPosition_Ok in Hs as [_ [bs3 Hs]]. simpl in Hs.
    apply ReadBitstream_bound in Hs; [|exact Hbits]. auto.
  - apply bind_Ok in H as [[b bs2] [Hb H]].
    apply IH in H; [|exact Hbits]. exact H.
Qed.

Lemma DecompressHuffmanSymbol_end fuel state :
  HuffmanState.byteLength state = 0 ->
  DecompressHuffmanSymbol fuel state = Ok (CL_COMPRESSOR_END_TOKEN, state).
Proof. intros H. unfold DecompressHuffmanSymbol. rewrite H. reflexivity. Qed.

Lemma DecompressHuffmanSymbol_Ok fuel state symbol state' :
  DecompressHuffmanSymbol fuel state = Ok (symbol, state') ->
  0 <= HuffmanState.bitsPerSymbol state < 32 ->
  0 <= HuffmanState.byteLength state < 2 ^ 32 ->
  HuffmanState.bitsPerSymbol state' = HuffmanState.bitsPerSymbol state
  /\ (symbol = CL_COMPRESSOR_END_TOKEN <-> HuffmanState.byteLength state = 0)
  /\ HuffmanState.byteLength state'
     = (if HuffmanState.byteLength state =? 0 then 0
        else if HuffmanState.byteLength state =? 0xFFFFFFFF then 0xFFFFFFFF
        else HuffmanState.byteLength state - 1).
Proof.
  intros H Hbits Hlen. unfold DecompressHuffmanSymbol in H.
  destruct (HuffmanState.byteLength state =? 0) eqn:E0.
  - injection H as <- <-. apply Z.eqb_eq in E0. rewrite E0. tauto.
  - apply Z.eqb_neq in E0.
    set (state1 := if negb (HuffmanState.byteLength state =? 0xFFFFFFFF)
                   then HuffmanState.set_byteLength
                          (wrap32 (HuffmanState.byteLength state - 1)) state
                   else state) in H.
    assert (Hb1 : HuffmanState.bitsPerSymbol state1 = HuffmanState.bitsPerSymbol state)
      by (unfold state1; destruct (negb _); reflexivity).
    assert (Hl1 : HuffmanState.byteLength state1
                  = if HuffmanState.byteLength state =? 0xFFFFFFFF then 0xFFFFFFFF
                    else HuffmanState.byteLength state - 1).
    { unfold state1.
      destruct (HuffmanState.byteLength state =? 0xFFFFFFFF) eqn:E1; simpl.
      - apply Z.eqb_eq in E1. exact E1.
      - apply wrap32_small. lia. }
    apply bind_Ok in H as [[[acc first] bs1] [_ H]].
    apply DecompressHuffmanSymbol_walk_Ok in H as (Hs & Hl & Hb);
      [|simpl; rewrite Hb1; lia].
    simpl in Hs, Hl, Hb. rewrite Hb1 in Hs, Hb. rewrite Hl1 in Hl.
    assert (Hpow : 2 ^ HuffmanState.bitsPerSymbol state <= 2 ^ 31)
      by (apply Z.pow_le_mono_r; lia).
    split; [exact Hb|]. split; [|exact Hl].
    unfold CL_COMPRESSOR_END_TOKEN. split; [|tauto]. intros ->. lia.
Qed.

Lemma DecompressHuffmanSymbol_calls_open fuel n : forall state symbols state',
  DecompressHuffmanSymbol_calls fuel n state = Ok (symbols, state') ->
  0 <= HuffmanState.bitsPerSymbol state < 32 ->
  HuffmanState.byteLength state = 0xFFFFFFFF ->
  HuffmanState.byteLength state' = 0xFFFFFFFF
  /\ length symbols = n
  /\ Forall (fun symbol => symbol <> CL_COMPRESSOR_END_TOKEN) symbols.
Proof.
  induction n as [|n IH]; intros state symbols state' H Hbits Hlen.
  - injection H as <- <-. auto.
  - simpl in H. apply bind_Ok in H as [[symbol state1] [Hs H]].
    apply bind_Ok in H as [[rest state2] [Hr H]]. injection H as <- <-.
    apply DecompressHuffmanSymbol_Ok in Hs as (Hb & Hend & Hl);
      [|exact Hbits|rewrite Hlen; lia].
    rewrite Hlen in Hl, Hend. simpl in Hl.
    apply IH in Hr as (Hl2 & Hn & Hall); [|rewrite Hb; exact Hbits|exact Hl].
    split; [exact Hl2|]. split; [simpl; congruence|].
    constructor; [|exact Hall]. intros Heq. apply Hend in Heq. discriminate.
Qed.

Lemma DecompressHuffmanSymbol_calls_tracked fuel n : forall state symbols state',
  DecompressHuffmanSymbol_calls fuel n state = Ok (symbols, state') ->
  0 <= HuffmanState.bitsPerSymbol state < 32 ->
  HuffmanState.byteLength state = Z.of_nat n ->
  HuffmanState.byteLength state < 0xFFFFFFFF ->
  HuffmanState.byteLength state' = 0
  /\ length symbols = n
  /\ Forall (fun symbol => symbol <> CL_COMPRESSOR_END_TOKEN) symbols.
Proof.
  induction n as [|n IH]; intros state symbols state' H Hbits Hlen Hopen.
  - injection H as <- <-. auto.
  - simpl in H. apply bind_Ok in H as [[symbol state1] [Hs H]].
    apply bind_Ok in H as [[rest state2] [Hr H]]. injection H as <- <-.
    apply DecompressHuffmanSymbol_Ok in Hs as (Hb & Hend & Hl); [|exact Hbits|lia].
    assert (E0 : (HuffmanState.byteLength state =? 0) = false) by (apply Z.eqb_neq; lia).
    assert (E1 : (HuffmanState.byteLength state =? 0xFFFFFFFF) = false)
      by (apply Z.eqb_neq; lia).
    rewrite E0, E1 in Hl.
    apply IH in Hr as (Hl2 & Hn & Hall); [|rewrite Hb; exact Hbits|lia|lia].
    split; [exact Hl2|]. split; [simpl; congruence|].
    constructor; [|exact Hall]. intros Heq. apply Hend in Heq. lia.
Qed.

(** C7, as amended.  For a state whose symbols are narrower than 32 bits
    ([bitsPerSymbol < 32]): a call entered with [byteLength = 0] returns
    [CL_COMPRESSOR_END_TOKEN] and leaves the state alone; a call that
    returns does so with [CL_COMPRESSOR_END_TOKEN] exactly when it was
    entered with [byteLength = 0]; a call entered with [byteLength] neither
    0 nor [0xFFFFFFFF] that decodes a symbol leaves [byteLength] one less,
    so after [byteLength] such calls the counter is 0 and the next call
    returns the end token; a state entered with [byteLength = 0xFFFFFFFF]
    keeps that value and never yields the end token, however many calls are
    made. *)
Theorem DecompressHuffmanSymbol_end_token (fuel : nat) (state : HuffmanState_t) :
  0 <= HuffmanState.bitsPerSymbol state < 32 ->
  0 <= HuffmanState.byteLength state < 2 ^ 32 ->
  (HuffmanState.byteLength state = 0 ->
   DecompressHuffmanSymbol fuel state = Ok (CL_COMPRESSOR_END_TOKEN, state))
  /\ (forall symbol state',
        DecompressHuffmanSymbol fuel state = Ok (symbol, state') ->
        (symbol = CL_COMPRESSOR_END_TOKEN <-> HuffmanState.byteLength state = 0)
        /\ (HuffmanState.byteLength state <> 0 ->
            HuffmanState.byteLength state <> 0xFFFFFFFF ->
            HuffmanState.byteLength state' = HuffmanState.byteLength state - 1)
        /\ (HuffmanState.byteLength state = 0xFFFFFFFF ->
            HuffmanState.byteLength state' = 0xFFFFFFFF))
  /\ (forall symbols state',
        HuffmanState.byteLength state <> 0xFFFFFFFF ->
        DecompressHuffmanSymbol_calls fuel
          (Z.to_nat (HuffmanState.byteLength state)) state = Ok (symbols, state') ->
        Forall (fun symbol => symbol <> CL_COMPRESSOR_END_TOKEN) symbols
        /\ HuffmanState.byteLength state' = 0
        /\ DecompressHuffmanSymbol fuel state' = Ok (CL_COMPRESSOR_END_TOKEN, state'))
  /\ (forall n symbols state',
        HuffmanState.byteLength state = 0xFFFFFFFF ->
        DecompressHuffmanSymbol_calls fuel n state = Ok (symbols, state') ->
        HuffmanState.byteLength state' = 0xFFFFFFFF
        /\ length symbols = n
        /\ Forall (fun symbol => symbol <> CL_COMPRESSOR_END_TOKEN) symbols).
Proof.
  intros Hbits Hlen. split; [apply DecompressHuffmanSymbol_end|].
  split; [|split].
  - intros symbol state' H.
    apply DecompressHuffmanSymbol_Ok in H as (_ & Hend & Hl); [|exact Hbits|exact Hlen].
    split; [exact Hend|]. split.
    + intros H0 H1. apply Z.eqb_neq in H0, H1. rewrite H0, H1 in Hl. exact Hl.
    + intros H1. rewrite H1 in Hl. exact Hl.
  - intros symbols state' Hopen H.
    apply DecompressHuffmanSymbol_calls_tracked in H as (Hl & _ & Hall);
      [|exact Hbits|rewrite Z2Nat.id; lia|lia].
    split; [exact Hall|]. split; [exact Hl|].
    apply DecompressHuffmanSymbol_end. exact Hl.
  - intros n symbols state' Hopen H.
    apply DecompressHuffmanSymbol_calls_open in H; [exact H|exact Hbits|exact Hopen].
Qed.

Lemma DecompressHuffmanSymbol_end_token_witness :
  DecompressHuffmanStart 4 HuffmanState.zero aba_stream 6 = Ok aba_state
  /\ DecompressHuffmanSymbol_calls 4 3 aba_state
     = Ok ([65; 66; 65], HuffmanState.set_bitstream (mkBitstream 46 aba_stream)
                           (HuffmanState.set_byteLength 0 aba_state))
  /\ forall symbols state',
       HuffmanState.byteLength aba_state <> 0xFFFFFFFF ->
       DecompressHuffmanSymbol_calls 4
         (Z.to_nat (HuffmanState.byteLength aba_state)) aba_state = Ok (symbols, state') ->
       Forall (fun symbol => symbol <> CL_COMPRESSOR_END_TOKEN) symbols
       /\ HuffmanState.byteLength state' = 0
       /\ DecompressHuffmanSymbol 4 state' = Ok (CL_COMPRESSOR_END_TOKEN, state').
Proof.
  split; [reflexivity|]. split; [reflexivity|].
  refine (proj1 (proj2 (proj2 (DecompressHuffmanSymbol_end_token 4 aba_state _ _))));
    simpl; lia.
Defined.

(** C7 as stated fails for 32-bit symbols: the state built from
    [wide_symbol_stream] has [byteLength = 1], and the call decodes the
    symbol [0xFFFFFFFF], which is the end token; marked open-ended the same
    state yields the end token too. *)
Lemma DecompressHuffmanSymbol_end_token_counterexample :
  DecompressHuffmanStart 4 HuffmanState.zero wide_symbol_stream 8 = Ok wide_symbol_state
  /\ HuffmanState.byteLength wide_symbol_state = 1
  /\ DecompressHuffmanSymbol 4 wide_symbol_state
     = Ok (CL_COMPRESSOR_END_TOKEN,
           HuffmanState.set_bitstream (mkBitstream 62 wide_symbol_stream)
             (HuffmanState.set_byteLength 0 wide_symbol_state))
  /\ DecompressHuffmanSymbol 4 (HuffmanState.set_byteLength 0xFFFFFFFF wide_symbol_state)
     = Ok (CL_COMPRESSOR_END_TOKEN,
           HuffmanState.set_bitstream (mkBitstream 62 wide_symbol_stream)
             (HuffmanState.set_byteLength 0xFFFFFFFF wide_symbol_state)).
Proof. repeat split. Qed.

(** ** LZ77 coding *)

Lemma DecompressLZ77Block_copy_spec n : forall i delta state,
  0 <= i ->
  0 <= LZ77State.byteIndex state < 2 ^ 32 ->
  (let* '(state', _) :=
     DecompressLZ77Block_copy n delta
       (LZ77State.set_byteIndex (wrap32 (LZ77State.byteIndex state + i)) state) in
   Ok (LZ77State.dest state', LZ77State.byteIndex state',
       LZ77State.bitstream state', LZ77State.destLength state'))
  = (let* dest :=
       LZ77_copy_spec i n (LZ77State.byteIndex state) delta
         (LZ77State.destLength state) (LZ77State.dest state) in
     Ok (dest, wrap32 (LZ77State.byteIndex state + i + Z.of_nat n),
         LZ77State.bitstream state, LZ77State.destLength state)).
Proof.
  induction n as [|n IH]; intros i delta state Hi Hbi.
  - simpl. rewrite Z.add_0_r. reflexivity.
  - simpl DecompressLZ77Block_copy. simpl LZ77_copy_spec.
    unfold modu.
    destruct (LZ77State.destLength state =? 0); simpl bind; [reflexivity|].
    set (to := wrap32 (LZ77State.byteIndex state + i) mod LZ77State.destLength state).
    set (from := wrap32 (wrap32 (LZ77State.byteIndex state + i) + delta)
                 mod LZ77State.destLength state).
    destruct (load (LZ77State.dest state) from) as [v|f]; simpl bind; [|reflexivity].
    destruct (store (LZ77State.dest state) to v) as [dest'|f]; simpl bind;
      [|reflexivity].
    specialize (IH (i + 1) delta (LZ77State.set_dest dest' state) ltac:(lia) Hbi).
    simpl in IH. rewrite wrap32_add_l.
    replace (LZ77State.byteIndex state + i + Z.of_nat (S n))
      with (LZ77State.byteIndex state + (i + 1) + Z.of_nat n) by lia.
    rewrite <- IH. rewrite Z.add_assoc.
    unfold LZ77State.set_byteIndex, LZ77State.set_dest. simpl.
    clear IH.
    destruct (DecompressLZ77Block_copy n delta _) as [[state' stores]|f]; reflexivity.
Qed.

Lemma DecompressLZ77Block_copy_frame n : forall delta state state' stores,
  DecompressLZ77Block_copy n delta state = Ok (state', stores) ->
  state' = LZ77State.set_byteIndex (LZ77State.byteIndex state')
             (LZ77State.set_dest (LZ77State.dest state') state).
Proof.
  induction n as [|n IH]; intros delta state state' stores H.
  - injection H as <- <-. destruct state; reflexivity.
  - simpl in H.
    apply bind_Ok in H as [to [_ H]]. apply bind_Ok in H as [from [_ H]].
    apply bind_Ok in H as [v [_ H]]. apply bind_Ok in H as [dest' [_ H]].
    apply bind_Ok in H as [[state1 stores1] [H1 H]]. injection H as <- <-.
    apply IH in H1. rewrite H1. destruct state; reflexivity.
Qed.

(** C5. For every LZ77 state (with [byteIndex] a [uint32_t]), one call of
    [DecompressLZ77Block] gives exactly what the block step of the
    specification gives, result and state: the end token and the state as it
    was when [byteIndex >= byteLength]; on decision bit 0 the literal stored
    at [dest[byteIndex mod destLength]], [byteIndex] incremented and 1
    returned; on decision bit 1 the token split into length and distance,
    [delta = destLength - distance - 1], the [length] copies, and [length]
    returned. *)
Theorem DecompressLZ77Block_refines (state : LZ77State_t) :
  0 <= LZ77State.byteIndex state < 2 ^ 32 ->
  DecompressLZ77Block state = DecompressLZ77Block_spec state.
Proof.
  intros Hbi. unfold DecompressLZ77Block, DecompressLZ77Block_spec.
  destruct (LZ77State.byteLength state <=? LZ77State.byteIndex state); [reflexivity|].
  destruct (ReadBitstream (LZ77State.bitstream state) 1) as [[decision bs1]|f];
    simpl bind; [|reflexivity].
  destruct (decision =? 0).
  - destruct (ReadBitstream bs1 (LZ77State.actualBitsPerSymbol state)) as [[lit bs2]|f];
      simpl bind; [|reflexivity].
    destruct (modu (LZ77State.byteIndex state) (LZ77State.destLength state)) as [to|f];
      simpl bind; [|reflexivity].
    destruct (store (LZ77State.dest state) to lit) as [dest'|f]; reflexivity.
  - destruct (ReadBitstream bs1 (LZ77State.actualBitsPerToken state)) as [[token bs2]|f];
      simpl bind; [|reflexivity].
    destruct (divu token _) as [q|f]; simpl bind; [|reflexivity].
    destruct (modu token _) as [distance|f]; simpl bind; [|reflexivity].
    set (length := wrap32 (q + LZ77State.actualMinLength state)).
    unfold DecompressLZ77Block_run, DecompressLZ77Block_delta. simpl.
    set (delta := wrap32 (LZ77State.destLength state - distance - 1)).
    change (LZ77State.set_bitstream bs2 (LZ77State.set_bitstream bs1 state))
      with (LZ77State.set_bitstream bs2 state).
    pose proof (DecompressLZ77Block_copy_spec (Z.to_nat length) 0 delta
                  (LZ77State.set_bitstream bs2 state)) as Hc.
    simpl in Hc. rewrite Z.add_0_r, wrap32_small in Hc by lia.
    specialize (Hc ltac:(lia) Hbi).
    assert (Hlen : Z.of_nat (Z.to_nat length) = length).
    { apply Z2Nat.id. apply wrap32_range. }
    rewrite Hlen in Hc.
    replace (LZ77State.set_byteIndex (LZ77State.byteIndex state)
               (LZ77State.set_bitstream bs2 state))
      with (LZ77State.set_bitstream bs2 state) in Hc by (destruct state; reflexivity).
    destruct (DecompressLZ77Block_copy (Z.to_nat length) delta
                (LZ77State.set_bitstream bs2 state)) as [[state' stores]|f] eqn:Ecopy;
      destruct (LZ77_copy_spec 0 (Z.to_nat length) (LZ77State.byteIndex state) delta
                  (LZ77State.destLength state) (LZ77State.dest state)) as [dest'|f'];
      simpl in Hc |- *; try discriminate.
    + injection Hc as Hd Hi _ _. apply DecompressLZ77Block_copy_frame in Ecopy.
      rewrite Ecopy, Hd, Hi. reflexivity.
    + congruence.
Qed.

Lemma DecompressLZ77Block_refines_witness :
  DecompressLZ77Block lz77_run_state = DecompressLZ77Block_spec lz77_run_state
  /\ DecompressLZ77Block lz77_run_state
     = Ok (3, LZ77State.mk (mkBitstream 9 [0x82; 0x80]) 5 10
                [97; 98; 97; 98; 97; 0; 0; 0] 8 100 3 2 8 8).
Proof.
  split; [|reflexivity].
  apply (DecompressLZ77Block_refines lz77_run_state). simpl. lia.
Defined.

(** ** The copy of LZCL and the copy of LZ77 *)

Lemma copy_loops_agree n : forall delta s77 scl,
  LZ77State.byteIndex s77 = LZCLState.byteIndex scl ->
  LZ77State.dest s77 = LZCLState.dest scl ->
  LZ77State.destLength s77 = LZCLState.destLength scl ->
  match DecompressLZ77Block_copy n delta s77, DecompressLZCLBlock_copy n delta scl with
  | Ok (s77', stores77), Ok (scl', storesCL) =>
      stores77 = storesCL
      /\ length stores77 = n
      /\ LZ77State.dest s77' = LZCLState.dest scl'
      /\ LZ77State.byteIndex s77' = LZCLState.byteIndex scl'
      /\ LZ77State.byteIndex s77'
         = Nat.iter n (fun q => wrap32 (q + 1)) (LZ77State.byteIndex s77)
      /\ LZ77State.destLength s77' = LZ77State.destLength s77
      /\ LZCLState.destLength scl' = LZCLState.destLength scl
  | Err f77, Err fCL => f77 = fCL
  | _, _ => False
  end.
Proof.
  induction n as [|n IH]; intros delta s77 scl Hi Hd Hl.
  - simpl. auto 10.
  - simpl DecompressLZ77Block_copy. simpl DecompressLZCLBlock_copy.
    rewrite <- Hi, <- Hd, <- Hl.
    destruct (modu (LZ77State.byteIndex s77) (LZ77State.destLength s77)) as [to|f];
      simpl bind; [|reflexivity].
    destruct (modu (wrap32 (LZ77State.byteIndex s77 + delta)) (LZ77State.destLength s77))
      as [from|f]; simpl bind; [|reflexivity].
    destruct (load (LZ77State.dest s77) from) as [v|f]; simpl bind; [|reflexivity].
    destruct (store (LZ77State.dest s77) to v) as [dest'|f]; simpl bind; [|reflexivity].
    specialize (IH delta
      (LZ77State.set_byteIndex (wrap32 (LZ77State.byteIndex s77 + 1))
         (LZ77State.set_dest dest' s77))
      (LZCLState.set_byteIndex (wrap32 (LZ77State.byteIndex s77 + 1))
         (LZCLState.set_dest dest' scl))
      eq_refl eq_refl Hl).
    destruct (DecompressLZ77Block_copy n delta _) as [[s77' stores77]|f77];
      destruct (DecompressLZCLBlock_copy n delta _) as [[scl' storesCL]|fCL];
      simpl bind; try exact IH.
    destruct IH as (Hs & Hn & Hd' & Hi' & Hit & Hl1 & Hl2). simpl in *.
    repeat split; try assumption; try congruence.
    rewrite Hit. clear. induction n; simpl; congruence.
Qed.

(** C8. From the same [distance], [length], [byteIndex], [dest] contents and
    [destLength], the copy branch of [DecompressLZCLBlock] and the copy
    branch of [DecompressLZ77Block] compute the same [delta] and either fail
    alike or make the same stores (same bytes, same positions, same order),
    leave the same [dest], leave [byteIndex] advanced by [length] and return
    the same value, [length]. *)
Theorem LZCL_copy_is_LZ77_copy (s77 : LZ77State_t) (scl : LZCLState_t) (distance length : Z) :
  LZ77State.byteIndex s77 = LZCLState.byteIndex scl ->
  LZ77State.dest s77 = LZCLState.dest scl ->
  LZ77State.destLength s77 = LZCLState.destLength scl ->
  0 <= LZ77State.byteIndex s77 < 2 ^ 32 ->
  0 <= length ->
  DecompressLZ77Block_delta s77 distance = DecompressLZCLBlock_delta scl distance
  /\ match DecompressLZ77Block_run s77 distance length,
           DecompressLZCLBlock_run scl distance length with
     | Ok (r77, s77', stores77), Ok (rCL, scl', storesCL) =>
         stores77 = storesCL
         /\ Z.of_nat (List.length stores77) = length
         /\ LZ77State.dest s77' = LZCLState.dest scl'
         /\ LZ77State.byteIndex s77' = wrap32 (LZ77State.byteIndex s77 + length)
         /\ LZCLState.byteIndex scl' = wrap32 (LZCLState.byteIndex scl + length)
         /\ r77 = length /\ rCL = length
     | Err f77, Err fCL => f77 = fCL
     | _, _ => False
     end.
Proof.
  intros Hi Hd Hl Hbi Hlen.
  assert (Hdelta : DecompressLZ77Block_delta s77 distance
                   = DecompressLZCLBlock_delta scl distance).
  { unfold DecompressLZ77Block_delta, DecompressLZCLBlock_delta. rewrite Hl. reflexivity. }
  split; [exact Hdelta|].
  unfold DecompressLZ77Block_run, DecompressLZCLBlock_run. rewrite <- Hdelta.
  pose proof (copy_loops_agree (Z.to_nat length)
                (DecompressLZ77Block_delta s77 distance) s77 scl Hi Hd Hl) as H.
  destruct (DecompressLZ77Block_copy _ _ s77) as [[s77' stores77]|f77];
    destruct (DecompressLZCLBlock_copy _ _ scl) as [[scl' storesCL]|fCL];
    simpl bind; try exact H.
  destruct H as (Hs & Hn & Hd' & Hi' & Hit & _).
  rewrite iter_wrap32, Z2Nat.id in Hit by lia.
  repeat split; try assumption; try lia; congruence.
Qed.

Lemma LZCL_copy_is_LZ77_copy_witness :
  DecompressLZ77Block_run lz77_run_state 1 3
  = Ok (3, LZ77State.set_byteIndex 5
             (LZ77State.set_dest [97; 98; 97; 98; 97; 0; 0; 0] lz77_run_state),
        [(2, 97); (3, 98); (4, 97)])
  /\ DecompressLZ77Block_delta lz77_run_state 1
     = DecompressLZCLBlock_delta lzcl_run_state 1
  /\ match DecompressLZ77Block_run lz77_run_state 1 3,
           DecompressLZCLBlock_run lzcl_run_state 1 3 with
     | Ok (r77, s77', stores77), Ok (rCL, scl', storesCL) =>
         stores77 = storesCL
         /\ Z.of_nat (List.length stores77) = 3
         /\ LZ77State.dest s77' = LZCLState.dest scl'
         /\ LZ77State.byteIndex s77' = wrap32 (LZ77State.byteIndex lz77_run_state + 3)
         /\ LZCLState.byteIndex scl' = wrap32 (LZCLState.byteIndex lzcl_run_state + 3)
         /\ r77 = 3 /\ rCL = 3
     | Err f77, Err fCL => f77 = fCL
     | _, _ => False
     end.
Proof.
  split; [reflexivity|].
  apply (LZCL_copy_is_LZ77_copy lz77_run_state lzcl_run_state 1 3);
    try reflexivity; simpl; lia.
Defined.

(** ** The one-shot Huffman decoder stays inside the destination *)

Lemma no_dest_fault_Ok {A : Type} (a : A) : no_dest_fault (Ok a).
Proof. discriminate. Qed.

Lemma no_dest_fault_source {A : Type} : no_dest_fault (@Err A SourceOverrun).
Proof. discriminate. Qed.

Lemma no_dest_fault_undefined {A : Type} : no_dest_fault (@Err A UndefinedOp).
Proof. discriminate. Qed.

Lemma no_dest_fault_fuel {A : Type} : no_dest_fault (@Err A OutOfFuel).
Proof. discriminate. Qed.

Lemma no_dest_fault_bind {A B : Type} (m : result A) (k : A -> result B) :
  no_dest_fault m -> (forall a, no_dest_fault (k a)) -> no_dest_fault (bind m k).
Proof.
  unfold no_dest_fault. destruct m as [a|f]; simpl; intros Hm Hk.
  - apply Hk.
  - intros E. apply Hm. congruence.
Qed.

Lemma no_dest_fault_Err {A B : Type} (f : fault) :
  no_dest_fault (@Err A f) -> no_dest_fault (@Err B f).
Proof. unfold no_dest_fault. intros H E. apply H. congruence. Qed.

Create HintDb nodest.
#[local] Hint Resolve no_dest_fault_Ok no_dest_fault_source no_dest_fault_undefined
  no_dest_fault_fuel : nodest.

Ltac nodest_step :=
  match goal with
  | |- no_dest_fault (bind _ _) => apply no_dest_fault_bind; [ | intros ? ]
  | |- no_dest_fault (match ?x with _ => _ end) => destruct x
  | |- no_dest_fault (let _ := _ in _) => cbv zeta
  end.

Ltac nodest := repeat nodest_step; eauto with nodest.

Lemma ReadBitstream_no_dest_fault bs k : no_dest_fault (ReadBitstream bs k).
Proof.
  unfold ReadBitstream. generalize 0 as v. revert bs.
  induction (Z.to_nat k) as [|n IH]; intros bs v; simpl; [nodest|].
  unfold ReadBitstream_bit. nodest.
Qed.
#[local] Hint Resolve ReadBitstream_no_dest_fault : nodest.

Lemma ReadFromBitstreamPosition_no_dest_fault bs pos k :
  no_dest_fault (ReadFromBitstreamPosition bs pos k).
Proof. unfold ReadFromBitstreamPosition. nodest. Qed.
#[local] Hint Resolve ReadFromBitstreamPosition_no_dest_fault : nodest.

Lemma DecodeUniversalLomont1_no_dest_fault fuel bs cs dc :
  no_dest_fault (DecodeUniversalLomont1 fuel bs cs dc).
Proof.
  unfold DecodeUniversalLomont1. generalize 0 at 1 as v. generalize 0 as shift.
  revert bs cs.
  induction fuel as [|fuel IH]; intros bs cs shift v; simpl; [nodest|].
  unfold shl32, int_add, Lomont1_nextChunkSize, int_add. nodest.
Qed.
#[local] Hint Resolve DecodeUniversalLomont1_no_dest_fault : nodest.

Lemma ParseHuffmanTable_no_dest_fault state : no_dest_fault (ParseHuffmanTable state).
Proof.
  unfold ParseHuffmanTable. cbv zeta.
  set (st := HuffmanState.set_tablePosition _ state). clearbody st.
  apply no_dest_fault_bind; [|nodest].
  generalize (HuffmanState.bitstream st) as bs.
  induction (Z.to_nat _) as [|trips IH]; intros bs; simpl; [nodest|].
  apply no_dest_fault_bind; [nodest|]. intros [count bs1].
  apply no_dest_fault_bind; [|auto].
  generalize bs1. induction (Z.to_nat count) as [|c IHc]; intros bs2; simpl; nodest.
Qed.
#[local] Hint Resolve ParseHuffmanTable_no_dest_fault : nodest.

Lemma DecompressHuffmanStart_no_dest_fault fuel state source sourceLength :
  no_dest_fault (DecompressHuffmanStart fuel state source sourceLength).
Proof. unfold DecompressHuffmanStart, ReadHuffmanHeaderNoLength. nodest. Qed.

Lemma DecompressHuffmanSymbol_no_dest_fault fuel state :
  no_dest_fault (DecompressHuffmanSymbol fuel state).
Proof.
  unfold DecompressHuffmanSymbol.
  destruct (HuffmanState.byteLength state =? 0); [nodest|].
  cbv zeta. set (st := if negb _ then _ else state). clearbody st.
  apply no_dest_fault_bind.
  - generalize 0 at 1 as acc. generalize 0 as first.
    generalize (HuffmanState.bitstream st) as bs.
    induction (Z.to_nat _) as [|n IH]; intros bs first acc; simpl; nodest.
  - intros [[acc first] bs].
    generalize (HuffmanState.tablePosition (HuffmanState.set_bitstream bs st)) as idx.
    generalize (HuffmanState.set_bitstream bs st) as st1. revert acc first.
    induction fuel as [|fuel IH]; intros acc first st1 idx; simpl; nodest.
Qed.

Lemma store_Ok dest i v dest' :
  store dest i v = Ok dest' ->
  0 <= i < Z.of_nat (length dest)
  /\ length dest' = length dest
  /\ forall j : nat, Z.of_nat j <> i -> dest' !! j = dest !! j.
Proof.
  unfold store.
  destruct ((0 <=? i) && (i <? Z.of_nat (length dest))) eqn:E; [|discriminate].
  intros [= <-]. apply andb_true_iff in E as [E1 E2].
  apply Z.leb_le in E1. apply Z.ltb_lt in E2.
  split; [lia|]. split; [apply length_insert|].
  intros j Hj. apply list_lookup_insert_ne. lia.
Qed.

Lemma store_in_range dest i v :
  0 <= i < Z.of_nat (length dest) -> no_dest_fault (store dest i v).
Proof.
  intros Hi. unfold store.
  assert (E : (0 <=? i) && (i <? Z.of_nat (length dest)) = true).
  { apply andb_true_iff. split; [apply Z.leb_le | apply Z.ltb_lt]; lia. }
  rewrite E. apply no_dest_fault_Ok.
Qed.

Lemma DecompressHuffman_loop_bounded fuel : forall symbolFuel state byteIndex dest destLength,
  0 <= byteIndex <= destLength -> destLength < 2 ^ 32 ->
  (forall n dest',
      DecompressHuffman_loop fuel symbolFuel state byteIndex dest destLength
      = Ok (n, dest') ->
      byteIndex <= n <= destLength
      /\ length dest' = length dest
      /\ forall j : nat,
           Z.of_nat j < byteIndex \/ destLength <= Z.of_nat j -> dest' !! j = dest !! j)
  /\ (destLength <= Z.of_nat (length dest) ->
      no_dest_fault
        (DecompressHuffman_loop fuel symbolFuel state byteIndex dest destLength)).
Proof.
  induction fuel as [|fuel IH]; intros symbolFuel state byteIndex dest destLength Hbi Hdl.
  { split; [discriminate | intros _; apply no_dest_fault_fuel]. }
  simpl DecompressHuffman_loop.
  destruct (negb (HuffmanState.byteLength state =? 0) && (byteIndex <? destLength)) eqn:Ec.
  2:{ split; [|intros _; apply no_dest_fault_Ok].
      intros n dest' [= <- <-]. split; [lia|]. auto. }
  apply andb_true_iff in Ec as [_ Ec]. apply Z.ltb_lt in Ec.
  pose proof (DecompressHuffmanSymbol_no_dest_fault symbolFuel state) as Hsym.
  destruct (DecompressHuffmanSymbol symbolFuel state) as [[symbol state1]|f]; simpl bind.
  2:{ split; [discriminate | intros _; exact (no_dest_fault_Err f Hsym)]. }
  destruct (symbol =? CL_COMPRESSOR_END_TOKEN).
  { split; [|intros _; apply no_dest_fault_Ok].
    intros n dest' [= <- <-]. split; [lia|]. auto. }
  rewrite (wrap32_small (byteIndex + 1)) by lia.
  destruct (store dest byteIndex symbol) as [dest1|f] eqn:Es; simpl bind.
  - apply store_Ok in Es as (Hin & Hlen1 & Hframe1).
    destruct (IH symbolFuel state1 (byteIndex + 1) dest1 destLength) as [IH1 IH2];
      [lia | lia |].
    split.
    + intros n dest' H. apply IH1 in H as (Hn & Hlen & Hframe).
      split; [lia|]. split; [congruence|].
      intros j Hj. rewrite Hframe by lia. apply Hframe1. lia.
    + intros Hle. apply IH2. lia.
  - split; [discriminate|]. intros Hle.
    assert (Hs : no_dest_fault (store dest byteIndex symbol))
      by (apply store_in_range; lia).
    rewrite Es in Hs. exact (no_dest_fault_Err f Hs).
Qed.

(** C10. For every source and every [destLength >= 0], a run of
    [DecompressHuffman] that returns gives a byte count between 0 and
    [destLength] and leaves every element of [dest] at an index
    [>= destLength] as it was (the array keeps its length), whatever byte
    count the header announces; and when the array has at least [destLength]
    elements no run, returning or not, ever accesses [dest] outside the
    array. *)
Theorem DecompressHuffman_within_dest (fuel : nat) (source : list Z)
    (sourceLength : Z) (dest : list Z) (destLength : Z) :
  0 <= destLength < 2 ^ 31 ->
  (forall n dest',
      DecompressHuffman fuel source sourceLength dest destLength = Ok (n, dest') ->
      0 <= n <= destLength
      /\ length dest' = length dest
      /\ forall j : nat, destLength <= Z.of_nat j -> dest' !! j = dest !! j)
  /\ (destLength <= Z.of_nat (length dest) ->
      DecompressHuffman fuel source sourceLength dest destLength <> Err DestOverrun).
Proof.
  intros Hdl. unfold DecompressHuffman.
  pose proof (DecompressHuffmanStart_no_dest_fault fuel HuffmanState.zero source sourceLength)
    as Hstart.
  destruct (DecompressHuffmanStart fuel HuffmanState.zero source sourceLength)
    as [state|f]; simpl bind;
    [|split; [discriminate | intros _; exact (no_dest_fault_Err f Hstart)]].
  rewrite (wrap32_small destLength) by lia.
  destruct (DecompressHuffman_loop_bounded fuel fuel state 0 dest destLength) as [H1 H2];
    [lia | lia |].
  split.
  - intros n dest' H. apply bind_Ok in H as [[n1 dest1] [Hloop H]].
    injection H as <- <-. apply H1 in Hloop as (Hn & Hlen & Hframe).
    unfold to_int32. assert (E : (n1 <? 2 ^ 31) = true) by (apply Z.ltb_lt; lia).
    rewrite E. split; [lia|]. split; [exact Hlen|]. intros j Hj. apply Hframe. lia.
  - intros Hle. specialize (H2 Hle). fold (no_dest_fault
      (let* '(byteIndex, dest0) := DecompressHuffman_loop fuel fuel state 0 dest destLength
       in Ok (to_int32 byteIndex, dest0))).
    apply no_dest_fault_bind; [exact H2|]. intros [n1 dest1]. apply no_dest_fault_Ok.
Qed.

Lemma DecompressHuffman_within_dest_witness :
  DecompressHuffman 4 aba_stream 6 [0; 0; 7; 7; 7] 2 = Ok (2, [65; 66; 7; 7; 7])
  /\ (forall n dest',
        DecompressHuffman 4 aba_stream 6 [0; 0; 7; 7; 7] 2 = Ok (n, dest') ->
        0 <= n <= 2
        /\ length dest' = length [0; 0; 7; 7; 7]
        /\ forall j : nat, 2 <= Z.of_nat j -> dest' !! j = [0; 0; 7; 7; 7] !! j)
  /\ (2 <= Z.of_nat (length [0; 0; 7; 7; 7]) ->
      DecompressHuffman 4 aba_stream 6 [0; 0; 7; 7; 7] 2 <> Err DestOverrun).
Proof.
  split; [reflexivity|].
  apply (DecompressHuffman_within_dest 4 aba_stream 6 [0; 0; 7; 7; 7] 2). lia.
Defined.

(** ** Arithmetic coding: the renormalization invariant *)

Lemma ReadBitstream_fault bs k f : ReadBitstream bs k = Err f -> f = SourceOverrun.
Proof.
  unfold ReadBitstream. generalize 0 as v. revert bs.
  induction (Z.to_nat k) as [|n IH]; intros bs v; simpl; [discriminate|].
  unfold ReadBitstream_bit. destruct (data bs !! _); simpl; [apply IH|congruence].
Qed.

Lemma ReadBitstream_one bs b bs' : ReadBitstream bs 1 = Ok (b, bs') -> 0 <= b <= 1.
Proof.
  intros H. apply ReadBitstream_bound in H; [|lia]. change (2 ^ 1) with 2 in H. lia.
Qed.

Lemma ReadArithmeticBistream_Ok state b state' :
  ReadArithmeticBistream state 1 = Ok (b, state') ->
  0 <= b <= 1
  /\ ArithmeticState.lowValue state' = ArithmeticState.lowValue state
  /\ ArithmeticState.highValue state' = ArithmeticState.highValue state
  /\ ArithmeticState.buffer state' = ArithmeticState.buffer state
  /\ ArithmeticState.total state' = ArithmeticState.total state.
Proof.
  unfold ReadArithmeticBistream. cbv zeta.
  destruct (_ <? _).
  - intros H. apply bind_Ok in H as [[v bs] [Hv H]]. injection H as <- <-.
    apply ReadBitstream_one in Hv. auto.
  - intros [= <- <-]. simpl. repeat split; lia.
Qed.

Lemma ReadArithmeticBistream_fault state f :
  ReadArithmeticBistream state 1 = Err f -> f = SourceOverrun.
Proof.
  unfold ReadArithmeticBistream. cbv zeta.
  destruct (_ <? _); [|discriminate].
  destruct (ReadBitstream _ 1) as [[v bs]|f'] eqn:E; simpl; [discriminate|].
  intros [= <-]. eapply ReadBitstream_fault. exact E.
Qed.

Ltac arith_fields :=
  cbn [ArithmeticState.lowValue ArithmeticState.highValue ArithmeticState.buffer
       ArithmeticState.total ArithmeticState.set_lowValue
       ArithmeticState.set_highValue ArithmeticState.set_buffer] in *.

(** One trip of the e1/e2 loop whose test succeeded keeps the order and
    doubles the width. *)
Lemma e1e2_trip state state1 :
  (if ArithmeticState.highValue state <? range50Percent then
     let state :=
       ArithmeticState.set_lowValue (wrap32 (2 * ArithmeticState.lowValue state)) state in
     let state :=
       ArithmeticState.set_highValue
         (wrap32 (2 * ArithmeticState.highValue state + 1)) state in
     let* '(b, state) := ReadArithmeticBistream state 1 in
     Ok (ArithmeticState.set_buffer (wrap32 (2 * ArithmeticState.buffer state + b)) state)
   else if range50Percent <=? ArithmeticState.lowValue state then
     let state :=
       ArithmeticState.set_lowValue
         (wrap32 (2 * wrap32 (ArithmeticState.lowValue state - range50Percent))) state in
     let state :=
       ArithmeticState.set_highValue
         (wrap32 (2 * wrap32 (ArithmeticState.highValue state - range50Percent) + 1))
         state in
     let* '(b, state) := ReadArithmeticBistream state 1 in
     Ok (ArithmeticState.set_buffer
           (wrap32 (2 * wrap32 (ArithmeticState.buffer state - range50Percent) + b)) state)
   else Ok state) = Ok state1 ->
  (ArithmeticState.highValue state <? range50Percent)
  || (range50Percent <=? ArithmeticState.lowValue state) = true ->
  Arithmetic_ordered state ->
  Arithmetic_ordered state1
  /\ ArithmeticState.total state1 = ArithmeticState.total state
  /\ ArithmeticState.highValue state1 - ArithmeticState.lowValue state1 + 1
     = 2 * (ArithmeticState.highValue state - ArithmeticState.lowValue state + 1).
Proof.
  unfold Arithmetic_ordered. intros H Ec (Hl & Hb & Hh).
  assert (R100 : range100Percent = 2 ^ 31) by reflexivity.
  assert (R50 : range50Percent = 2 ^ 30) by reflexivity.
  rewrite R100 in *. rewrite R50 in *. clear R100 R50.
  assert (P31 : 2 ^ 31 = 2 * 2 ^ 30) by reflexivity.
  assert (P32 : 2 ^ 32 = 4 * 2 ^ 30) by reflexivity.
  assert (P30 : 0 < 2 ^ 30) by reflexivity.
  set (q := 2 ^ 30) in *. clearbody q.
  destruct (ArithmeticState.highValue state <? q) eqn:E1;
    [|destruct (q <=? ArithmeticState.lowValue state) eqn:E2].
  - apply Z.ltb_lt in E1. cbv zeta in H.
    apply bind_Ok in H as [[b st] [Hr H]]. injection H as <-.
    apply ReadArithmeticBistream_Ok in Hr as (Hb01 & Hl1 & Hh1 & Hbuf1 & Ht1).
    arith_fields. rewrite Hl1, Hh1, Hbuf1, Ht1.
    rewrite !wrap32_small by lia. lia.
  - apply Z.leb_le in E2. cbv zeta in H.
    apply bind_Ok in H as [[b st] [Hr H]]. injection H as <-.
    apply ReadArithmeticBistream_Ok in Hr as (Hb01 & Hl1 & Hh1 & Hbuf1 & Ht1).
    arith_fields. rewrite Hl1, Hh1, Hbuf1, Ht1.
    rewrite (wrap32_small (ArithmeticState.lowValue state - q)) by lia.
    rewrite (wrap32_small (ArithmeticState.highValue state - q)) by lia.
    rewrite (wrap32_small (ArithmeticState.buffer state - q)) by lia.
    rewrite !wrap32_small by lia. lia.
  - discriminate Ec.
Qed.

Lemma e1e2_trip_fault state f :
  (if ArithmeticState.highValue state <? range50Percent then
     let state :=
       ArithmeticState.set_lowValue (wrap32 (2 * ArithmeticState.lowValue state)) state in
     let state :=
       ArithmeticState.set_highValue
         (wrap32 (2 * ArithmeticState.highValue state + 1)) state in
     let* '(b, state) := ReadArithmeticBistream state 1 in
     Ok (ArithmeticState.set_buffer (wrap32 (2 * ArithmeticState.buffer state + b)) state)
   else if range50Percent <=? ArithmeticState.lowValue state then
     let state :=
       ArithmeticState.set_lowValue
         (wrap32 (2 * wrap32 (ArithmeticState.lowValue state - range50Percent))) state in
     let state :=
       ArithmeticState.set_highValue
         (wrap32 (2 * wrap32 (ArithmeticState.highValue state - range50Percent) + 1))
         state in
     let* '(b, state) := ReadArithmeticBistream state 1 in
     Ok (ArithmeticState.set_buffer
           (wrap32 (2 * wrap32 (ArithmeticState.buffer state - range50Percent) + b)) state)
   else Ok state) = Err f ->
  f = SourceOverrun.
Proof.
  destruct (_ <? _); [|destruct (_ <=? _)]; cbv zeta; try discriminate.
  - destruct (ReadArithmeticBistream _ 1) as [[b st]|f'] eqn:E; [discriminate|].
    intros [= <-]. eapply ReadArithmeticBistream_fault. exact E.
  - destruct (ReadArithmeticBistream _ 1) as [[b st]|f'] eqn:E; [discriminate|].
    intros [= <-]. eapply ReadArithmeticBistream_fault. exact E.
Qed.

Lemma e1e2_Ok fuel : forall state state',
  DecompressArithmeticSymbol_e1e2 fuel state = Ok state' ->
  Arithmetic_ordered state ->
  Arithmetic_ordered state'
  /\ ArithmeticState.lowValue state' < range50Percent <= ArithmeticState.highValue state'
  /\ ArithmeticState.total state' = ArithmeticState.total state.
Proof.
  induction fuel as [|fuel IH]; intros state state' H Hord; [discriminate|].
  cbn [DecompressArithmeticSymbol_e1e2] in H.
  destruct ((ArithmeticState.highValue state <? range50Percent)
            || (range50Percent <=? ArithmeticState.lowValue state)) eqn:Ec.
  - apply bind_Ok in H as [state1 [H1 H]].
    apply e1e2_trip in H1 as (Hord1 & Ht1 & _); [|exact Ec|exact Hord].
    apply IH in H as (Ho & Hr & Ht); [|exact Hord1].
    split; [exact Ho|]. split; [exact Hr|]. congruence.
  - injection H as <-. apply orb_false_iff in Ec as [E1 E2].
    apply Z.ltb_ge in E1. apply Z.leb_gt in E2. split; [exact Hord|]. lia.
Qed.

Lemma e3_trip state b state1 :
  ReadArithmeticBistream
    (ArithmeticState.set_highValue
       (wrap32 (2 * wrap32 (ArithmeticState.highValue state - range25Percent) + 1))
       (ArithmeticState.set_lowValue
          (wrap32 (2 * wrap32 (ArithmeticState.lowValue state - range25Percent))) state))
    1 = Ok (b, state1) ->
  range25Percent <= ArithmeticState.lowValue state ->
  ArithmeticState.highValue state < range75Percent ->
  Arithmetic_ordered state ->
  let state2 :=
    ArithmeticState.set_buffer
      (wrap32 (2 * wrap32 (ArithmeticState.buffer state1 - range25Percent) + b)) state1 in
  Arithmetic_ordered state2
  /\ ArithmeticState.total state2 = ArithmeticState.total state
  /\ ArithmeticState.highValue state2 - ArithmeticState.lowValue state2 + 1
     = 2 * (ArithmeticState.highValue state - ArithmeticState.lowValue state + 1)
  /\ (ArithmeticState.lowValue state < range50Percent <= ArithmeticState.highValue state ->
      ArithmeticState.lowValue state2 < range50Percent
      <= ArithmeticState.highValue state2).
Proof.
  unfold Arithmetic_ordered. intros Hr E1 E2 (Hl & Hb & Hh).
  assert (R100 : range100Percent = 4 * 2 ^ 29) by reflexivity.
  assert (R75 : range75Percent = 3 * 2 ^ 29) by reflexivity.
  assert (R50 : range50Percent = 2 * 2 ^ 29) by reflexivity.
  assert (R25 : range25Percent = 2 ^ 29) by reflexivity.
  rewrite R100 in *. rewrite R75 in *. rewrite R50 in *. rewrite R25 in *.
  clear R100 R75 R50 R25.
  assert (P32 : 2 ^ 32 = 8 * 2 ^ 29) by reflexivity.
  assert (P29 : 0 < 2 ^ 29) by reflexivity.
  set (q := 2 ^ 29) in *. clearbody q.
  apply ReadArithmeticBistream_Ok in Hr as (Hb01 & Hl1 & Hh1 & Hbuf1 & Ht1).
  arith_fields. rewrite Hl1, Hh1, Hbuf1, Ht1.
  rewrite (wrap32_small (ArithmeticState.lowValue state - q)) by lia.
  rewrite (wrap32_small (ArithmeticState.highValue state - q)) by lia.
  rewrite (wrap32_small (ArithmeticState.buffer state - q)) by lia.
  rewrite !wrap32_small by lia. lia.
Qed.

Lemma e3_Ok fuel : forall state state',
  DecompressArithmeticSymbol_e3 fuel state = Ok state' ->
  Arithmetic_ordered state ->
  ArithmeticState.lowValue state < range50Percent <= ArithmeticState.highValue state ->
  Arithmetic_ordered state'
  /\ ArithmeticState.lowValue state' < range50Percent <= ArithmeticState.highValue state'
  /\ (ArithmeticState.lowValue state' < range25Percent
      \/ range75Percent <= ArithmeticState.highValue state')
  /\ ArithmeticState.total state' = ArithmeticState.total state.
Proof.
  induction fuel as [|fuel IH]; intros state state' H Hord Hmid; [discriminate|].
  cbn [DecompressArithmeticSymbol_e3] in H.
  destruct ((range25Percent <=? ArithmeticState.lowValue state)
            && (ArithmeticState.highValue state <? range75Percent)) eqn:Ec.
  - apply andb_true_iff in Ec as [E1 E2]. apply Z.leb_le in E1. apply Z.ltb_lt in E2.
    cbv zeta in H. apply bind_Ok in H as [[b st] [Hb H]].
    destruct (e3_trip state b st Hb E1 E2 Hord) as (Hord2 & Ht2 & _ & Hmid2).
    apply IH in H as (Ho & Hm & Hq & Ht); [|exact Hord2|exact (Hmid2 Hmid)].
    split; [exact Ho|]. split; [exact Hm|]. split; [exact Hq|]. congruence.
  - injection H as <-. apply andb_false_iff in Ec.
    split; [exact Hord|]. split; [exact Hmid|]. split; [|reflexivity].
    destruct Ec as [E|E]; [apply Z.leb_gt in E | apply Z.ltb_ge in E]; lia.
Qed.

(** The scaling loops double the width of the range on every trip, so 32
    trips are more than either of them can make. *)
Lemma e1e2_fuel fuel : forall state,
  Arithmetic_ordered state ->
  2 ^ 31 < (ArithmeticState.highValue state - ArithmeticState.lowValue state + 1)
           * 2 ^ Z.of_nat fuel ->
  (exists state', DecompressArithmeticSymbol_e1e2 fuel state = Ok state')
  \/ DecompressArithmeticSymbol_e1e2 fuel state = Err SourceOverrun.
Proof.
  induction fuel as [|fuel IH]; intros state Hord Hw.
  { exfalso. unfold Arithmetic_ordered in Hord.
    assert (R100 : range100Percent = 2 ^ 31) by reflexivity. rewrite R100 in Hord.
    change (2 ^ Z.of_nat 0) with 1 in Hw. lia. }
  cbn [DecompressArithmeticSymbol_e1e2].
  rewrite Nat2Z.inj_succ, Z.pow_succ_r in Hw by lia.
  destruct ((ArithmeticState.highValue state <? range50Percent)
            || (range50Percent <=? ArithmeticState.lowValue state)) eqn:Ec; [|eauto].
  match goal with |- context [bind ?m _] => destruct m as [state1|f] eqn:E1 end.
  - apply e1e2_trip in E1 as (Hord1 & _ & Hw1); [|exact Ec|exact Hord].
    cbn [bind]. apply IH; [exact Hord1|]. rewrite Hw1. lia.
  - apply e1e2_trip_fault in E1. subst f. right. reflexivity.
Qed.

Lemma e3_fuel fuel : forall state,
  Arithmetic_ordered state ->
  2 ^ 31 < (ArithmeticState.highValue state - ArithmeticState.lowValue state + 1)
           * 2 ^ Z.of_nat fuel ->
  (exists state', DecompressArithmeticSymbol_e3 fuel state = Ok state')
  \/ DecompressArithmeticSymbol_e3 fuel state = Err SourceOverrun.
Proof.
  induction fuel as [|fuel IH]; intros state Hord Hw.
  { exfalso. unfold Arithmetic_ordered in Hord.
    assert (R100 : range100Percent = 2 ^ 31) by reflexivity. rewrite R100 in Hord.
    change (2 ^ Z.of_nat 0) with 1 in Hw. lia. }
  cbn [DecompressArithmeticSymbol_e3].
  rewrite Nat2Z.inj_succ, Z.pow_succ_r in Hw by lia.
  destruct ((range25Percent <=? ArithmeticState.lowValue state)
            && (ArithmeticState.highValue state <? range75Percent)) eqn:Ec; [|eauto].
  apply andb_true_iff in Ec as [E1 E2]. apply Z.leb_le in E1. apply Z.ltb_lt in E2.
  cbv zeta.
  match goal with |- context [bind ?m _] => destruct m as [[b st]|f] eqn:Eb end.
  - destruct (e3_trip state b st Eb E1 E2 Hord) as (Hord2 & _ & Hw2 & _).
    cbn [bind]. apply IH; [exact Hord2|]. rewrite Hw2. lia.
  - apply ReadArithmeticBistream_fault in Eb. subst f. right. reflexivity.
Qed.

Lemma ReadBitstream_nonneg bs k v bs' : ReadBitstream bs k = Ok (v, bs') -> 0 <= v.
Proof.
  unfold ReadBitstream. assert (H0 : 0 <= 0) by lia. revert H0.
  generalize 0 at 2 3 as v0. revert bs.
  induction (Z.to_nat k) as [|n IH]; intros bs v0 Hv0 H; simpl in H.
  - injection H as <- <-. exact Hv0.
  - apply bind_Ok in H as [[b bs1] [Hb H]].
    apply ReadBitstream_bit_Ok in Hb as (Hb & _ & _).
    apply IH in H; [exact H|].
    apply Z.lor_nonneg. pose proof (wrap32_range (Z.shiftl v0 1)). lia.
Qed.

Lemma LookupArithmeticLowMemoryCount_loop_Ok fuel :
  forall bs cum b1 lc hc sym i sym' lc' hc' bs',
  LookupArithmeticLowMemoryCount_loop fuel bs cum b1 lc hc sym i
  = Ok (sym', lc', hc', bs') ->
  0 <= lc <= cum -> 0 <= hc ->
  0 <= lc' <= cum /\ cum < hc'.
Proof.
  induction fuel as [|fuel IH]; intros bs cum b1 lc hc sym i sym' lc' hc' bs' H Hlc Hhc;
    [discriminate|].
  simpl in H. destruct (hc <=? cum) eqn:Ec.
  - apply Z.leb_le in Ec.
    apply bind_Ok in H as [[decision bs1] [_ H]].
    apply bind_Ok in H as [[xi bs2] [_ H]].
    apply IH in H; [exact H | lia | apply wrap32_range].
  - apply Z.leb_gt in Ec. injection H as <- <- <- <-. lia.
Qed.

Lemma LookupArithmeticLowMemoryCount_Ok fuel state cum sym lc hc state' :
  LookupArithmeticLowMemoryCount fuel state cum = Ok (sym, lc, hc, state') ->
  0 <= cum -> 0 < hc ->
  (0 <= lc <= cum /\ cum < hc)
  /\ exists bs, state' = ArithmeticState.set_bitstream bs state.
Proof.
  intros H Hcum Hhc. unfold LookupArithmeticLowMemoryCount in H. cbv zeta in H.
  apply bind_Ok in H as [[len bs1] [_ H]].
  apply bind_Ok in H as [[[[sym1 lc1] hc1] bs2] [Hl H]].
  injection H as <- <- <- <-. split; [|eauto].
  destruct (negb (len =? 0)).
  - apply bind_Ok in Hl as [[b1 bs3] [_ Hl]].
    apply bind_Ok in Hl as [[xi bs4] [Hxi Hl]].
    apply ReadBitstream_nonneg in Hxi.
    apply LookupArithmeticLowMemoryCount_loop_Ok in Hl; [exact Hl | lia | exact Hxi].
  - injection Hl as <- <- <- <-. lia.
Qed.

Lemma divu_Ok a b q : divu a b = Ok q -> b <> 0 /\ q = a / b.
Proof.
  unfold divu. destruct (b =? 0) eqn:E; [discriminate|].
  intros [= <-]. apply Z.eqb_neq in E. auto.
Qed.

Lemma Arithmetic_invariant_ordered state : Arithmetic_invariant state -> Arithmetic_ordered state.
Proof. unfold Arithmetic_invariant, Arithmetic_ordered. tauto. Qed.

(** The narrowing of the range by [DecompressArithmeticSymbol] keeps
    [low <= buffer <= high] inside the old range. *)
Lemma narrowed_ordered state step cum lc hc :
  Arithmetic_invariant state ->
  DecompressArithmeticSymbol_cumCount state = Ok (step, cum) ->
  0 <= lc <= cum -> cum < hc <= ArithmeticState.total state ->
  0 <= cum
  /\ let low := ArithmeticState.lowValue state in
     let high' := wrap32 (low + wrap32 (step * hc) - 1) in
     let low' := wrap32 (low + wrap32 (step * lc)) in
     0 <= low' /\ low' <= ArithmeticState.buffer state <= high' /\ high' < range100Percent.
Proof.
  unfold Arithmetic_invariant, range100Percent, range25Percent.
  intros (Ht & Hl & Hh & Hlh & Hb & Hw) Hc Hlc Hhc.
  unfold DecompressArithmeticSymbol_cumCount in Hc.
  apply bind_Ok in Hc as [step' [Hs Hc]]. apply bind_Ok in Hc as [cum' [Hcum Hc]].
  injection Hc as -> ->.
  apply divu_Ok in Hs as [_ Hs]. apply divu_Ok in Hcum as [Hs0 Hcum].
  rewrite wrap32_small in Hs by lia. rewrite wrap32_small in Hcum by lia.
  set (W := ArithmeticState.highValue state - ArithmeticState.lowValue state + 1) in *.
  set (D := ArithmeticState.buffer state - ArithmeticState.lowValue state) in *.
  set (T := ArithmeticState.total state) in *.
  assert (Hstep : 0 < step).
  { assert (0 <= step) by (subst step; apply Z.div_pos; lia). lia. }
  assert (HstepT : step * T <= W).
  { subst step. rewrite Z.mul_comm. apply Z.mul_div_le. lia. }
  assert (HD : step * cum <= D < step * (cum + 1)).
  { pose proof (Z.div_mod D step Hs0) as Hdm.
    pose proof (Z.mod_pos_bound D step Hstep) as Hm.
    rewrite <- Hcum in Hdm. nia. }
  assert (Hcum0 : 0 <= cum) by (subst cum; apply Z.div_pos; lia).
  split; [exact Hcum0|]. cbv zeta.
  assert (H1 : 0 <= step * lc <= step * cum) by nia.
  assert (H2 : step * (cum + 1) <= step * hc <= step * T) by nia.
  rewrite (wrap32_small (step * hc)) by lia.
  rewrite (wrap32_small (step * lc)) by lia.
  rewrite !wrap32_small by lia. lia.
Qed.

Lemma cumCount_nonneg state step cum :
  Arithmetic_invariant state ->
  DecompressArithmeticSymbol_cumCount state = Ok (step, cum) -> 0 <= cum.
Proof.
  unfold Arithmetic_invariant, range100Percent, range25Percent.
  intros (Ht & Hl & Hh & Hlh & Hb & Hw) Hc.
  unfold DecompressArithmeticSymbol_cumCount in Hc.
  apply bind_Ok in Hc as [step' [Hs Hc]]. apply bind_Ok in Hc as [cum' [Hcum Hc]].
  injection Hc as -> ->.
  apply divu_Ok in Hs as [_ Hs]. apply divu_Ok in Hcum as [Hs0 Hcum].
  rewrite wrap32_small in Hs by lia. rewrite wrap32_small in Hcum by lia.
  assert (0 <= step) by (subst step; apply Z.div_pos; lia).
  subst cum. apply Z.div_pos; lia.
Qed.

Lemma DecodeUniversalLomont1_data fuel bs cs dc v bs' :
  DecodeUniversalLomont1 fuel bs cs dc = Ok (v, bs') -> data bs' = data bs.
Proof.
  unfold DecodeUniversalLomont1. generalize 0 at 1 as v0. generalize 0 as shift.
  revert bs cs.
  induction fuel as [|fuel IH]; intros bs cs shift v0 H; [discriminate|].
  cbn [DecodeUniversalLomont1_loop] in H.
  apply bind_Ok in H as [[b bs1] [H1 H]]. apply bind_Ok in H as [[chunk bs2] [H2 H]].
  apply bind_Ok in H as [sh [_ H]]. apply bind_Ok in H as [shift' [_ H]].
  apply bind_Ok in H as [cs' [_ H]].
  apply ReadBitstream_data in H1, H2.
  destruct (b =? 0).
  - injection H as _ <-. congruence.
  - apply IH in H. congruence.
Qed.

Lemma LookupArithmeticLowMemoryCount_delta_data fuel : forall bs delta delta' bs',
  LookupArithmeticLowMemoryCount_delta fuel bs delta = Ok (delta', bs') ->
  data bs' = data bs.
Proof.
  induction fuel as [|fuel IH]; intros bs delta delta' bs' H; [discriminate|].
  cbn [LookupArithmeticLowMemoryCount_delta] in H.
  apply bind_Ok in H as [[decision bs1] [H1 H]]. apply ReadBitstream_data in H1.
  destruct (decision =? 0).
  - injection H as _ <-. exact H1.
  - apply IH in H. congruence.
Qed.

Lemma LookupArithmeticLowMemoryCount_loop_data fuel :
  forall bs cum b1 lc hc sym i sym' lc' hc' bs',
  LookupArithmeticLowMemoryCount_loop fuel bs cum b1 lc hc sym i
  = Ok (sym', lc', hc', bs') ->
  data bs' = data bs.
Proof.
  induction fuel as [|fuel IH]; intros bs cum b1 lc hc sym i sym' lc' hc' bs' H;
    [discriminate|].
  cbn [LookupArithmeticLowMemoryCount_loop] in H.
  destruct (hc <=? cum).
  - apply bind_Ok in H as [[decision bs1] [H1 H]]. apply ReadBitstream_data in H1.
    apply bind_Ok in H as [[xi bs2] [H2 H]].
    apply IH in H. rewrite H, <- H1. clear H IH.
    destruct (decision =? 0).
    + apply ReadBitstream_data in H2. exact H2.
    + apply bind_Ok in H2 as [[delta bs3] [H3 H2]].
      apply bind_Ok in H2 as [[xi' bs4] [H4 H2]].
      apply bind_Ok in H2 as [leading [_ H2]]. injection H2 as _ <-.
      apply LookupArithmeticLowMemoryCount_delta_data in H3.
      apply ReadBitstream_data in H4. congruence.
  - injection H as _ _ _ <-. reflexivity.
Qed.

Ltac region_fields :=
  cbn [ArithmeticState.bitstream ArithmeticState.bitLength ArithmeticState.bitsRead
       ArithmeticState.lowValue ArithmeticState.highValue ArithmeticState.buffer
       ArithmeticState.total ArithmeticState.scaling ArithmeticState.symbolMin
       ArithmeticState.tableStartBitPosition
       ArithmeticState.set_lowValue ArithmeticState.set_highValue
       ArithmeticState.set_buffer ArithmeticState.set_bitstream
       ArithmeticState.set_bitsRead position data] in *.

(** A call of [ReadArithmeticBistream] inside the region returns. *)
Lemma ReadArithmeticBistream_within k state :
  1 <= k -> Arithmetic_region_within k state ->
  exists b state',
    ReadArithmeticBistream state 1 = Ok (b, state')
    /\ Arithmetic_region_within (k - 1) state'.
Proof.
  intros Hk (Hp & Hr & Hin & Hlen & Hwrap).
  destruct state as [[p d] lo hi tot sc smin tpos buf bl br].
  unfold Arithmetic_region_within in *. region_fields.
  unfold ReadArithmeticBistream. cbv zeta. region_fields.
  rewrite (wrap32_small (br + 1)) by lia.
  destruct (br + 1 <? bl) eqn:E.
  - apply Z.ltb_lt in E.
    destruct (ReadBitstream_in_bounds p d 1 0) as [v Hv]; [lia | lia | lia |].
    unfold ReadBitstream. rewrite Hv. cbn [bind].
    rewrite (wrap32_small (p + 1)) by lia.
    eexists _, _. split; [reflexivity|]. region_fields. lia.
  - apply Z.ltb_ge in E. eexists _, _. split; [reflexivity|]. region_fields. lia.
Qed.

(** The region does not depend on the range and the buffer. *)
Lemma Arithmetic_region_within_frame k state state' :
  ArithmeticState.bitstream state' = ArithmeticState.bitstream state ->
  ArithmeticState.bitLength state' = ArithmeticState.bitLength state ->
  ArithmeticState.bitsRead state' = ArithmeticState.bitsRead state ->
  Arithmetic_region_within k state -> Arithmetic_region_within k state'.
Proof. unfold Arithmetic_region_within. intros -> -> ->. auto. Qed.

Lemma Arithmetic_region_within_le k k' state :
  k' <= k -> Arithmetic_region_within k state -> Arithmetic_region_within k' state.
Proof. unfold Arithmetic_region_within. cbv zeta. intros Hk H. lia. Qed.

Lemma e1e2_within m : forall fuel k state,
  (m <= fuel)%nat -> Z.of_nat m <= k ->
  Arithmetic_ordered state ->
  2 ^ 31 < (ArithmeticState.highValue state - ArithmeticState.lowValue state + 1)
           * 2 ^ Z.of_nat m ->
  Arithmetic_region_within k state ->
  exists state',
    DecompressArithmeticSymbol_e1e2 fuel state = Ok state'
    /\ Arithmetic_region_within (k - Z.of_nat m) state'.
Proof.
  induction m as [|m IH]; intros fuel k state Hm Hk Hord Hw Hreg.
  { exfalso. unfold Arithmetic_ordered in Hord.
    assert (R100 : range100Percent = 2 ^ 31) by reflexivity. rewrite R100 in Hord.
    change (2 ^ Z.of_nat 0) with 1 in Hw. lia. }
  destruct fuel as [|fuel]; [lia|].
  cbn [DecompressArithmeticSymbol_e1e2].
  rewrite Nat2Z.inj_succ, Z.pow_succ_r in Hw by lia.
  destruct ((ArithmeticState.highValue state <? range50Percent)
            || (range50Percent <=? ArithmeticState.lowValue state)) eqn:Ec.
  2:{ exists state. split; [reflexivity|].
      apply (Arithmetic_region_within_le k); [lia | exact Hreg]. }
  match goal with |- context [bind ?m _] =>
    assert (Htrip : exists state1, m = Ok state1
                                   /\ Arithmetic_region_within (k - 1) state1)
  end.
  { destruct (ArithmeticState.highValue state <? range50Percent);
      [|destruct (range50Percent <=? ArithmeticState.lowValue state);
        [|discriminate Ec]]; cbv zeta.
    - match goal with |- context [ReadArithmeticBistream ?s 1] =>
        destruct (ReadArithmeticBistream_within k s) as (b & st & -> & Hst);
          [lia | exact (Arithmetic_region_within_frame k state s eq_refl eq_refl eq_refl Hreg) |]
      end.
      cbn [bind]. eexists. split; [reflexivity|].
      exact (Arithmetic_region_within_frame _ st _ eq_refl eq_refl eq_refl Hst).
    - match goal with |- context [ReadArithmeticBistream ?s 1] =>
        destruct (ReadArithmeticBistream_within k s) as (b & st & -> & Hst);
          [lia | exact (Arithmetic_region_within_frame k state s eq_refl eq_refl eq_refl Hreg) |]
      end.
      cbn [bind]. eexists. split; [reflexivity|].
      exact (Arithmetic_region_within_frame _ st _ eq_refl eq_refl eq_refl Hst). }
  destruct Htrip as (state1 & Ht & Hreg1). rewrite Ht. cbn [bind].
  apply e1e2_trip in Ht as (Hord1 & _ & Hw1); [|exact Ec|exact Hord].
  destruct (IH fuel (k - 1) state1) as (state' & He & Hreg'); try lia; try assumption.
  exists state'. split; [exact He|].
  replace (k - Z.of_nat (S m)) with (k - 1 - Z.of_nat m) by lia. exact Hreg'.
Qed.

Lemma e3_within m : forall fuel k state,
  (m <= fuel)%nat -> Z.of_nat m <= k ->
  Arithmetic_ordered state ->
  2 ^ 31 < (ArithmeticState.highValue state - ArithmeticState.lowValue state + 1)
           * 2 ^ Z.of_nat m ->
  Arithmetic_region_within k state ->
  exists state',
    DecompressArithmeticSymbol_e3 fuel state = Ok state'
    /\ Arithmetic_region_within (k - Z.of_nat m) state'.
Proof.
  induction m as [|m IH]; intros fuel k state Hm Hk Hord Hw Hreg.
  { exfalso. unfold Arithmetic_ordered in Hord.
    assert (R100 : range100Percent = 2 ^ 31) by reflexivity. rewrite R100 in Hord.
    change (2 ^ Z.of_nat 0) with 1 in Hw. lia. }
  destruct fuel as [|fuel]; [lia|].
  cbn [DecompressArithmeticSymbol_e3].
  rewrite Nat2Z.inj_succ, Z.pow_succ_r in Hw by lia.
  destruct ((range25Percent <=? ArithmeticState.lowValue state)
            && (ArithmeticState.highValue state <? range75Percent)) eqn:Ec.
  2:{ exists state. split; [reflexivity|].
      apply (Arithmetic_region_within_le k); [lia | exact Hreg]. }
  apply andb_true_iff in Ec as [E1 E2]. apply Z.leb_le in E1. apply Z.ltb_lt in E2.
  cbv zeta.
  match goal with |- context [ReadArithmeticBistream ?s 1] =>
    destruct (ReadArithmeticBistream_within k s) as (b & st & Hb & Hst);
      [lia | exact (Arithmetic_region_within_frame k state s eq_refl eq_refl eq_refl Hreg) |]
  end.
  rewrite Hb. cbn [bind].
  destruct (e3_trip state b st Hb E1 E2 Hord) as (Hord2 & _ & Hw2 & _).
  cbv zeta in Hord2, Hw2.
  match goal with |- context [DecompressArithmeticSymbol_e3 fuel ?s] =>
    destruct (IH fuel (k - 1) s) as (state' & He & Hreg'); try lia; try assumption
  end.
  exists state'. split; [exact He|].
  replace (k - Z.of_nat (S m)) with (k - 1 - Z.of_nat m) by lia. exact Hreg'.
Qed.

Lemma LookupArithmeticLowMemoryCount_state fuel state cum sym lc hc state' :
  LookupArithmeticLowMemoryCount fuel state cum = Ok (sym, lc, hc, state') ->
  state' = state.
Proof.
  intros H. unfold LookupArithmeticLowMemoryCount in H. cbv zeta in H.
  apply bind_Ok in H as [[len bs1] [H1 H]].
  apply bind_Ok in H as [[[[sym1 lc1] hc1] bs2] [Hl H]].
  injection H as _ _ _ <-.
  apply DecodeUniversalLomont1_data in H1. cbn [data] in H1.
  assert (Hd : data bs2 = data (ArithmeticState.bitstream state)).
  { rewrite <- H1. destruct (negb (len =? 0)).
    - apply bind_Ok in Hl as [[b1 bs3] [H3 Hl]].
      apply bind_Ok in Hl as [[xi bs4] [H4 Hl]].
      apply DecodeUniversalLomont1_data in H3. apply ReadBitstream_data in H4.
      apply LookupArithmeticLowMemoryCount_loop_data in Hl. congruence.
    - injection Hl as _ _ _ <-. reflexivity. }
  rewrite Hd. destruct state as [[p d] ? ? ? ? ? ? ? ? ?]. reflexivity.
Qed.

(** C6. Take an arithmetic state that satisfies the invariant of the range
    coder ([total > 0], 31-bit [low], [high], [buffer] with [low < high],
    [low <= buffer <= high] and [high - low + 1 > range25Percent]) and is
    decoding a well-formed stream (the table lookup returns a count within
    [total]).  Then every return of [DecompressArithmeticSymbol] leaves a
    state that satisfies the invariant again.  And when the rest of the
    compressed region lies inside the source, the call does return, within
    32 trips of each scaling loop, with a state that satisfies the
    invariant: the e1/e2 and e3 loops end and re-establish it. *)
Theorem DecompressArithmeticSymbol_invariant (fuel : nat) (state : ArithmeticState_t) :
  Arithmetic_invariant state ->
  Arithmetic_lookup_within_total fuel state ->
  (forall symbol state',
      DecompressArithmeticSymbol fuel state = Ok (symbol, state') ->
      Arithmetic_invariant state')
  /\ ((32 <= fuel)%nat ->
      Arithmetic_region_in_source state ->
      exists symbol state',
        DecompressArithmeticSymbol fuel state = Ok (symbol, state')
        /\ Arithmetic_invariant state').
Proof.
  intros Hinv (step & cum & sym & lc & hc & state1 & Hc & Hl & Hhc).
  pose proof (cumCount_nonneg state step cum Hinv Hc) as Hcum.
  destruct (LookupArithmeticLowMemoryCount_Ok _ _ _ _ _ _ _ Hl Hcum ltac:(lia))
    as [Hlc _].
  pose proof (LookupArithmeticLowMemoryCount_state _ _ _ _ _ _ _ Hl) as ->.
  destruct (narrowed_ordered state step cum lc hc Hinv Hc ltac:(lia) ltac:(lia))
    as [_ Hnarrow]. cbv zeta in Hnarrow.
  unfold DecompressArithmeticSymbol. rewrite Hc. simpl bind. rewrite Hl. simpl bind.
  set (state2 := ArithmeticState.set_lowValue _ (ArithmeticState.set_highValue _ _)).
  assert (Hord : Arithmetic_ordered state2) by exact Hnarrow.
  assert (Htot : ArithmeticState.total state2 = ArithmeticState.total state)
    by reflexivity.
  assert (Hreg2 : forall k, Arithmetic_region_within k state ->
                            Arithmetic_region_within k state2).
  { intros k. apply Arithmetic_region_within_frame; reflexivity. }
  clearbody state2. clear Hnarrow Hl Hc.
  assert (Ht : 0 < ArithmeticState.total state) by (destruct Hinv; assumption).
  assert (Hpart : forall symbol state',
             (let* state := DecompressArithmeticSymbol_e1e2 fuel state2 in
              let* state := DecompressArithmeticSymbol_e3 fuel state in
              Ok (sym, state)) = Ok (symbol, state') ->
             Arithmetic_invariant state').
  { intros symbol state' H.
    apply bind_Ok in H as [state3 [H3 H]]. apply bind_Ok in H as [state4 [H4 H]].
    injection H as <- <-.
    apply e1e2_Ok in H3 as (Hord3 & Hmid3 & Htot3); [|exact Hord].
    apply e3_Ok in H4 as (Hord4 & Hmid4 & Hq & Htot4); [|exact Hord3|exact Hmid3].
    unfold Arithmetic_invariant, Arithmetic_ordered, range100Percent, range75Percent,
      range50Percent, range25Percent in *.
    rewrite Htot4, Htot3, Htot. lia. }
  split; [exact Hpart|].
  intros Hfuel Hreg. apply Hreg2 in Hreg.
  assert (Hw : forall st, Arithmetic_ordered st ->
                 2 ^ 31 < (ArithmeticState.highValue st - ArithmeticState.lowValue st + 1)
                          * 2 ^ Z.of_nat 32).
  { intros st Hst. unfold Arithmetic_ordered in Hst.
    change (2 ^ Z.of_nat 32) with (2 * 2 ^ 31). nia. }
  destruct (e1e2_within 32 fuel 64 state2) as (state3 & H3 & Hreg3);
    [exact Hfuel | lia | exact Hord | exact (Hw _ Hord) | exact Hreg |].
  pose proof H3 as H3'.
  apply e1e2_Ok in H3' as (Hord3 & _ & _); [|exact Hord].
  destruct (e3_within 32 fuel 32 state3) as (state4 & H4 & _);
    [exact Hfuel | lia | exact Hord3 | exact (Hw _ Hord3) | exact Hreg3 |].
  exists sym, state4.
  assert (Hres : (let* state := DecompressArithmeticSymbol_e1e2 fuel state2 in
                  let* state := DecompressArithmeticSymbol_e3 fuel state in
                  Ok (sym, state)) = Ok (sym, state4)).
  { rewrite H3. cbn [bind]. rewrite H4. reflexivity. }
  split; [exact Hres | exact (Hpart _ _ Hres)].
Qed.

Lemma DecompressArithmeticSymbol_invariant_witness :
  (let* '(_, state) :=
     DecompressArithmeticStart 8 ArithmeticState.zero arithmetic_long_stream 16 in
   DecompressArithmeticSymbol_calls 32 3 state)
  = Ok ([65; 65; 65], arithmetic_scaling_state)
  /\ DecompressArithmeticSymbol 32 arithmetic_scaling_state
     = Ok (66, ArithmeticState.mk (mkBitstream 104 arithmetic_long_stream)
                 0x04000000 0x6FFFFFFF 4 0 65 51 0x40000005 110 88)
  /\ Arithmetic_region_in_source arithmetic_scaling_state
  /\ (forall symbol state',
        DecompressArithmeticSymbol 32 arithmetic_scaling_state = Ok (symbol, state') ->
        Arithmetic_invariant state')
  /\ (exists symbol state',
        DecompressArithmeticSymbol 32 arithmetic_scaling_state = Ok (symbol, state')
        /\ Arithmetic_invariant state').
Proof.
  split; [vm_compute; reflexivity|]. split; [vm_compute; reflexivity|].
  assert (Hreg : Arithmetic_region_in_source arithmetic_scaling_state).
  { unfold Arithmetic_region_in_source, Arithmetic_region_within. simpl. lia. }
  split; [exact Hreg|].
  destruct (DecompressArithmeticSymbol_invariant 32 arithmetic_scaling_state) as [H1 H2].
  - unfold Arithmetic_invariant, range100Percent, range25Percent. simpl. lia.
  - exists 0x1B000000, 3, 66, 3, 4, arithmetic_scaling_state.
    split; [reflexivity|]. split; [vm_compute; reflexivity|]. simpl. lia.
  - split; [exact H1|]. apply H2; [lia | exact Hreg].
Defined.

(** ** LZCL coding: the token mode *)

Ltac start_steps :=
  repeat match goal with
         | H : bind _ _ = Ok _ |- _ => apply bind_Ok in H as [? [? H]]
         | H : (match ?x with _ => _ end) = Ok _ |- _ => destruct x
         | H : Ok _ = Ok _ |- _ => inversion H; subst; clear H
         end.

(** [useTokens] is cleared by the [memset] of [DecompressLZCLStart] and
    never assigned afterwards, whatever the token mode bit of the header. *)
Lemma DecompressLZCLStart_useTokens fuel source sourceLength dest destLength n state :
  DecompressLZCLStart fuel source sourceLength dest destLength = Ok (n, state) ->
  LZCLState.useTokens state = 0.
Proof.
  unfold DecompressLZCLStart. cbv zeta. intros H.
  start_steps; reflexivity.
Qed.

(** C2. On a stream whose token mode header bit is 0, the copy decision of
    [DecompressLZCLBlock] does not split a combined token.  For
    [token_mode_stream] the header is read with the token mode bit 0 and
    [useTokens] is left 0; after the two literals the decision is 1 and
    [GetLZCLDecodedToken] returns distance 5 (the whole token) and length 2
    ([actualMinLength] alone), where the split of token 5 is length 3 and
    distance 1; the block returns 2, and the one-shot decoder produces
    [97; 98; 0; 0; 3] where the stream encodes [97; 98; 97; 98; 97]. *)
Theorem DecompressLZCLBlock_token_mode_not_split :
  ReadBitstream (mkBitstream 67 token_mode_stream) 1
  = Ok (0, mkBitstream 68 token_mode_stream)
  /\ (let* '(n, state) :=
        DecompressLZCLStart 4 token_mode_stream 12 [0; 0; 0; 0; 0; 0; 0; 0] 8 in
      Ok (n, LZCLState.useTokens state, LZCLState.actualMaxDistance state,
          LZCLState.actualMinLength state))
     = Ok (5, 0, 3, 2)
  /\ (let* '(_, state) :=
        DecompressLZCLStart 4 token_mode_stream 12 [0; 0; 0; 0; 0; 0; 0; 0] 8 in
      let* '(first, state) := DecompressLZCLBlock 4 state in
      let* '(second, state) := DecompressLZCLBlock 4 state in
      let* '(decision, state) := GetLZCLDecision 4 state in
      let* '(distance, length, _) := GetLZCLDecodedToken 4 state in
      Ok (first, second, decision, distance, length))
     = Ok (1, 1, 1, 5, 2)
  /\ (5 / (3 + 1) + 2 = 3 /\ 5 mod (3 + 1) = 1)
  /\ (let* '(_, state) :=
        DecompressLZCLStart 4 token_mode_stream 12 [0; 0; 0; 0; 0; 0; 0; 0] 8 in
      let* '(_, state) := DecompressLZCLBlock 4 state in
      let* '(_, state) := DecompressLZCLBlock 4 state in
      let* '(third, state) := DecompressLZCLBlock 4 state in
      Ok (third, LZCLState.byteIndex state, LZCLState.dest state))
     = Ok (2, 4, [97; 98; 0; 0; 0; 0; 0; 0])
  /\ DecompressLZCL 10 token_mode_stream 12 [0; 0; 0; 0; 0; 0; 0; 0] 8
     = Ok (5, [97; 98; 0; 0; 3; 0; 0; 0]).
Proof. repeat split; vm_compute; reflexivity. Qed.

(** * Further properties of the decoder *)

(** ** Bitstream: long reads, split reads *)

Lemma wrap32_double_bit v b :
  0 <= b <= 1 -> Z.lor (wrap32 (Z.shiftl v 1)) b = wrap32 (2 * v) + b.
Proof.
  intros Hb. rewrite Z.shiftl_mul_pow2 by lia. change (2 ^ 1) with 2.
  rewrite (Z.mul_comm v 2). unfold wrap32.
  change (2 ^ 32) with (2 * 2 ^ 31). rewrite Zmult_mod_distr_l.
  apply lor_double_bit; [|exact Hb].
  apply Z.mod_pos_bound. lia.
Qed.

Lemma wrap32_congr a b k : a = b + k * 2 ^ 32 -> wrap32 a = wrap32 b.
Proof. intros ->. unfold wrap32. apply Z_mod_plus_full. Qed.

Lemma wrap32_quot x : wrap32 x = x - 2 ^ 32 * (x / 2 ^ 32).
Proof. unfold wrap32. apply Z.mod_eq. lia. Qed.

Lemma ReadBitstream_loop_long n : forall v p d,
  0 <= v < 2 ^ 32 ->
  0 <= p -> p + Z.of_nat n <= 8 * Z.of_nat (length d) -> p + Z.of_nat n < 2 ^ 32 ->
  ReadBitstream_loop n v (mkBitstream p d)
  = Ok (wrap32 (v * 2 ^ Z.of_nat n + msb_first_value d p n),
        mkBitstream (p + Z.of_nat n) d).
Proof.
  induction n as [|n IH]; intros v p d Hv Hp Hlen Hpos.
  - cbn [ReadBitstream_loop msb_first_value]. change (2 ^ Z.of_nat 0) with 1.
    rewrite Z.mul_1_r, !Z.add_0_r, wrap32_small by exact Hv. reflexivity.
  - cbn [ReadBitstream_loop]. rewrite ReadBitstream_bit_at by lia. cbn [bind].
    pose proof (bit_at_range d p) as Hb.
    rewrite wrap32_double_bit by exact Hb.
    rewrite (wrap32_small (p + 1)) by lia.
    rewrite IH; try lia.
    + f_equal. f_equal; [|f_equal; lia].
      cbn [msb_first_value]. rewrite Nat2Z.inj_succ, Z.pow_succ_r by lia.
      apply (wrap32_congr _ _ (- (2 * v / 2 ^ 32) * 2 ^ Z.of_nat n)).
      rewrite (wrap32_quot (2 * v)). ring.
    + unfold wrap32. change (2 ^ 32) with (2 * 2 ^ 31). rewrite Zmult_mod_distr_l.
      pose proof (Z.mod_pos_bound v (2 ^ 31)). lia.
Qed.

(** X2. A read of any width inside the array returns the MSB-first value of
    the bits modulo [2^32]: of a read wider than 32 bits only the last 32
    bits are kept; the cursor advances by the whole width. *)
Theorem ReadBitstream_long (d : list Z) (p k : Z) :
  0 <= p -> 0 <= k ->
  p + k <= 8 * Z.of_nat (length d) -> p + k < 2 ^ 32 ->
  ReadBitstream (mkBitstream p d) k
  = Ok (msb_first_value d p (Z.to_nat k) mod 2 ^ 32, mkBitstream (p + k) d).
Proof.
  intros Hp Hk Hlen Hpos. unfold ReadBitstream.
  rewrite ReadBitstream_loop_long by (rewrite ?Z2Nat.id; lia).
  rewrite Z2Nat.id by lia. reflexivity.
Qed.

Lemma ReadBitstream_long_witness :
  ReadBitstream (mkBitstream 0 [0x12; 0x34; 0x56; 0x78; 0x9A]) 36
  = Ok (0x2345678 * 16 + 9, mkBitstream 36 [0x12; 0x34; 0x56; 0x78; 0x9A]).
Proof.
  apply (ReadBitstream_long [0x12; 0x34; 0x56; 0x78; 0x9A] 0 36); simpl; lia.
Defined.

Lemma ReadBitstream_loop_app n1 : forall n2 v bs,
  ReadBitstream_loop (n1 + n2) v bs
  = (let* '(v1, bs1) := ReadBitstream_loop n1 v bs in ReadBitstream_loop n2 v1 bs1).
Proof.
  induction n1 as [|n1 IH]; intros n2 v bs; [reflexivity|].
  cbn [Nat.add ReadBitstream_loop].
  destruct (ReadBitstream_bit bs) as [[b bs1]|f]; cbn [bind]; [|reflexivity].
  apply IH.
Qed.

Lemma ReadBitstream_loop_shift n : forall v bs,
  0 <= v < 2 ^ (32 - Z.of_nat n) -> (n <= 32)%nat ->
  ReadBitstream_loop n v bs
  = (let* '(r, bs') := ReadBitstream_loop n 0 bs in Ok (v * 2 ^ Z.of_nat n + r, bs')).
Proof.
  induction n as [|n IH]; intros v bs Hv Hn.
  - cbn [ReadBitstream_loop bind]. change (2 ^ Z.of_nat 0) with 1.
    rewrite Z.mul_1_r, Z.add_0_r. reflexivity.
  - cbn [ReadBitstream_loop].
    destruct (ReadBitstream_bit bs) as [[b bs1]|f] eqn:Eb; cbn [bind]; [|reflexivity].
    apply ReadBitstream_bit_Ok in Eb as (Hb & _ & _).
    assert (Hpow : 2 ^ (32 - Z.of_nat n) = 2 * 2 ^ (32 - Z.of_nat (S n))).
    { rewrite <- Z.pow_succ_r by lia. f_equal. lia. }
    assert (Hle : 2 ^ (32 - Z.of_nat n) <= 2 ^ 32) by (apply Z.pow_le_mono_r; lia).
    assert (Hpos : 0 < 2 ^ (32 - Z.of_nat n)) by (apply Z.pow_pos_nonneg; lia).
    rewrite !wrap32_double_bit by lia.
    rewrite (wrap32_small (2 * v)) by lia.
    rewrite Z.mul_0_r, (wrap32_small 0) by lia.
    rewrite (IH (2 * v + b)) by lia. rewrite (IH (0 + b)) by lia.
    destruct (ReadBitstream_loop n 0 bs1) as [[r bs2]|f]; cbn [bind]; [|reflexivity].
    do 2 f_equal. rewrite Nat2Z.inj_succ, Z.pow_succ_r by lia. ring.
Qed.

(** X3. Reading [k1 + k2 <= 32] bits at once is reading [k1] bits and then
    [k2] bits and putting the first value above the second; failures
    included. *)
Theorem ReadBitstream_split (bs : Bitstream_t) (k1 k2 : Z) :
  0 <= k1 -> 0 <= k2 -> k1 + k2 <= 32 ->
  ReadBitstream bs (k1 + k2)
  = (let* '(v1, bs1) := ReadBitstream bs k1 in
     let* '(v2, bs2) := ReadBitstream bs1 k2 in
     Ok (v1 * 2 ^ k2 + v2, bs2)).
Proof.
  intros H1 H2 H12. unfold ReadBitstream.
  rewrite Z2Nat.inj_add, ReadBitstream_loop_app by lia.
  destruct (ReadBitstream_loop (Z.to_nat k1) 0 bs) as [[v1 bs1]|f] eqn:E1;
    cbn [bind]; [|reflexivity].
  apply (ReadBitstream_loop_bound _ _ _ _ _ 0) in E1; try lia.
  rewrite Z2Nat.id in E1 by lia.
  assert (Hle : 2 ^ (0 + k1) <= 2 ^ (32 - Z.of_nat (Z.to_nat k2)))
    by (apply Z.pow_le_mono_r; lia).
  rewrite ReadBitstream_loop_shift by lia.
  rewrite Z2Nat.id by lia. reflexivity.
Qed.

Lemma ReadBitstream_split_witness :
  ReadBitstream (mkBitstream 4 [0x12; 0x34; 0x56]) (4 + 8)
  = (let* '(v1, bs1) := ReadBitstream (mkBitstream 4 [0x12; 0x34; 0x56]) 4 in
     let* '(v2, bs2) := ReadBitstream bs1 8 in
     Ok (v1 * 2 ^ 8 + v2, bs2)).
Proof.
  apply (ReadBitstream_split (mkBitstream 4 [0x12; 0x34; 0x56]) 4 8); lia.
Defined.

(** ** Bit utilities *)

Lemma top_run_smear m k x :
  0 < m -> 0 <= k -> top_run m k x -> top_run (2 * m) k (Z.lor x (Z.shiftr x m)).
Proof.
  intros Hm Hk [Hhigh Hrun]. split.
  - intros i Hi. rewrite Z.lor_spec, Z.shiftr_spec by lia.
    rewrite (Hhigh i), (Hhigh (i + m)) by lia. reflexivity.
  - intros i Hi0 Hi. rewrite Z.lor_spec, Z.shiftr_spec by lia.
    destruct (Z_lt_le_dec (k - m) i) as [Hin|Hout].
    + rewrite (Hrun i) by lia. reflexivity.
    + rewrite (Hrun (i + m)) by lia. apply orb_true_r.
Qed.

Lemma top_run_ones k x : 0 <= k < 32 -> top_run 32 k x -> x = Z.ones (k + 1).
Proof.
  intros Hk [Hhigh Hrun]. apply Z.bits_inj'. intros n Hn.
  destruct (Z_lt_le_dec k n) as [Hgt|Hle].
  - rewrite Hhigh by lia. symmetry. apply Z.ones_spec_high. lia.
  - rewrite Hrun by lia. symmetry. apply Z.ones_spec_low. lia.
Qed.

Lemma OnesCount_ones k : 0 <= k < 32 -> OnesCount (Z.ones k) = k.
Proof.
  intros Hk. rewrite <- (Z2Nat.id k) by lia.
  assert (Hn : (Z.to_nat k < 32)%nat) by lia.
  generalize dependent (Z.to_nat k). clear k Hk. intros n Hn.
  do 32 (destruct n as [|n]; [vm_compute; reflexivity|]). lia.
Qed.

Lemma FloorLog2_eq_log2 (value : Z) :
  0 <= value < 2 ^ 32 -> FloorLog2 value = Z.log2 value.
Proof.
  intros Hv. destruct (Z.eq_dec value 0) as [-> | Hnz]; [reflexivity|].
  assert (Hk : 0 <= Z.log2 value < 32).
  { split; [apply Z.log2_nonneg|]. apply Z.log2_lt_pow2; lia. }
  assert (H1 : top_run 1 (Z.log2 value) value).
  { split.
    - intros i Hi. apply Z.bits_above_log2; lia.
    - intros i _ Hi. replace i with (Z.log2 value) by lia. apply Z.bit_log2. lia. }
  apply (top_run_smear 1) in H1; [|lia|lia].
  apply (top_run_smear 2) in H1; [|lia|lia].
  apply (top_run_smear 4) in H1; [|lia|lia].
  apply (top_run_smear 8) in H1; [|lia|lia].
  apply (top_run_smear 16) in H1; [|lia|lia].
  apply top_run_ones in H1; [|exact Hk].
  unfold FloorLog2. cbv zeta. rewrite H1.
  rewrite Z.shiftr_div_pow2, Z.ones_div_pow2 by lia.
  replace (Z.log2 value + 1 - 1) with (Z.log2 value) by lia.
  apply OnesCount_ones. exact Hk.
Qed.

(** X4. On every [uint32_t], [FloorLog2] is the floor of the binary
    logarithm (0 for 0) and lies in [0, 32). *)
Theorem FloorLog2_log2 (value : Z) :
  0 <= value < 2 ^ 32 -> FloorLog2 value = Z.log2 value /\ 0 <= FloorLog2 value < 32.
Proof.
  intros Hv. rewrite FloorLog2_eq_log2 by exact Hv. split; [reflexivity|].
  split; [apply Z.log2_nonneg|].
  destruct (Z.eq_dec value 0) as [-> | Hnz]; [reflexivity|].
  apply Z.log2_lt_pow2; lia.
Qed.

Lemma FloorLog2_log2_witness :
  FloorLog2 1000 = Z.log2 1000 /\ 0 <= FloorLog2 1000 < 32.
Proof. apply (FloorLog2_log2 1000). lia. Defined.

(** X5. On every [uint32_t], [BitsRequired] is one more than the floor of
    the binary logarithm: between 1 and 32, enough bits to hold the value,
    and no more than needed for a positive value. *)
Theorem BitsRequired_fits (value : Z) :
  0 <= value < 2 ^ 32 ->
  BitsRequired value = 1 + Z.log2 value
  /\ 1 <= BitsRequired value <= 32
  /\ value < 2 ^ BitsRequired value
  /\ (0 < value -> 2 ^ (BitsRequired value - 1) <= value).
Proof.
  intros Hv. unfold BitsRequired. rewrite FloorLog2_eq_log2 by exact Hv.
  assert (Hk : 0 <= Z.log2 value < 32).
  { split; [apply Z.log2_nonneg|].
    destruct (Z.eq_dec value 0) as [-> | Hnz]; [reflexivity|].
    apply Z.log2_lt_pow2; lia. }
  rewrite wrap32_small by lia.
  split; [reflexivity|]. split; [lia|]. split.
  - destruct (Z.eq_dec value 0) as [-> | Hnz]; [reflexivity|].
    replace (1 + Z.log2 value) with (Z.succ (Z.log2 value)) by lia.
    apply Z.log2_spec. lia.
  - intros Hpos. replace (1 + Z.log2 value - 1) with (Z.log2 value) by lia.
    apply Z.log2_spec. lia.
Qed.

Lemma BitsRequired_fits_witness :
  BitsRequired 255 = 1 + Z.log2 255
  /\ 1 <= BitsRequired 255 <= 32
  /\ 255 < 2 ^ BitsRequired 255
  /\ (0 < 255 -> 2 ^ (BitsRequired 255 - 1) <= 255).
Proof. apply (BitsRequired_fits 255). lia. Defined.

(** ** Universal coding: the number of trips *)

Lemma shl32_cases x s :
  (0 <= s < 32 /\ shl32 x s = Ok (wrap32 (Z.shiftl x s)))
  \/ ((s < 0 \/ 32 <= s) /\ shl32 x s = Err UndefinedOp).
Proof.
  unfold shl32. destruct ((0 <=? s) && (s <? 32)) eqn:E.
  - left. apply andb_true_iff in E as [E1 E2].
    apply Z.leb_le in E1. apply Z.ltb_lt in E2. split; [lia | reflexivity].
  - right. apply andb_false_iff in E as [E|E];
      [apply Z.leb_gt in E | apply Z.ltb_ge in E]; (split; [lia | reflexivity]).
Qed.

Lemma DecodeUniversalLomont1_loop_trips fuel : forall extra bs v shift cs dc,
  1 <= cs <= INT_MAX -> (1 <= fuel)%nat -> 32 - shift < Z.of_nat fuel ->
  DecodeUniversalLomont1_loop fuel bs v shift cs dc <> Err OutOfFuel
  /\ DecodeUniversalLomont1_loop (fuel + extra) bs v shift cs dc
     = DecodeUniversalLomont1_loop fuel bs v shift cs dc.
Proof.
  induction fuel as [|fuel IH]; intros extra bs v shift cs dc Hcs Hf Hs; [lia|].
  cbn [Nat.add DecodeUniversalLomont1_loop].
  destruct (ReadBitstream bs 1) as [[b bs1]|f] eqn:Eb; cbn [bind].
  2:{ apply ReadBitstream_fault in Eb. subst f. split; [discriminate | reflexivity]. }
  destruct (ReadBitstream bs1 (wrap32 cs)) as [[chunk bs2]|f] eqn:Ec; cbn [bind].
  2:{ apply ReadBitstream_fault in Ec. subst f. split; [discriminate | reflexivity]. }
  destruct (shl32_cases chunk shift) as [[Hsh ->] | [Hsh ->]]; cbn [bind];
    [|split; [discriminate | reflexivity]].
  destruct (int_add_cases shift cs) as [-> | [-> Hsum]]; cbn [bind];
    [split; [discriminate | reflexivity]|].
  destruct (Lomont1_nextChunkSize_spec cs dc Hcs) as [-> | [-> Hcs']]; cbn [bind];
    [split; [discriminate | reflexivity]|].
  destruct (b =? 0); [split; [discriminate | reflexivity]|].
  apply IH; [exact Hcs' | lia | lia].
Qed.

(** X6. With a chunk size of at least 1, a run of
    [DecodeUniversalLomont1] makes at most 32 trips before it returns, reads
    past the source or shifts by 32 or more: a budget of 33 trips is never
    exhausted, and a larger budget changes nothing. *)
Theorem DecodeUniversalLomont1_trips (fuel : nat) (bs : Bitstream_t) (chunkSize deltaChunk : Z) :
  1 <= chunkSize <= INT_MAX -> (33 <= fuel)%nat ->
  DecodeUniversalLomont1 fuel bs chunkSize deltaChunk <> Err OutOfFuel
  /\ DecodeUniversalLomont1 fuel bs chunkSize deltaChunk
     = DecodeUniversalLomont1 33 bs chunkSize deltaChunk.
Proof.
  intros Hcs Hf. unfold DecodeUniversalLomont1.
  destruct (DecodeUniversalLomont1_loop_trips 33 (fuel - 33) bs 0 0 chunkSize deltaChunk)
    as [H1 H2]; [exact Hcs | lia | lia |].
  replace (33 + (fuel - 33))%nat with fuel in H2 by lia.
  rewrite H2. split; [exact H1 | reflexivity].
Qed.

Lemma DecodeUniversalLomont1_trips_witness :
  DecodeUniversalLomont1 40 (InitializeBitstream [0xD5; 0xED]) 4 (-1) <> Err OutOfFuel
  /\ DecodeUniversalLomont1 40 (InitializeBitstream [0xD5; 0xED]) 4 (-1)
     = DecodeUniversalLomont1 33 (InitializeBitstream [0xD5; 0xED]) 4 (-1).
Proof.
  apply (DecodeUniversalLomont1_trips 40 (InitializeBitstream [0xD5; 0xED]) 4 (-1));
    unfold INT_MAX; lia.
Defined.

(** ** The size announced by the header *)

Ltac bind_steps :=
  repeat match goal with
         | H : bind _ _ = Ok _ |- _ => apply bind_Ok in H as [? [? H]]
         | H : (match ?x with _ => _ end) = Ok _ |- _ => destruct x
         | H : Ok _ = Ok _ |- _ => inversion H; subst; clear H
         end.

Lemma ParseHuffmanTable_byteLength state state' :
  ParseHuffmanTable state = Ok state' ->
  HuffmanState.byteLength state' = HuffmanState.byteLength state
  /\ HuffmanState.bitsPerSymbol state' = HuffmanState.bitsPerSymbol state.
Proof.
  unfold ParseHuffmanTable. cbv zeta. intros H. bind_steps. split; reflexivity.
Qed.

Lemma DecompressHuffmanStart_header fuel state0 source sourceLength state :
  DecompressHuffmanStart fuel state0 source sourceLength = Ok state ->
  exists bs, DecodeUniversalLomont1 fuel (InitializeBitstream source) 6 0
             = Ok (HuffmanState.byteLength state, bs).
Proof.
  unfold DecompressHuffmanStart, ReadHuffmanHeaderNoLength. cbv zeta. intros H.
  apply bind_Ok in H as [[v bs] [H0 H]].
  apply bind_Ok in H as [[v1 bs1] [_ H]]. apply bind_Ok in H as [[v2 bs2] [_ H]].
  apply bind_Ok in H as [[v3 bs3] [_ H]]. apply bind_Ok in H as [[v4 bs4] [_ H]].
  apply ParseHuffmanTable_byteLength in H as [H _]. cbn in H. rewrite H.
  exists bs. exact H0.
Qed.

Lemma ReadArithmeticHeaderNoLength_buffer_total n : forall state state',
  ReadArithmeticHeaderNoLength_buffer n state = Ok state' ->
  ArithmeticState.total state' = ArithmeticState.total state.
Proof.
  induction n as [|n IH]; intros state state' H.
  - injection H as <-. reflexivity.
  - cbn [ReadArithmeticHeaderNoLength_buffer] in H.
    apply bind_Ok in H as [[b st] [Hb H]].
    apply ReadArithmeticBistream_Ok in Hb as (_ & _ & _ & _ & Ht).
    apply IH in H. cbn in H. congruence.
Qed.

Lemma DecodeArithmeticTable_total fuel state state' :
  DecodeArithmeticTable fuel state = Ok state' ->
  ArithmeticState.total state' = ArithmeticState.total state.
Proof.
  unfold DecodeArithmeticTable. cbv zeta. intros H. bind_steps. reflexivity.
Qed.

Lemma DecompressArithmeticStart_header fuel state0 source sourceLength n state :
  DecompressArithmeticStart fuel state0 source sourceLength = Ok (n, state) ->
  n = ArithmeticState.total state
  /\ exists bs, DecodeUniversalLomont1 fuel (InitializeBitstream source) 6 0 = Ok (n, bs).
Proof.
  unfold DecompressArithmeticStart, ReadArithmeticHeaderNoLength. cbv zeta. intros H.
  apply bind_Ok in H as [[v bs] [H0 H]].
  apply bind_Ok in H as [[v1 bs1] [_ H]].
  apply bind_Ok in H as [st1 [Ht H]]. apply bind_Ok in H as [st2 [Hb H]].
  injection H as <- <-.
  apply DecodeArithmeticTable_total in Ht.
  apply ReadArithmeticHeaderNoLength_buffer_total in Hb.
  cbn in Ht, Hb. split; [reflexivity|]. exists bs. rewrite Hb, Ht. exact H0.
Qed.

(** X7. Whenever the start function of a codec succeeds on a source,
    [GetDecompressedSize] succeeds on it too and returns the count the codec
    stored: [byteLength] for Huffman, LZ77 and LZCL, [total] for
    Arithmetic. *)
Theorem GetDecompressedSize_agrees (fuel : nat) (source : list Z) (sourceLength : Z)
    (dest : list Z) (destLength : Z) :
  (forall state0 state,
      DecompressHuffmanStart fuel state0 source sourceLength = Ok state ->
      GetDecompressedSize fuel source = Ok (HuffmanState.byteLength state))
  /\ (forall state0 n state,
        DecompressArithmeticStart fuel state0 source sourceLength = Ok (n, state) ->
        GetDecompressedSize fuel source = Ok n /\ ArithmeticState.total state = n)
  /\ (forall state,
        DecompressLZ77Start fuel source sourceLength dest destLength = Ok state ->
        GetDecompressedSize fuel source = Ok (LZ77State.byteLength state))
  /\ (forall n state,
        DecompressLZCLStart fuel source sourceLength dest destLength = Ok (n, state) ->
        GetDecompressedSize fuel source = Ok n /\ LZCLState.byteLength state = n).
Proof.
  unfold GetDecompressedSize. cbv zeta. split; [|split; [|split]].
  - intros state0 state H. apply DecompressHuffmanStart_header in H as [bs ->].
    reflexivity.
  - intros state0 n state H.
    apply DecompressArithmeticStart_header in H as [-> [bs ->]]. split; reflexivity.
  - intros state H. unfold DecompressLZ77Start in H. cbv zeta in H.
    apply bind_Ok in H as [[v bs] [H0 H]]. rewrite H0. bind_steps. reflexivity.
  - intros n state H. unfold DecompressLZCLStart in H. cbv zeta in H.
    apply bind_Ok in H as [[v bs] [H0 H]]. cbn in H0. rewrite H0.
    bind_steps; split; reflexivity.
Qed.

Lemma GetDecompressedSize_agrees_witness :
  GetDecompressedSize 4 aba_stream = Ok (HuffmanState.byteLength aba_state)
  /\ GetDecompressedSize 8 arithmetic_stream = Ok 4
  /\ GetDecompressedSize 4 token_mode_stream = Ok 5.
Proof.
  split; [|split].
  - apply (proj1 (GetDecompressedSize_agrees 4 aba_stream 6 [] 0) HuffmanState.zero).
    reflexivity.
  - apply (proj1 (proj2 (GetDecompressedSize_agrees 8 arithmetic_stream 14 [] 0))
             ArithmeticState.zero 4 arithmetic_start_state).
    reflexivity.
  - apply (proj2 (proj2 (proj2 (GetDecompressedSize_agrees 4 token_mode_stream 12
                                   [0; 0; 0; 0; 0; 0; 0; 0] 8)))
             5 (match DecompressLZCLStart 4 token_mode_stream 12
                        [0; 0; 0; 0; 0; 0; 0; 0] 8 with
                | Ok (_, state) => state
                | Err _ => LZCLState.zero
                end)).
    vm_compute. reflexivity.
Defined.

(** ** The one-shot Huffman decoder and the symbol decoder *)

Lemma DecompressHuffman_loop_calls fuel : forall symbolFuel state byteIndex dest destLength n dest',
  DecompressHuffman_loop fuel symbolFuel state byteIndex dest destLength = Ok (n, dest') ->
  0 <= byteIndex <= destLength -> destLength < 2 ^ 32 ->
  byteIndex <= n
  /\ exists symbols state',
       DecompressHuffmanSymbol_calls symbolFuel (Z.to_nat (n - byteIndex)) state
       = Ok (symbols, state')
       /\ dest' = take (Z.to_nat byteIndex) dest ++ (wrap8 <$> symbols)
                  ++ drop (Z.to_nat n) dest.
Proof.
  induction fuel as [|fuel IH];
    intros symbolFuel state byteIndex dest destLength n dest' H Hbi Hdl; [discriminate|].
  cbn [DecompressHuffman_loop] in H.
  assert (Hexit : forall st, Ok (byteIndex, dest) = Ok (n, dest') ->
            byteIndex <= n
            /\ exists symbols state',
                 DecompressHuffmanSymbol_calls symbolFuel (Z.to_nat (n - byteIndex)) st
                 = Ok (symbols, state')
                 /\ dest' = take (Z.to_nat byteIndex) dest ++ (wrap8 <$> symbols)
                            ++ drop (Z.to_nat n) dest).
  { intros st [= <- <-]. split; [lia|]. exists [], st.
    rewrite Z.sub_diag. split; [reflexivity|].
    cbn [fmap list_fmap app]. symmetry. apply take_drop. }
  destruct (negb (HuffmanState.byteLength state =? 0) && (byteIndex <? destLength)) eqn:Ec;
    [|apply Hexit; exact H].
  apply andb_true_iff in Ec as [_ Ec]. apply Z.ltb_lt in Ec.
  apply bind_Ok in H as [[symbol state1] [Hs H]].
  destruct (symbol =? CL_COMPRESSOR_END_TOKEN); [apply Hexit; exact H|].
  apply bind_Ok in H as [dest1 [Hst H]].
  rewrite (wrap32_small (byteIndex + 1)) in H by lia.
  apply IH in H as (Hn & symbols & state' & Hcalls & Hdest); [|lia|lia].
  split; [lia|]. exists (symbol :: symbols), state'. split.
  - replace (Z.to_nat (n - byteIndex)) with (S (Z.to_nat (n - (byteIndex + 1)))) by lia.
    cbn [DecompressHuffmanSymbol_calls]. rewrite Hs. cbn [bind]. rewrite Hcalls.
    reflexivity.
  - unfold store in Hst.
    destruct ((0 <=? byteIndex) && (byteIndex <? Z.of_nat (length dest))) eqn:Er;
      [|discriminate].
    injection Hst as <-. apply andb_true_iff in Er as [_ Er]. apply Z.ltb_lt in Er.
    rewrite Hdest.
    replace (Z.to_nat (byteIndex + 1)) with (S (Z.to_nat byteIndex)) by lia.
    rewrite (take_S_r _ _ (wrap8 symbol)) by (apply list_lookup_insert_eq; lia).
    rewrite take_insert_ge by lia. rewrite drop_insert_lt by lia.
    rewrite <- app_assoc. reflexivity.
Qed.

(** X8. A run of the one-shot [DecompressHuffman] that returns [n] has
    written, in order from index 0, the low bytes of the [n] symbols that
    [n] calls of [DecompressHuffmanSymbol] return from the start state, and
    has left the rest of [dest] as it was. *)
Theorem DecompressHuffman_is_symbol_calls (fuel : nat) (source : list Z)
    (sourceLength : Z) (dest : list Z) (destLength : Z) (n : Z) (dest' : list Z) :
  0 <= destLength < 2 ^ 31 ->
  DecompressHuffman fuel source sourceLength dest destLength = Ok (n, dest') ->
  exists state symbols state',
    DecompressHuffmanStart fuel HuffmanState.zero source sourceLength = Ok state
    /\ DecompressHuffmanSymbol_calls fuel (Z.to_nat n) state = Ok (symbols, state')
    /\ dest' = (wrap8 <$> symbols) ++ drop (Z.to_nat n) dest.
Proof.
  intros Hdl H. unfold DecompressHuffman in H.
  apply bind_Ok in H as [state [Hstart H]].
  apply bind_Ok in H as [[n1 dest1] [Hloop H]]. injection H as <- <-.
  rewrite (wrap32_small destLength) in Hloop by lia.
  pose proof (DecompressHuffman_loop_bounded fuel fuel state 0 dest destLength
                ltac:(lia) ltac:(lia)) as [Hb _].
  destruct (Hb _ _ Hloop) as (Hn & _ & _).
  apply DecompressHuffman_loop_calls in Hloop as (_ & symbols & state' & Hcalls & Hdest);
    [|lia|lia].
  rewrite Z.sub_0_r in Hcalls. cbn [Z.to_nat take app] in Hdest.
  assert (E : to_int32 n1 = n1).
  { unfold to_int32. assert (E : (n1 <? 2 ^ 31) = true) by (apply Z.ltb_lt; lia).
    rewrite E. reflexivity. }
  rewrite E. exists state, symbols, state'. auto.
Qed.

Lemma DecompressHuffman_is_symbol_calls_witness :
  exists state symbols state',
    DecompressHuffmanStart 4 HuffmanState.zero aba_stream 6 = Ok state
    /\ DecompressHuffmanSymbol_calls 4 (Z.to_nat 2) state = Ok (symbols, state')
    /\ [65; 66; 7; 7; 7] = (wrap8 <$> symbols) ++ drop (Z.to_nat 2) [0; 0; 7; 7; 7].
Proof.
  apply (DecompressHuffman_is_symbol_calls 4 aba_stream 6 [0; 0; 7; 7; 7] 2 2);
    [lia | reflexivity].
Defined.

Lemma DecompressHuffman_loop_count fuel : forall symbolFuel state byteIndex dest destLength n dest',
  DecompressHuffman_loop fuel symbolFuel state byteIndex dest destLength = Ok (n, dest') ->
  0 <= byteIndex <= destLength -> destLength < 2 ^ 32 ->
  0 <= HuffmanState.bitsPerSymbol state < 32 ->
  0 <= HuffmanState.byteLength state < 0xFFFFFFFF ->
  n = Z.min destLength (byteIndex + HuffmanState.byteLength state).
Proof.
  induction fuel as [|fuel IH];
    intros symbolFuel state byteIndex dest destLength n dest' H Hbi Hdl Hbits Hlen;
    [discriminate|].
  cbn [DecompressHuffman_loop] in H.
  destruct (HuffmanState.byteLength state =? 0) eqn:E0.
  { apply Z.eqb_eq in E0. cbn [negb andb] in H. injection H as <- <-. lia. }
  apply Z.eqb_neq in E0. cbn [negb andb] in H.
  destruct (byteIndex <? destLength) eqn:Ec;
    [apply Z.ltb_lt in Ec | apply Z.ltb_ge in Ec; injection H as <- <-; lia].
  apply bind_Ok in H as [[symbol state1] [Hs H]].
  apply DecompressHuffmanSymbol_Ok in Hs as (Hb1 & Hend & Hl1); [|exact Hbits|lia].
  assert (E1 : (HuffmanState.byteLength state =? 0) = false) by (apply Z.eqb_neq; lia).
  assert (E2 : (HuffmanState.byteLength state =? 0xFFFFFFFF) = false)
    by (apply Z.eqb_neq; lia).
  rewrite E1, E2 in Hl1.
  destruct (symbol =? CL_COMPRESSOR_END_TOKEN) eqn:Ee.
  { apply Z.eqb_eq in Ee. apply Hend in Ee. lia. }
  apply bind_Ok in H as [dest1 [_ H]].
  rewrite (wrap32_small (byteIndex + 1)) in H by lia.
  apply IH in H; [lia | lia | lia | rewrite Hb1; exact Hbits | lia].
Qed.

(** X9. For a stream whose symbols are narrower than 32 bits and whose
    byte count is not [0xFFFFFFFF], a run of [DecompressHuffman] that
    returns, returns exactly the smaller of [destLength] and the byte count
    of the header. *)
Theorem DecompressHuffman_count (fuel : nat) (source : list Z) (sourceLength : Z)
    (dest : list Z) (destLength : Z) (state : HuffmanState_t) (n : Z) (dest' : list Z) :
  0 <= destLength < 2 ^ 31 ->
  DecompressHuffmanStart fuel HuffmanState.zero source sourceLength = Ok state ->
  0 <= HuffmanState.bitsPerSymbol state < 32 ->
  0 <= HuffmanState.byteLength state < 0xFFFFFFFF ->
  DecompressHuffman fuel source sourceLength dest destLength = Ok (n, dest') ->
  n = Z.min destLength (HuffmanState.byteLength state).
Proof.
  intros Hdl Hstart Hbits Hlen H. unfold DecompressHuffman in H.
  rewrite Hstart in H. cbn [bind] in H.
  apply bind_Ok in H as [[n1 dest1] [Hloop H]]. injection H as <- <-.
  rewrite (wrap32_small destLength) in Hloop by lia.
  apply DecompressHuffman_loop_count in Hloop; [|lia|lia|exact Hbits|exact Hlen].
  rewrite Z.add_0_l in Hloop. subst n1.
  unfold to_int32.
  assert (E : (Z.min destLength (HuffmanState.byteLength state) <? 2 ^ 31) = true)
    by (apply Z.ltb_lt; lia).
  rewrite E. reflexivity.
Qed.

Lemma DecompressHuffman_count_witness :
  2 = Z.min 2 (HuffmanState.byteLength aba_state)
  /\ 3 = Z.min 5 (HuffmanState.byteLength aba_state).
Proof.
  split.
  - apply (DecompressHuffman_count 4 aba_stream 6 [0; 0; 7; 7; 7] 2 aba_state 2
             [65; 66; 7; 7; 7]); try reflexivity; simpl; lia.
  - apply (DecompressHuffman_count 4 aba_stream 6 [0; 0; 7; 7; 7] 5 aba_state 3
             [65; 66; 65; 7; 7]); try reflexivity; simpl; lia.
Defined.

(** ** Arithmetic coding: the start state and the table lookup *)

Lemma ReadArithmeticHeaderNoLength_buffer_Ok n : forall m state state',
  ReadArithmeticHeaderNoLength_buffer n state = Ok state' ->
  0 <= m -> m + Z.of_nat n <= 32 ->
  0 <= ArithmeticState.buffer state < 2 ^ m ->
  0 <= ArithmeticState.buffer state' < 2 ^ (m + Z.of_nat n)
  /\ ArithmeticState.lowValue state' = ArithmeticState.lowValue state
  /\ ArithmeticState.highValue state' = ArithmeticState.highValue state.
Proof.
  induction n as [|n IH]; intros m state state' H Hm Hn Hb.
  - injection H as <-. rewrite Z.add_0_r. auto.
  - cbn [ReadArithmeticHeaderNoLength_buffer] in H.
    apply bind_Ok in H as [[b st] [Hr H]].
    apply ReadArithmeticBistream_Ok in Hr as (Hb01 & Hl & Hh & Hbuf & _).
    apply (IH (m + 1)) in H; [| lia | lia |].
    + cbn [ArithmeticState.lowValue ArithmeticState.highValue
           ArithmeticState.set_buffer] in H.
      replace (m + Z.of_nat (S n)) with (m + 1 + Z.of_nat n) by lia.
      rewrite <- Hl, <- Hh. exact H.
    + cbn [ArithmeticState.buffer ArithmeticState.set_buffer].
      rewrite wrap32_double_bit by exact Hb01. rewrite Hbuf.
      assert (Hle : 2 ^ m <= 2 ^ 31) by (apply Z.pow_le_mono_r; lia).
      rewrite wrap32_small by lia.
      rewrite Z.pow_add_r by lia. change (2 ^ 1) with 2. lia.
Qed.

Lemma DecodeArithmeticTable_range fuel state state' :
  DecodeArithmeticTable fuel state = Ok state' ->
  ArithmeticState.lowValue state' = ArithmeticState.lowValue state
  /\ ArithmeticState.highValue state' = ArithmeticState.highValue state.
Proof.
  unfold DecodeArithmeticTable. cbv zeta. intros H. bind_steps. split; reflexivity.
Qed.

(** X10. The state [DecompressArithmeticStart] returns has [low = 0],
    [high = 0x7FFFFFFF], a 31-bit [buffer] and the returned count as
    [total]; when that count is positive it satisfies the invariant of the
    range coder. *)
Theorem DecompressArithmeticStart_invariant (fuel : nat) (state0 : ArithmeticState_t)
    (source : list Z) (sourceLength n : Z) (state : ArithmeticState_t) :
  DecompressArithmeticStart fuel state0 source sourceLength = Ok (n, state) ->
  ArithmeticState.total state = n
  /\ ArithmeticState.lowValue state = 0
  /\ ArithmeticState.highValue state = 0x7FFFFFFF
  /\ 0 <= ArithmeticState.buffer state < 2 ^ 31
  /\ (0 < n -> Arithmetic_invariant state).
Proof.
  intros H.
  pose proof (DecompressArithmeticStart_header _ _ _ _ _ _ H) as [Hn _].
  unfold DecompressArithmeticStart, ReadArithmeticHeaderNoLength in H. cbv zeta in H.
  apply bind_Ok in H as [[v bs] [_ H]].
  apply bind_Ok in H as [[v1 bs1] [_ H]].
  apply bind_Ok in H as [st1 [Ht H]]. apply bind_Ok in H as [st2 [Hb H]].
  injection H as _ <-.
  apply DecodeArithmeticTable_range in Ht as [Hl1 Hh1].
  apply (ReadArithmeticHeaderNoLength_buffer_Ok 31 0) in Hb as (Hbuf & Hl2 & Hh2);
    [| lia | lia | cbn; lia].
  cbn in Hl1, Hh1, Hl2, Hh2. rewrite Hl1 in Hl2. rewrite Hh1 in Hh2.
  change (0 + Z.of_nat 31) with 31 in Hbuf.
  assert (Hhigh : ArithmeticState.highValue st2 = 0x7FFFFFFF) by (rewrite Hh2; reflexivity).
  split; [congruence|]. split; [exact Hl2|]. split; [exact Hhigh|]. split; [exact Hbuf|].
  intros Hpos. unfold Arithmetic_invariant.
  rewrite Hl2, Hhigh, <- Hn.
  assert (R100 : range100Percent = 2 ^ 31) by reflexivity.
  assert (R25 : range25Percent = 2 ^ 29) by reflexivity.
  rewrite R100, R25. lia.
Qed.

Lemma DecompressArithmeticStart_invariant_witness :
  ArithmeticState.total arithmetic_start_state = 4
  /\ ArithmeticState.lowValue arithmetic_start_state = 0
  /\ ArithmeticState.highValue arithmetic_start_state = 0x7FFFFFFF
  /\ 0 <= ArithmeticState.buffer arithmetic_start_state < 2 ^ 31
  /\ (0 < 4 -> Arithmetic_invariant arithmetic_start_state).
Proof.
  apply (DecompressArithmeticStart_invariant 8 ArithmeticState.zero arithmetic_stream 14).
  reflexivity.
Defined.

(** X11. [LookupArithmeticLowMemoryCount] gives the state back exactly as
    it received it (the cursor is restored), and the counts it returns
    either bracket the cumulative count, [low <= cum < high], or are those
    of the empty table, symbol 0 with both counts 0. *)
Theorem LookupArithmeticLowMemoryCount_frame (fuel : nat) (state : ArithmeticState_t)
    (cumCount symbol lowCount highCount : Z) (state' : ArithmeticState_t) :
  LookupArithmeticLowMemoryCount fuel state cumCount
  = Ok (symbol, lowCount, highCount, state') ->
  0 <= cumCount ->
  state' = state
  /\ ((0 <= lowCount <= cumCount /\ cumCount < highCount)
      \/ (symbol = 0 /\ lowCount = 0 /\ highCount = 0)).
Proof.
  intros H Hcum. split.
  - unfold LookupArithmeticLowMemoryCount in H. cbv zeta in H.
    apply bind_Ok in H as [[len bs1] [H1 H]].
    apply bind_Ok in H as [[[[sym1 lc1] hc1] bs2] [Hl H]].
    injection H as _ _ _ <-.
    apply DecodeUniversalLomont1_data in H1. cbn [data] in H1.
    assert (Hd : data bs2 = data (ArithmeticState.bitstream state)).
    { rewrite <- H1. destruct (negb (len =? 0)).
      - apply bind_Ok in Hl as [[b1 bs3] [H3 Hl]].
        apply bind_Ok in Hl as [[xi bs4] [H4 Hl]].
        apply DecodeUniversalLomont1_data in H3. apply ReadBitstream_data in H4.
        apply LookupArithmeticLowMemoryCount_loop_data in Hl. congruence.
      - injection Hl as _ _ _ <-. reflexivity. }
    rewrite Hd. destruct state as [[p d] ? ? ? ? ? ? ? ? ?]. reflexivity.
  - destruct (Z_lt_le_dec 0 highCount) as [Hpos|Hzero].
    + left. apply (LookupArithmeticLowMemoryCount_Ok _ _ _ _ _ _ _ H Hcum Hpos).
    + right. unfold LookupArithmeticLowMemoryCount in H. cbv zeta in H.
      apply bind_Ok in H as [[len bs1] [H1 H]].
      apply bind_Ok in H as [[[[sym1 lc1] hc1] bs2] [Hl H]].
      injection H as <- <- <- _.
      destruct (negb (len =? 0)).
      * apply bind_Ok in Hl as [[b1 bs3] [H3 Hl]].
        apply bind_Ok in Hl as [[xi bs4] [H4 Hl]].
        apply ReadBitstream_nonneg in H4.
        apply LookupArithmeticLowMemoryCount_loop_Ok in Hl; lia.
      * injection Hl as <- <- <- _. auto.
Qed.

Lemma LookupArithmeticLowMemoryCount_frame_witness :
  arithmetic_start_state = arithmetic_start_state
  /\ ((0 <= 0 <= 2 /\ 2 < 3) \/ (65 = 0 /\ 0 = 0 /\ 3 = 0)).
Proof.
  apply (LookupArithmeticLowMemoryCount_frame 8 arithmetic_start_state 2 65 0 3
           arithmetic_start_state); [reflexivity | lia].
Defined.






(** ** LZ77: the circular destination *)

Lemma modu_Ok a b r : modu a b = Ok r -> b <> 0 /\ r = a mod b.
Proof.
  unfold modu. destruct (b =? 0) eqn:E; [discriminate|].
  intros [= <-]. apply Z.eqb_neq in E. auto.
Qed.

Lemma modu_no_dest_fault a b : no_dest_fault (modu a b).
Proof. unfold modu. destruct (b =? 0); discriminate. Qed.

Lemma divu_no_dest_fault a b : no_dest_fault (divu a b).
Proof. unfold divu. destruct (b =? 0); discriminate. Qed.

Lemma load_in_range dest i :
  0 <= i < Z.of_nat (length dest) -> exists v, load dest i = Ok v /\ dest !! Z.to_nat i = Some v.
Proof.
  intros Hi. unfold load.
  assert (E : (0 <=? i) = true) by (apply Z.leb_le; lia). rewrite E.
  destruct (dest !! Z.to_nat i) as [v|] eqn:El; [eauto|].
  apply lookup_ge_None in El. lia.
Qed.

Lemma store_in_range_Ok dest i v :
  0 <= i < Z.of_nat (length dest) ->
  store dest i v = Ok (<[Z.to_nat i := wrap8 v]> dest).
Proof.
  intros Hi. unfold store.
  assert (E : (0 <=? i) && (i <? Z.of_nat (length dest)) = true).
  { apply andb_true_iff. split; [apply Z.leb_le | apply Z.ltb_lt]; lia. }
  rewrite E. reflexivity.
Qed.

Lemma DecompressLZ77Block_copy_safe n : forall delta state,
  0 < LZ77State.destLength state <= Z.of_nat (length (LZ77State.dest state)) ->
  no_dest_fault (DecompressLZ77Block_copy n delta state)
  /\ forall state' stores,
       DecompressLZ77Block_copy n delta state = Ok (state', stores) ->
       length (LZ77State.dest state') = length (LZ77State.dest state)
       /\ LZ77State.destLength state' = LZ77State.destLength state
       /\ LZ77State.byteLength state' = LZ77State.byteLength state
       /\ Forall (fun s => 0 <= fst s < LZ77State.destLength state) stores
       /\ forall j : nat,
            LZ77State.destLength state <= Z.of_nat j ->
            LZ77State.dest state' !! j = LZ77State.dest state !! j.
Proof.
  induction n as [|n IH]; intros delta state Hdl.
  { split; [apply no_dest_fault_Ok|]. intros state' stores [= <- <-]. auto 10. }
  cbn [DecompressLZ77Block_copy]. unfold modu.
  assert (E : (LZ77State.destLength state =? 0) = false) by (apply Z.eqb_neq; lia).
  rewrite E. cbn [bind].
  set (to := LZ77State.byteIndex state mod LZ77State.destLength state).
  set (from := wrap32 (LZ77State.byteIndex state + delta) mod LZ77State.destLength state).
  assert (Hto : 0 <= to < LZ77State.destLength state) by (apply Z.mod_pos_bound; lia).
  assert (Hfrom : 0 <= from < LZ77State.destLength state) by (apply Z.mod_pos_bound; lia).
  destruct (load_in_range (LZ77State.dest state) from ltac:(lia)) as [v [-> _]].
  cbn [bind]. rewrite store_in_range_Ok by lia. cbn [bind].
  set (state1 := LZ77State.set_byteIndex _ (LZ77State.set_dest _ state)).
  assert (Hlen1 : length (LZ77State.dest state1) = length (LZ77State.dest state))
    by apply length_insert.
  destruct (IH delta state1) as [IH1 IH2].
  { cbn [state1 LZ77State.destLength LZ77State.set_byteIndex LZ77State.set_dest].
    rewrite Hlen1. exact Hdl. }
  split.
  - apply no_dest_fault_bind; [exact IH1|]. intros [s w]. apply no_dest_fault_Ok.
  - intros state' stores H. apply bind_Ok in H as [[s w] [Hc H]]. injection H as <- <-.
    apply IH2 in Hc as (Hl & Hd & Hb & Hall & Hframe).
    split; [congruence|]. split; [exact Hd|]. split; [exact Hb|]. split.
    + constructor; [exact Hto | exact Hall].
    + intros j Hj. rewrite Hframe by exact Hj.
      cbn [state1 LZ77State.dest LZ77State.set_byteIndex LZ77State.set_dest].
      apply list_lookup_insert_ne. lia.
Qed.

Lemma DecompressLZ77Block_safe (state : LZ77State_t) :
  0 < LZ77State.destLength state <= Z.of_nat (length (LZ77State.dest state)) ->
  DecompressLZ77Block state <> Err DestOverrun
  /\ forall r state',
       DecompressLZ77Block state = Ok (r, state') ->
       length (LZ77State.dest state') = length (LZ77State.dest state)
       /\ LZ77State.destLength state' = LZ77State.destLength state
       /\ LZ77State.byteLength state' = LZ77State.byteLength state
       /\ forall j : nat,
            LZ77State.destLength state <= Z.of_nat j ->
            LZ77State.dest state' !! j = LZ77State.dest state !! j.
Proof.
  intros Hdl. unfold DecompressLZ77Block.
  destruct (LZ77State.byteLength state <=? LZ77State.byteIndex state).
  { split; [discriminate|]. intros r state' [= <- <-]. auto. }
  pose proof (ReadBitstream_no_dest_fault (LZ77State.bitstream state) 1) as Hr1.
  destruct (ReadBitstream (LZ77State.bitstream state) 1) as [[decision bs1]|f];
    cbn [bind]; [|split; [exact (no_dest_fault_Err f Hr1) | discriminate]].
  destruct (decision =? 0).
  - match goal with |- context [ReadBitstream ?b ?k] =>
      pose proof (ReadBitstream_no_dest_fault b k) as Hr2;
      destruct (ReadBitstream b k) as [[lit bs2]|f]
    end; cbn [bind]; [|split; [exact (no_dest_fault_Err f Hr2) | discriminate]].
    unfold modu. cbn [LZ77State.byteIndex LZ77State.destLength LZ77State.dest
                       LZ77State.set_bitstream].
    assert (E : (LZ77State.destLength state =? 0) = false) by (apply Z.eqb_neq; lia).
    rewrite E. cbn [bind].
    set (to := LZ77State.byteIndex state mod LZ77State.destLength state).
    assert (Hto : 0 <= to < LZ77State.destLength state) by (apply Z.mod_pos_bound; lia).
    rewrite store_in_range_Ok by lia. cbn [bind].
    split; [discriminate|]. intros r state' [= <- <-].
    cbn [LZ77State.dest LZ77State.destLength LZ77State.byteLength
         LZ77State.set_byteIndex LZ77State.set_dest LZ77State.set_bitstream].
    split; [apply length_insert|]. split; [reflexivity|]. split; [reflexivity|].
    intros j Hj. apply list_lookup_insert_ne. lia.
  - match goal with |- context [ReadBitstream ?b ?k] =>
      pose proof (ReadBitstream_no_dest_fault b k) as Hr2;
      destruct (ReadBitstream b k) as [[token bs2]|f]
    end; cbn [bind]; [|split; [exact (no_dest_fault_Err f Hr2) | discriminate]].
    match goal with |- context [divu ?a ?b] =>
      pose proof (divu_no_dest_fault a b) as Hq; destruct (divu a b) as [q|f]
    end; cbn [bind]; [|split; [exact (no_dest_fault_Err f Hq) | discriminate]].
    match goal with |- context [modu ?a ?b] =>
      pose proof (modu_no_dest_fault a b) as Hm; destruct (modu a b) as [distance|f]
    end; cbn [bind]; [|split; [exact (no_dest_fault_Err f Hm) | discriminate]].
    unfold DecompressLZ77Block_run. cbv zeta.
    match goal with |- context [DecompressLZ77Block_copy ?n ?d ?s] =>
      destruct (DecompressLZ77Block_copy_safe n d s Hdl) as [Hc1 Hc2];
      destruct (DecompressLZ77Block_copy n d s) as [[s' w]|f]
    end; cbn [bind].
    + split; [discriminate|]. intros r state' [= <- <-].
      destruct (Hc2 _ _ eq_refl) as (Hl & Hd & Hb & _ & Hframe). auto.
    + split; [exact (no_dest_fault_Err f Hc1) | discriminate].
Qed.

(** X13. With [0 < destLength <= ] the size of the buffer, one call of
    [DecompressLZ77Block] never reads or writes outside the buffer, whatever
    the stream holds; when it returns, the buffer has its size, [destLength]
    and [byteLength] are unchanged, and every byte at index [destLength] or
    above is untouched: the decoder uses the first [destLength] bytes as a
    circular window. *)
Theorem DecompressLZ77Block_within_dest (state : LZ77State_t) :
  0 < LZ77State.destLength state <= Z.of_nat (length (LZ77State.dest state)) ->
  DecompressLZ77Block state <> Err DestOverrun
  /\ forall r state',
       DecompressLZ77Block state = Ok (r, state') ->
       length (LZ77State.dest state') = length (LZ77State.dest state)
       /\ LZ77State.destLength state' = LZ77State.destLength state
       /\ LZ77State.byteLength state' = LZ77State.byteLength state
       /\ forall j : nat,
            LZ77State.destLength state <= Z.of_nat j ->
            LZ77State.dest state' !! j = LZ77State.dest state !! j.
Proof. exact (DecompressLZ77Block_safe state). Qed.

Lemma DecompressLZ77Block_within_dest_witness :
  DecompressLZ77Block lz77_run_state <> Err DestOverrun
  /\ forall r state',
       DecompressLZ77Block lz77_run_state = Ok (r, state') ->
       length (LZ77State.dest state') = length (LZ77State.dest lz77_run_state)
       /\ LZ77State.destLength state' = LZ77State.destLength lz77_run_state
       /\ LZ77State.byteLength state' = LZ77State.byteLength lz77_run_state
       /\ forall j : nat,
            LZ77State.destLength lz77_run_state <= Z.of_nat j ->
            LZ77State.dest state' !! j = LZ77State.dest lz77_run_state !! j.
Proof. apply (DecompressLZ77Block_within_dest lz77_run_state). simpl. lia. Defined.

Ltac lz77_fields :=
  cbv beta iota delta
    [LZ77State.bitstream LZ77State.byteIndex LZ77State.byteLength LZ77State.dest
     LZ77State.destLength LZ77State.actualMaxToken LZ77State.actualMaxDistance
     LZ77State.actualMinLength LZ77State.actualBitsPerSymbol
     LZ77State.actualBitsPerToken LZ77State.set_bitstream LZ77State.set_byteIndex
     LZ77State.set_dest] in *.

Lemma DecompressLZ77Block_copy_period n : forall p state,
  0 < p <= LZ77State.byteIndex state ->
  LZ77State.byteIndex state + Z.of_nat n <= LZ77State.destLength state ->
  LZ77State.destLength state <= Z.of_nat (length (LZ77State.dest state)) ->
  LZ77State.destLength state < 2 ^ 31 ->
  Forall (fun x => 0 <= x < 256) (LZ77State.dest state) ->
  exists state' stores,
    DecompressLZ77Block_copy n (LZ77State.destLength state - p) state
    = Ok (state', stores)
    /\ LZ77State.byteIndex state' = LZ77State.byteIndex state + Z.of_nat n
    /\ length (LZ77State.dest state') = length (LZ77State.dest state)
    /\ (forall i : nat, (i < n)%nat ->
          LZ77State.dest state' !! (Z.to_nat (LZ77State.byteIndex state) + i)%nat
          = LZ77State.dest state' !! (Z.to_nat (LZ77State.byteIndex state - p) + i)%nat)
    /\ (forall j : nat,
          Z.of_nat j < LZ77State.byteIndex state
          \/ LZ77State.byteIndex state + Z.of_nat n <= Z.of_nat j ->
          LZ77State.dest state' !! j = LZ77State.dest state !! j).
Proof.
  induction n as [|n IH]; intros p state Hp Hn Hlen Hdl Hbytes.
  { exists state, []. split; [reflexivity|]. split; [lia|]. split; [reflexivity|].
    split; [lia | reflexivity]. }
  destruct state as [bs b bl dest dl mt md ml bps bpt]. lz77_fields.
  cbn [DecompressLZ77Block_copy]. lz77_fields. unfold modu.
  assert (E : (dl =? 0) = false) by (apply Z.eqb_neq; lia). rewrite E. cbn [bind].
  rewrite (Z.mod_small b dl) by lia.
  assert (Hfrom : wrap32 (b + (dl - p)) mod dl = b - p).
  { rewrite wrap32_small by lia.
    replace (b + (dl - p)) with (b - p + 1 * dl) by lia.
    rewrite Z_mod_plus_full. apply Z.mod_small. lia. }
  rewrite Hfrom.
  destruct (load_in_range dest (b - p) ltac:(lia)) as [v [-> Hv]].
  cbn [bind]. rewrite store_in_range_Ok by lia. cbn [bind].
  rewrite (wrap32_small (b + 1)) by lia.
  assert (Hbyte : wrap8 v = v).
  { apply (Forall_lookup_1 _ _ _ _ Hbytes) in Hv. unfold wrap8.
    apply Z.mod_small. change (2 ^ 8) with 256. exact Hv. }
  rewrite Hbyte.
  remember (<[Z.to_nat b := v]> dest) as dest1 eqn:Hd1.
  assert (Hlen1 : length dest1 = length dest) by (subst dest1; apply length_insert).
  destruct (IH p (LZ77State.mk bs (b + 1) bl dest1 dl mt md ml bps bpt))
    as (state' & stores & Hc & Hb' & Hl' & Hper & Hframe); lz77_fields;
    try lia.
  { subst dest1. apply Forall_insert; [exact Hbytes|].
    apply (Forall_lookup_1 _ _ _ _ Hbytes) in Hv. exact Hv. }
  rewrite Hc. cbn [bind].
  exists state', ((b, v) :: stores). split; [reflexivity|].
  split; [lia|]. split; [congruence|]. split.
  - intros i Hi. destruct i as [|i].
    + rewrite !Nat.add_0_r.
      rewrite (Hframe (Z.to_nat b)) by lia.
      rewrite (Hframe (Z.to_nat (b - p))) by lia.
      subst dest1. rewrite list_lookup_insert_eq by lia.
      rewrite list_lookup_insert_ne by lia. symmetry. exact Hv.
    + specialize (Hper i ltac:(lia)).
      replace (Z.to_nat b + S i)%nat with (Z.to_nat (b + 1) + i)%nat by lia.
      replace (Z.to_nat (b - p) + S i)%nat with (Z.to_nat (b + 1 - p) + i)%nat by lia.
      exact Hper.
  - intros j Hj. rewrite Hframe by lia. subst dest1.
    apply list_lookup_insert_ne. lia.
Qed.

(** X14. A run of [length] bytes at [distance] that fits below [destLength]
    (no wrap of the window) and looks back inside the decoded bytes
    ([distance < byteIndex]) succeeds, advances [byteIndex] by [length],
    leaves every byte outside the run as it was, and makes the run periodic
    with period [distance + 1]: each byte written equals the byte
    [distance + 1] places before it in the result, also when the run
    overlaps its source. *)
Theorem DecompressLZ77Block_run_period (state : LZ77State_t) (distance length : Z) :
  0 <= distance < LZ77State.byteIndex state ->
  0 <= length ->
  LZ77State.byteIndex state + length <= LZ77State.destLength state ->
  LZ77State.destLength state <= Z.of_nat (List.length (LZ77State.dest state)) ->
  LZ77State.destLength state < 2 ^ 31 ->
  Forall (fun x => 0 <= x < 256) (LZ77State.dest state) ->
  exists state' stores,
    DecompressLZ77Block_run state distance length = Ok (length, state', stores)
    /\ LZ77State.byteIndex state' = LZ77State.byteIndex state + length
    /\ (forall i : nat, Z.of_nat i < length ->
          LZ77State.dest state' !! (Z.to_nat (LZ77State.byteIndex state) + i)%nat
          = LZ77State.dest state'
              !! (Z.to_nat (LZ77State.byteIndex state - (distance + 1)) + i)%nat)
    /\ (forall j : nat,
          Z.of_nat j < LZ77State.byteIndex state
          \/ LZ77State.byteIndex state + length <= Z.of_nat j ->
          LZ77State.dest state' !! j = LZ77State.dest state !! j).
Proof.
  intros Hd Hl Hn Hlen Hdl Hbytes.
  unfold DecompressLZ77Block_run, DecompressLZ77Block_delta. cbv zeta.
  rewrite wrap32_small by lia.
  replace (LZ77State.destLength state - distance - 1)
    with (LZ77State.destLength state - (distance + 1)) by lia.
  destruct (DecompressLZ77Block_copy_period (Z.to_nat length) (distance + 1) state)
    as (state' & stores & Hc & Hb & _ & Hper & Hframe); try lia; try assumption.
  rewrite Hc. cbn [bind]. exists state', stores.
  split; [reflexivity|]. split; [lia|]. split.
  - intros i Hi. apply Hper. lia.
  - intros j Hj. apply Hframe. lia.
Qed.

Lemma DecompressLZ77Block_run_period_witness :
  DecompressLZ77Block_run lz77_run_state 1 3
  = Ok (3, LZ77State.set_byteIndex 5
             (LZ77State.set_dest [97; 98; 97; 98; 97; 0; 0; 0] lz77_run_state),
        [(2, 97); (3, 98); (4, 97)])
  /\ exists state' stores,
    DecompressLZ77Block_run lz77_run_state 1 3 = Ok (3, state', stores)
    /\ LZ77State.byteIndex state' = LZ77State.byteIndex lz77_run_state + 3
    /\ (forall i : nat, Z.of_nat i < 3 ->
          LZ77State.dest state' !! (Z.to_nat (LZ77State.byteIndex lz77_run_state) + i)%nat
          = LZ77State.dest state'
              !! (Z.to_nat (LZ77State.byteIndex lz77_run_state - (1 + 1)) + i)%nat)
    /\ (forall j : nat,
          Z.of_nat j < LZ77State.byteIndex lz77_run_state
          \/ LZ77State.byteIndex lz77_run_state + 3 <= Z.of_nat j ->
          LZ77State.dest state' !! j = LZ77State.dest lz77_run_state !! j).
Proof.
  split; [reflexivity|].
  apply (DecompressLZ77Block_run_period lz77_run_state 1 3);
    try (simpl; lia).
  repeat constructor; lia.
Defined.

Lemma DecompressLZ77Start_dest fuel source sourceLength dest destLength state :
  DecompressLZ77Start fuel source sourceLength dest destLength = Ok state ->
  LZ77State.dest state = dest /\ LZ77State.destLength state = wrap32 destLength.
Proof.
  unfold DecompressLZ77Start. cbv zeta. intros H. bind_steps. split; reflexivity.
Qed.

Lemma DecompressLZ77Start_no_dest_fault fuel source sourceLength dest destLength :
  no_dest_fault (DecompressLZ77Start fuel source sourceLength dest destLength).
Proof. unfold DecompressLZ77Start. nodest. Qed.

Lemma DecompressLZ77_loop_safe fuel : forall state,
  0 < LZ77State.destLength state <= Z.of_nat (length (LZ77State.dest state)) ->
  DecompressLZ77_loop fuel state <> Err DestOverrun
  /\ forall state',
       DecompressLZ77_loop fuel state = Ok state' ->
       length (LZ77State.dest state') = length (LZ77State.dest state)
       /\ forall j : nat,
            LZ77State.destLength state <= Z.of_nat j ->
            LZ77State.dest state' !! j = LZ77State.dest state !! j.
Proof.
  induction fuel as [|fuel IH]; intros state Hdl.
  { split; discriminate. }
  cbn [DecompressLZ77_loop].
  destruct (DecompressLZ77Block_safe state Hdl) as [Hb1 Hb2].
  destruct (DecompressLZ77Block state) as [[r state1]|f]; cbn [bind];
    [|split; [exact (no_dest_fault_Err f Hb1) | discriminate]].
  destruct (Hb2 _ _ eq_refl) as (Hl & Hd & _ & Hframe).
  destruct (negb (r =? CL_COMPRESSOR_END_TOKEN)).
  - destruct (IH state1) as [H1 H2]; [lia|]. split; [exact H1|].
    intros state' H. destruct (H2 _ H) as [Hl' Hframe'].
    split; [lia|]. intros j Hj. rewrite Hframe' by lia. apply Hframe. exact Hj.
  - split; [discriminate|]. intros state' [= <-]. split; [exact Hl | exact Hframe].
Qed.

(** X15. With [0 < destLength <= ] the size of the buffer, the one-shot
    [DecompressLZ77] never reads or writes outside the buffer, whatever the
    source holds and however many bytes its header announces; the buffer it
    returns has the same size and the bytes at index [destLength] or above
    are untouched. *)
Theorem DecompressLZ77_within_dest (fuel : nat) (source : list Z) (sourceLength : Z)
    (dest : list Z) (destLength : Z) :
  0 < destLength <= Z.of_nat (length dest) ->
  destLength < 2 ^ 32 ->
  DecompressLZ77 fuel source sourceLength dest destLength <> Err DestOverrun
  /\ forall n dest',
       DecompressLZ77 fuel source sourceLength dest destLength = Ok (n, dest') ->
       length dest' = length dest
       /\ forall j : nat, destLength <= Z.of_nat j -> dest' !! j = dest !! j.
Proof.
  intros Hdl H32. unfold DecompressLZ77.
  pose proof (DecompressLZ77Start_no_dest_fault fuel source sourceLength dest destLength)
    as Hs.
  destruct (DecompressLZ77Start fuel source sourceLength dest destLength)
    as [state|f] eqn:Es; cbn [bind];
    [|split; [exact (no_dest_fault_Err f Hs) | discriminate]].
  apply DecompressLZ77Start_dest in Es as [Ed El].
  rewrite wrap32_small in El by lia.
  destruct (DecompressLZ77_loop_safe fuel state) as [H1 H2]; [rewrite Ed, El; lia|].
  destruct (DecompressLZ77_loop fuel state) as [state'|f]; cbn [bind];
    [|split; [exact (no_dest_fault_Err f H1) | discriminate]].
  split; [discriminate|]. intros n dest' [= <- <-].
  destruct (H2 _ eq_refl) as [Hl Hframe]. rewrite Ed in Hl, Hframe.
  rewrite El in Hframe. split; [exact Hl | exact Hframe].
Qed.

Lemma DecompressLZ77_within_dest_witness :
  DecompressLZ77 8 lz77_stream 11 [0; 0; 0; 9; 9] 3 = Ok (5, [98; 97; 97; 9; 9])
  /\ DecompressLZ77 8 lz77_stream 11 [0; 0; 0; 9; 9] 3 <> Err DestOverrun
  /\ forall n dest',
       DecompressLZ77 8 lz77_stream 11 [0; 0; 0; 9; 9] 3 = Ok (n, dest') ->
       length dest' = length [0; 0; 0; 9; 9]
       /\ forall j : nat, 3 <= Z.of_nat j -> dest' !! j = [0; 0; 0; 9; 9] !! j.
Proof.
  split; [vm_compute; reflexivity|].
  apply (DecompressLZ77_within_dest 8 lz77_stream 11 [0; 0; 0; 9; 9] 3); simpl; lia.
Defined.

(** ** Golomb coding *)

Lemma BitsRequired_eq (n : Z) :
  1 <= n < 2 ^ 32 ->
  BitsRequired n = 1 + Z.log2 n
  /\ 0 <= Z.log2 n < 32 /\ 2 ^ Z.log2 n <= n < 2 ^ (1 + Z.log2 n).
Proof.
  intros Hn. unfold BitsRequired. rewrite FloorLog2_eq_log2 by lia.
  assert (Hk : 0 <= Z.log2 n < 32).
  { split; [apply Z.log2_nonneg|]. apply Z.log2_lt_pow2; lia. }
  rewrite wrap32_small by lia. split; [reflexivity|]. split; [exact Hk|].
  replace (1 + Z.log2 n) with (Z.succ (Z.log2 n)) by lia. apply Z.log2_spec. lia.
Qed.

(** X16. For [1 <= n < 2^31], [DecodeTruncated] can only fail by running
    out of source bits (the shift by [k] is defined), and a value it returns
    lies in [[0, n)]; the source bytes are as they were. *)
Theorem DecodeTruncated_range (bitstream : Bitstream_t) (n : Z) :
  1 <= n < 2 ^ 31 ->
  (forall f, DecodeTruncated bitstream n = Err f -> f = SourceOverrun)
  /\ (forall x bitstream',
        DecodeTruncated bitstream n = Ok (x, bitstream') ->
        0 <= x < n /\ data bitstream' = data bitstream).
Proof.
  intros Hn. unfold DecodeTruncated. cbv zeta.
  destruct (BitsRequired_eq n) as (-> & Hk & Hlo & Hhi); [lia|].
  set (k := Z.log2 n) in *.
  assert (Hk31 : k < 31).
  { apply Z.log2_lt_pow2; lia. }
  assert (Hp : 2 ^ (1 + k) = 2 * 2 ^ k).
  { rewrite Z.pow_add_r by lia. reflexivity. }
  assert (Hp32 : 2 ^ (1 + k) < 2 ^ 32).
  { apply Z.pow_lt_mono_r; lia. }
  unfold to_int32, shl32.
  assert (E1 : (1 + k <? 2 ^ 31) = true) by (apply Z.ltb_lt; lia). rewrite E1.
  assert (E2 : (0 <=? 1 + k) && (1 + k <? 32) = true).
  { apply andb_true_iff. split; [apply Z.leb_le | apply Z.ltb_lt]; lia. }
  rewrite E2. cbn [bind].
  rewrite Z.shiftl_1_l. rewrite (wrap32_small (2 ^ (1 + k))) by lia.
  rewrite (wrap32_small (2 ^ (1 + k) - n)) by lia.
  replace (1 + k - 1) with k by lia. rewrite (wrap32_small k) by lia.
  destruct (ReadBitstream bitstream k) as [[x bs1]|f] eqn:Ex; cbn [bind].
  2:{ split; [|discriminate]. intros f' [= <-].
      exact (ReadBitstream_fault _ _ _ Ex). }
  pose proof (ReadBitstream_bound _ _ _ _ Ex ltac:(lia)) as Hx.
  pose proof (ReadBitstream_data _ _ _ _ Ex) as Hd1.
  destruct (2 ^ (1 + k) - n <=? x) eqn:Eu.
  - apply Z.leb_le in Eu.
    destruct (ReadBitstream bs1 1) as [[b bs2]|f] eqn:Eb; cbn [bind].
    2:{ split; [|discriminate]. intros f' [= <-].
        exact (ReadBitstream_fault _ _ _ Eb). }
    pose proof (ReadBitstream_one _ _ _ Eb) as Hb.
    pose proof (ReadBitstream_data _ _ _ _ Eb) as Hd2.
    split; [discriminate|]. intros x' bs' [= <- <-].
    rewrite (wrap32_small (2 * x + b)) by lia.
    rewrite wrap32_small by lia.
    split; [lia | congruence].
  - apply Z.leb_gt in Eu.
    split; [discriminate|]. intros x' bs' [= <- <-]. split; [lia | exact Hd1].
Qed.

Lemma DecodeTruncated_range_witness :
  DecodeTruncated (mkBitstream 0 [0xE0]) 5 = Ok (4, mkBitstream 3 [0xE0])
  /\ (forall f, DecodeTruncated (mkBitstream 0 [0xE0]) 5 = Err f -> f = SourceOverrun)
  /\ (forall x bitstream',
        DecodeTruncated (mkBitstream 0 [0xE0]) 5 = Ok (x, bitstream') ->
        0 <= x < 5 /\ data bitstream' = data (mkBitstream 0 [0xE0])).
Proof.
  split; [reflexivity|]. apply (DecodeTruncated_range (mkBitstream 0 [0xE0]) 5). lia.
Defined.

Lemma ReadBitstream_1_bit_at p d :
  0 <= p -> p < 8 * Z.of_nat (length d) ->
  ReadBitstream (mkBitstream p d) 1 = Ok (bit_at d p, mkBitstream (wrap32 (p + 1)) d).
Proof.
  intros Hp Hlen. unfold ReadBitstream. change (Z.to_nat 1) with 1%nat.
  cbn [ReadBitstream_loop]. rewrite ReadBitstream_bit_at by lia. cbn [bind].
  reflexivity.
Qed.

Lemma DecompressGolombSymbol_unary_count q : forall fuel p d q0,
  0 <= p -> p + Z.of_nat q + 1 <= 8 * Z.of_nat (length d) ->
  p + Z.of_nat q + 1 < 2 ^ 32 ->
  (forall i, 0 <= i < Z.of_nat q -> bit_at d (p + i) = 1) ->
  bit_at d (p + Z.of_nat q) = 0 ->
  (q < fuel)%nat ->
  DecompressGolombSymbol_unary fuel (mkBitstream p d) q0
  = Ok (Nat.iter q (fun x => wrap32 (x + 1)) q0, mkBitstream (p + Z.of_nat q + 1) d).
Proof.
  induction q as [|q IH]; intros fuel p d q0 Hp Hlen H32 Hones Hzero Hfuel;
    (destruct fuel as [|fuel]; [lia|]); cbn [DecompressGolombSymbol_unary].
  - rewrite ReadBitstream_1_bit_at by lia. cbn [bind].
    rewrite Z.add_0_r in Hzero. rewrite Hzero. cbn [Z.eqb Nat.iter].
    rewrite wrap32_small by lia. do 2 f_equal. f_equal. lia.
  - rewrite ReadBitstream_1_bit_at by lia. cbn [bind].
    rewrite <- (Z.add_0_r p) at 1. rewrite Hones by lia. cbn [Z.eqb Pos.eqb].
    rewrite (wrap32_small (p + 1)) by lia.
    rewrite (IH fuel (p + 1) d (wrap32 (q0 + 1))); try lia.
    + rewrite Nat.iter_succ_r. do 2 f_equal. f_equal. lia.
    + intros i Hi. replace (p + 1 + i) with (p + (i + 1)) by lia. apply Hones. lia.
    + replace (p + 1 + Z.of_nat q) with (p + Z.of_nat (S q)) by lia. exact Hzero.
Qed.

Lemma iter_wrap32_succ q : forall q0,
  0 <= q0 -> q0 + Z.of_nat q < 2 ^ 32 ->
  Nat.iter q (fun x => wrap32 (x + 1)) q0 = q0 + Z.of_nat q.
Proof.
  induction q as [|q IH]; intros q0 H0 H; [simpl; lia|].
  rewrite Nat.iter_succ_r. rewrite wrap32_small by lia. rewrite IH by lia. lia.
Qed.

(** X18. When the bitstream holds [q] bits 1 followed by a bit 0 at the
    cursor (all inside the source), [DecompressGolombSymbol] returns
    [q * parameter + r] (on [uint32_t]), where [r] is what [DecodeTruncated]
    reads just after the bit 0; [q + 1] trips of the unary loop are enough. *)
Theorem DecompressGolombSymbol_quotient (fuel : nat) (p q : Z) (d : list Z) (m : Z) :
  0 <= p -> 0 <= q ->
  p + q + 1 <= 8 * Z.of_nat (length d) ->
  p + q + 1 < 2 ^ 32 ->
  (forall i, 0 <= i < q -> bit_at d (p + i) = 1) ->
  bit_at d (p + q) = 0 ->
  q < Z.of_nat fuel ->
  DecompressGolombSymbol fuel (GolombState.mk (mkBitstream p d) m)
  = let* '(r, bitstream) := DecodeTruncated (mkBitstream (p + q + 1) d) m in
    Ok (wrap32 (wrap32 (q * m) + r), GolombState.mk bitstream m).
Proof.
  intros Hp Hq Hlen H32 Hones Hzero Hfuel. unfold DecompressGolombSymbol.
  cbn [GolombState.bitstream GolombState.parameter].
  rewrite (DecompressGolombSymbol_unary_count (Z.to_nat q)); try lia.
  - rewrite iter_wrap32_succ by lia. cbn [bind].
    rewrite Z2Nat.id by lia. reflexivity.
  - intros i Hi. apply Hones. lia.
  - rewrite Z2Nat.id by lia. exact Hzero.
Qed.

Lemma DecompressGolombSymbol_quotient_witness :
  DecompressGolombSymbol 4 (GolombState.mk (mkBitstream 0 [0xD8]) 5)
  = Ok (13, GolombState.mk (mkBitstream 6 [0xD8]) 5)
  /\ DecompressGolombSymbol 4 (GolombState.mk (mkBitstream 0 [0xD8]) 5)
     = let* '(r, bitstream) := DecodeTruncated (mkBitstream (0 + 2 + 1) [0xD8]) 5 in
       Ok (wrap32 (wrap32 (2 * 5) + r), GolombState.mk bitstream 5).
Proof.
  split; [reflexivity|].
  apply (DecompressGolombSymbol_quotient 4 0 2 [0xD8] 5); try (simpl; lia).
  - intros i Hi. assert (i = 0 \/ i = 1) as [-> | ->] by lia; reflexivity.
  - reflexivity.
Defined.

(** ** LZCL coding: the destination buffer *)

#[local] Hint Resolve modu_no_dest_fault divu_no_dest_fault
  DecompressHuffmanSymbol_no_dest_fault : nodest.

Lemma DecompressFixedSymbol_no_dest_fault state :
  no_dest_fault (DecompressFixedSymbol state).
Proof. unfold DecompressFixedSymbol. nodest. Qed.

Lemma ReadArithmeticBistream_no_dest_fault state k :
  no_dest_fault (ReadArithmeticBistream state k).
Proof. unfold ReadArithmeticBistream. nodest. Qed.
#[local] Hint Resolve DecompressFixedSymbol_no_dest_fault
  ReadArithmeticBistream_no_dest_fault : nodest.

Lemma shl32_no_dest_fault x s : no_dest_fault (shl32 x s).
Proof. unfold shl32. nodest. Qed.
#[local] Hint Resolve shl32_no_dest_fault : nodest.

Lemma LookupArithmeticLowMemoryCount_delta_no_dest_fault fuel : forall bs delta,
  no_dest_fault (LookupArithmeticLowMemoryCount_delta fuel bs delta).
Proof.
  induction fuel as [|fuel IH]; intros bs delta;
    cbn [LookupArithmeticLowMemoryCount_delta]; nodest.
Qed.
#[local] Hint Resolve LookupArithmeticLowMemoryCount_delta_no_dest_fault : nodest.

Lemma LookupArithmeticLowMemoryCount_loop_no_dest_fault fuel :
  forall bs cum b1 lc hc sym i,
  no_dest_fault (LookupArithmeticLowMemoryCount_loop fuel bs cum b1 lc hc sym i).
Proof.
  induction fuel as [|fuel IH]; intros bs cum b1 lc hc sym i;
    cbn [LookupArithmeticLowMemoryCount_loop]; nodest.
Qed.
#[local] Hint Resolve LookupArithmeticLowMemoryCount_loop_no_dest_fault : nodest.

Lemma LookupArithmeticLowMemoryCount_no_dest_fault fuel state cum :
  no_dest_fault (LookupArithmeticLowMemoryCount fuel state cum).
Proof. unfold LookupArithmeticLowMemoryCount. nodest. Qed.

Lemma DecompressArithmeticSymbol_e1e2_no_dest_fault fuel : forall state,
  no_dest_fault (DecompressArithmeticSymbol_e1e2 fuel state).
Proof.
  induction fuel as [|fuel IH]; intros state;
    cbn [DecompressArithmeticSymbol_e1e2]; nodest.
Qed.

Lemma DecompressArithmeticSymbol_e3_no_dest_fault fuel : forall state,
  no_dest_fault (DecompressArithmeticSymbol_e3 fuel state).
Proof.
  induction fuel as [|fuel IH]; intros state;
    cbn [DecompressArithmeticSymbol_e3]; nodest.
Qed.
#[local] Hint Resolve LookupArithmeticLowMemoryCount_no_dest_fault
  DecompressArithmeticSymbol_e1e2_no_dest_fault
  DecompressArithmeticSymbol_e3_no_dest_fault : nodest.

Lemma DecompressArithmeticSymbol_no_dest_fault fuel state :
  no_dest_fault (DecompressArithmeticSymbol fuel state).
Proof.
  unfold DecompressArithmeticSymbol, DecompressArithmeticSymbol_cumCount. nodest.
Qed.

Lemma DecompressGolombSymbol_unary_no_dest_fault fuel : forall bs q,
  no_dest_fault (DecompressGolombSymbol_unary fuel bs q).
Proof.
  induction fuel as [|fuel IH]; intros bs q;
    cbn [DecompressGolombSymbol_unary]; nodest.
Qed.
#[local] Hint Resolve DecompressGolombSymbol_unary_no_dest_fault : nodest.

Lemma DecompressGolombSymbol_no_dest_fault fuel state :
  no_dest_fault (DecompressGolombSymbol fuel state).
Proof. unfold DecompressGolombSymbol, DecodeTruncated. nodest. Qed.
#[local] Hint Resolve DecompressArithmeticSymbol_no_dest_fault
  DecompressGolombSymbol_no_dest_fault : nodest.

Lemma DecodeLZCLSymbol_no_dest_fault fuel codec :
  no_dest_fault (DecodeLZCLSymbol fuel codec).
Proof. unfold DecodeLZCLSymbol. nodest. Qed.
#[local] Hint Resolve DecodeLZCLSymbol_no_dest_fault : nodest.

Lemma GetLZCLDecision_no_dest_fault fuel state :
  no_dest_fault (GetLZCLDecision fuel state).
Proof. unfold GetLZCLDecision. nodest. Qed.

Lemma GetLZCLDecodedToken_no_dest_fault fuel state :
  no_dest_fault (GetLZCLDecodedToken fuel state).
Proof. unfold GetLZCLDecodedToken. nodest. Qed.

Lemma GetLZCLDecision_dest fuel state v state' :
  GetLZCLDecision fuel state = Ok (v, state') ->
  LZCLState.dest state' = LZCLState.dest state
  /\ LZCLState.destLength state' = LZCLState.destLength state
  /\ LZCLState.byteIndex state' = LZCLState.byteIndex state
  /\ LZCLState.byteLength state' = LZCLState.byteLength state.
Proof.
  unfold GetLZCLDecision. intros H.
  destruct (LZCLState.useDecisionRuns state =? 0).
  { bind_steps. auto. }
  destruct (LZCLState.curRun state =? -1);
    cbn [bind LZCLState.runsLeft LZCLState.set_curRun LZCLState.set_runsLeft
         LZCLState.set_decisionRunCodec LZCLState.set_decisionCodec] in H.
  - apply bind_Ok in H as [s1 [H1 H]]. apply bind_Ok in H1 as [[v1 c1] [_ H1]].
    injection H1 as <-. cbn [LZCLState.runsLeft] in H.
    destruct (v1 =? 0); bind_steps; auto.
  - destruct (LZCLState.runsLeft state =? 0); bind_steps; auto.
Qed.

Lemma GetLZCLDecodedToken_dest fuel state d l state' :
  GetLZCLDecodedToken fuel state = Ok (d, l, state') ->
  LZCLState.dest state' = LZCLState.dest state
  /\ LZCLState.destLength state' = LZCLState.destLength state
  /\ LZCLState.byteIndex state' = LZCLState.byteIndex state
  /\ LZCLState.byteLength state' = LZCLState.byteLength state.
Proof.
  unfold GetLZCLDecodedToken. cbv zeta. intros H.
  destruct (LZCLState.useTokens state =? 0); bind_steps; auto.
Qed.

Lemma DecompressLZCLBlock_copy_safe n delta (state : LZCLState_t) :
  0 < LZCLState.destLength state <= Z.of_nat (length (LZCLState.dest state)) ->
  no_dest_fault (DecompressLZCLBlock_copy n delta state)
  /\ forall state' stores,
       DecompressLZCLBlock_copy n delta state = Ok (state', stores) ->
       length (LZCLState.dest state') = length (LZCLState.dest state)
       /\ LZCLState.destLength state' = LZCLState.destLength state
       /\ forall j : nat,
            LZCLState.destLength state <= Z.of_nat j ->
            LZCLState.dest state' !! j = LZCLState.dest state !! j.
Proof.
  intros Hdl.
  set (s77 := LZ77State.mk (LZCLState.bitstream state) (LZCLState.byteIndex state)
                (LZCLState.byteLength state) (LZCLState.dest state)
                (LZCLState.destLength state) 0 0 0 0 0).
  pose proof (copy_loops_agree n delta s77 state eq_refl eq_refl eq_refl) as Hag.
  destruct (DecompressLZ77Block_copy_safe n delta s77 Hdl) as [H1 H2].
  destruct (DecompressLZ77Block_copy n delta s77) as [[s77' w77]|f77];
    destruct (DecompressLZCLBlock_copy n delta state) as [[scl' wcl]|fcl];
    try contradiction.
  - split; [discriminate|]. intros state' stores [= <- <-].
    destruct Hag as (_ & _ & Hd & _ & _ & _ & Hl).
    destruct (H2 _ _ eq_refl) as (Hlen & _ & _ & _ & Hframe).
    rewrite <- Hd. split; [exact Hlen|]. split; [exact Hl | exact Hframe].
  - subst fcl. split; [exact (no_dest_fault_Err f77 H1) | discriminate].
Qed.

Lemma DecompressLZCLBlock_safe fuel (state : LZCLState_t) :
  0 < LZCLState.destLength state <= Z.of_nat (length (LZCLState.dest state)) ->
  DecompressLZCLBlock fuel state <> Err DestOverrun
  /\ forall r state',
       DecompressLZCLBlock fuel state = Ok (r, state') ->
       length (LZCLState.dest state') = length (LZCLState.dest state)
       /\ LZCLState.destLength state' = LZCLState.destLength state
       /\ forall j : nat,
            LZCLState.destLength state <= Z.of_nat j ->
            LZCLState.dest state' !! j = LZCLState.dest state !! j.
Proof.
  intros Hdl. unfold DecompressLZCLBlock.
  destruct (LZCLState.byteLength state <=? LZCLState.byteIndex state).
  { split; [discriminate|]. intros r state' [= <- <-]. auto. }
  pose proof (GetLZCLDecision_no_dest_fault fuel state) as Hdec.
  destruct (GetLZCLDecision fuel state) as [[decision state1]|f] eqn:E1; cbn [bind];
    [|split; [exact (no_dest_fault_Err f Hdec) | discriminate]].
  apply GetLZCLDecision_dest in E1 as (Hd1 & Hl1 & _ & _).
  destruct (decision =? 0).
  - pose proof (DecodeLZCLSymbol_no_dest_fault fuel (LZCLState.literalCodec state1)) as Hs.
    destruct (DecodeLZCLSymbol fuel (LZCLState.literalCodec state1)) as [[symbol codec]|f];
      cbn [bind]; [|split; [exact (no_dest_fault_Err f Hs) | discriminate]].
    unfold modu.
    cbn [LZCLState.byteIndex LZCLState.destLength LZCLState.dest
         LZCLState.set_literalCodec].
    assert (E : (LZCLState.destLength state1 =? 0) = false) by (apply Z.eqb_neq; lia).
    rewrite E. cbn [bind].
    set (to := LZCLState.byteIndex state1 mod LZCLState.destLength state1).
    assert (Hto : 0 <= to < LZCLState.destLength state1)
      by (apply Z.mod_pos_bound; lia).
    rewrite store_in_range_Ok by (rewrite Hd1; lia). cbn [bind].
    split; [discriminate|]. intros r state' [= <- <-].
    cbn [LZCLState.dest LZCLState.destLength LZCLState.set_byteIndex
         LZCLState.set_dest LZCLState.set_literalCodec].
    rewrite Hd1, Hl1.
    split; [apply length_insert|]. split; [reflexivity|].
    intros j Hj. apply list_lookup_insert_ne. lia.
  - pose proof (GetLZCLDecodedToken_no_dest_fault fuel state1) as Ht.
    destruct (GetLZCLDecodedToken fuel state1) as [[[distance length1] state2]|f] eqn:E2;
      cbn [bind]; [|split; [exact (no_dest_fault_Err f Ht) | discriminate]].
    apply GetLZCLDecodedToken_dest in E2 as (Hd2 & Hl2 & _ & _).
    unfold DecompressLZCLBlock_run. cbv zeta.
    match goal with |- context [DecompressLZCLBlock_copy ?n ?d ?s] =>
      destruct (DecompressLZCLBlock_copy_safe n d s) as [Hc1 Hc2];
        [rewrite Hd2, Hl2, Hd1, Hl1; exact Hdl|];
      destruct (DecompressLZCLBlock_copy n d s) as [[s' w]|f]
    end; cbn [bind].
    + split; [discriminate|]. intros r state' [= <- <-].
      destruct (Hc2 _ _ eq_refl) as (Hl & Hd & Hframe).
      rewrite Hd2, Hd1 in Hl, Hframe. rewrite Hl2, Hl1 in Hd, Hframe. auto.
    + split; [exact (no_dest_fault_Err f Hc1) | discriminate].
Qed.

Lemma ReadArithmeticHeaderNoLength_buffer_no_dest_fault n : forall state,
  no_dest_fault (ReadArithmeticHeaderNoLength_buffer n state).
Proof.
  induction n as [|n IH]; intros state;
    cbn [ReadArithmeticHeaderNoLength_buffer]; nodest.
Qed.
#[local] Hint Resolve ReadArithmeticHeaderNoLength_buffer_no_dest_fault : nodest.

Lemma ReadLZCLItem_no_dest_fault fuel decoder bs :
  no_dest_fault (ReadLZCLItem fuel decoder bs).
Proof.
  unfold ReadLZCLItem, ReadFixedHeaderNoLength, ReadArithmeticHeaderNoLength,
    DecodeArithmeticTable, ReadHuffmanHeaderNoLength, ReadGolombHeaderNoLength.
  nodest.
Qed.
#[local] Hint Resolve ReadLZCLItem_no_dest_fault : nodest.

Lemma DecompressLZCLStart_no_dest_fault fuel source sourceLength dest destLength :
  no_dest_fault (DecompressLZCLStart fuel source sourceLength dest destLength).
Proof. unfold DecompressLZCLStart. nodest. Qed.

Lemma DecompressLZCLStart_dest fuel source sourceLength dest destLength n state :
  DecompressLZCLStart fuel source sourceLength dest destLength = Ok (n, state) ->
  LZCLState.dest state = dest /\ LZCLState.destLength state = wrap32 destLength.
Proof.
  unfold DecompressLZCLStart. cbv zeta. intros H. start_steps; split; reflexivity.
Qed.

Lemma DecompressLZCL_loop_safe fuel blockFuel : forall state,
  0 < LZCLState.destLength state <= Z.of_nat (length (LZCLState.dest state)) ->
  DecompressLZCL_loop fuel blockFuel state <> Err DestOverrun
  /\ forall state',
       DecompressLZCL_loop fuel blockFuel state = Ok state' ->
       length (LZCLState.dest state') = length (LZCLState.dest state)
       /\ forall j : nat,
            LZCLState.destLength state <= Z.of_nat j ->
            LZCLState.dest state' !! j = LZCLState.dest state !! j.
Proof.
  induction fuel as [|fuel IH]; intros state Hdl.
  { split; discriminate. }
  cbn [DecompressLZCL_loop].
  destruct (DecompressLZCLBlock_safe blockFuel state Hdl) as [Hb1 Hb2].
  destruct (DecompressLZCLBlock blockFuel state) as [[r state1]|f]; cbn [bind];
    [|split; [exact (no_dest_fault_Err f Hb1) | discriminate]].
  destruct (Hb2 _ _ eq_refl) as (Hl & Hd & Hframe).
  destruct (negb (r =? CL_COMPRESSOR_END_TOKEN)).
  - destruct (IH state1) as [H1 H2]; [lia|]. split; [exact H1|].
    intros state' H. destruct (H2 _ H) as [Hl' Hframe'].
    split; [lia|]. intros j Hj. rewrite Hframe' by lia. apply Hframe. exact Hj.
  - split; [discriminate|]. intros state' [= <-]. split; [exact Hl | exact Hframe].
Qed.

(** X19. With [0 < destLength <= ] the size of the buffer, one call of
    [DecompressLZCLBlock] never reads or writes outside the buffer, whatever
    the sub-codecs decode; when it returns, the buffer has its size,
    [destLength] is unchanged and every byte at index [destLength] or above
    is untouched. *)
Theorem DecompressLZCLBlock_within_dest (fuel : nat) (state : LZCLState_t) :
  0 < LZCLState.destLength state <= Z.of_nat (length (LZCLState.dest state)) ->
  DecompressLZCLBlock fuel state <> Err DestOverrun
  /\ forall r state',
       DecompressLZCLBlock fuel state = Ok (r, state') ->
       length (LZCLState.dest state') = length (LZCLState.dest state)
       /\ LZCLState.destLength state' = LZCLState.destLength state
       /\ forall j : nat,
            LZCLState.destLength state <= Z.of_nat j ->
            LZCLState.dest state' !! j = LZCLState.dest state !! j.
Proof. exact (DecompressLZCLBlock_safe fuel state). Qed.

Lemma DecompressLZCLBlock_within_dest_witness :
  DecompressLZCLBlock 4 lzcl_run_state <> Err DestOverrun
  /\ forall r state',
       DecompressLZCLBlock 4 lzcl_run_state = Ok (r, state') ->
       length (LZCLState.dest state') = length (LZCLState.dest lzcl_run_state)
       /\ LZCLState.destLength state' = LZCLState.destLength lzcl_run_state
       /\ forall j : nat,
            LZCLState.destLength lzcl_run_state <= Z.of_nat j ->
            LZCLState.dest state' !! j = LZCLState.dest lzcl_run_state !! j.
Proof. apply (DecompressLZCLBlock_within_dest 4 lzcl_run_state). simpl. lia. Defined.

(** X20. With [0 < destLength <= ] the size of the buffer, the one-shot
    [DecompressLZCL] never reads or writes outside the buffer, whatever the
    source holds; the buffer it returns has the same size and the bytes at
    index [destLength] or above are untouched. *)
Theorem DecompressLZCL_within_dest (fuel : nat) (source : list Z) (sourceLength : Z)
    (dest : list Z) (destLength : Z) :
  0 < destLength <= Z.of_nat (length dest) ->
  destLength < 2 ^ 32 ->
  DecompressLZCL fuel source sourceLength dest destLength <> Err DestOverrun
  /\ forall n dest',
       DecompressLZCL fuel source sourceLength dest destLength = Ok (n, dest') ->
       length dest' = length dest
       /\ forall j : nat, destLength <= Z.of_nat j -> dest' !! j = dest !! j.
Proof.
  intros Hdl H32. unfold DecompressLZCL.
  pose proof (DecompressLZCLStart_no_dest_fault fuel source sourceLength dest destLength)
    as Hs.
  destruct (DecompressLZCLStart fuel source sourceLength dest destLength)
    as [[n0 state]|f] eqn:Es; cbn [bind];
    [|split; [exact (no_dest_fault_Err f Hs) | discriminate]].
  apply DecompressLZCLStart_dest in Es as [Ed El].
  rewrite wrap32_small in El by lia.
  destruct (DecompressLZCL_loop_safe fuel fuel state) as [H1 H2];
    [rewrite Ed, El; lia|].
  destruct (DecompressLZCL_loop fuel fuel state) as [state'|f]; cbn [bind];
    [|split; [exact (no_dest_fault_Err f H1) | discriminate]].
  split; [discriminate|]. intros n dest' [= <- <-].
  destruct (H2 _ eq_refl) as [Hl Hframe]. rewrite Ed in Hl, Hframe.
  rewrite El in Hframe. split; [exact Hl | exact Hframe].
Qed.

Lemma DecompressLZCL_within_dest_witness :
  DecompressLZCL 8 token_mode_stream 12 [0; 0; 0; 9; 9] 3 = Ok (5, [97; 3; 97; 9; 9])
  /\ DecompressLZCL 8 token_mode_stream 12 [0; 0; 0; 9; 9] 3 <> Err DestOverrun
  /\ forall n dest',
       DecompressLZCL 8 token_mode_stream 12 [0; 0; 0; 9; 9] 3 = Ok (n, dest') ->
       length dest' = length [0; 0; 0; 9; 9]
       /\ forall j : nat, 3 <= Z.of_nat j -> dest' !! j = [0; 0; 0; 9; 9] !! j.
Proof.
  split; [vm_compute; reflexivity|].
  apply (DecompressLZCL_within_dest 8 token_mode_stream 12 [0; 0; 0; 9; 9] 3);
    simpl; lia.
Defined.

(** ** LZCL coding: the items of the header *)

Ltac subcodec_fields :=
  cbn
    [LZCLSubCodec.fixedState LZCLSubCodec.arithmeticState LZCLSubCodec.huffmanState
     LZCLSubCodec.golombState LZCLSubCodec.codecType LZCLSubCodec.bitLength
     LZCLSubCodec.set_fixedState LZCLSubCodec.set_arithmeticState
     LZCLSubCodec.set_huffmanState LZCLSubCodec.set_golombState
     LZCLSubCodec.set_codecType LZCLSubCodec.set_bitLength] in *.

Lemma ReadHuffmanHeaderNoLength_byteLength fuel state state' :
  ReadHuffmanHeaderNoLength fuel state = Ok state' ->
  HuffmanState.byteLength state' = HuffmanState.byteLength state.
Proof.
  unfold ReadHuffmanHeaderNoLength. cbv zeta. intros H.
  apply bind_Ok in H as [[v1 bs1] [_ H]]. apply bind_Ok in H as [[v2 bs2] [_ H]].
  apply bind_Ok in H as [[v3 bs3] [_ H]]. apply bind_Ok in H as [[v4 bs4] [_ H]].
  apply ParseHuffmanTable_byteLength in H as [H _]. exact H.
Qed.

(** X21. An item read by [ReadLZCLItem] has the codec type given by the
    two bits at the cursor, a value in 0..3, and the bit length given by the
    universal code after them; the stream of the caller ends up exactly
    [bitLength] bits after that length field, whatever the header of the
    sub-codec consumed, over the same bytes; a Huffman sub-codec is marked
    as running without a byte count ([byteLength = 0xFFFFFFFF]). *)
Theorem ReadLZCLItem_skips (fuel : nat) (decoder : LZCLSubCodec_t)
    (bitstream : Bitstream_t) (decoder' : LZCLSubCodec_t) (bitstream' : Bitstream_t) :
  ReadLZCLItem fuel decoder bitstream = Ok (decoder', bitstream') ->
  exists bs1 bs2,
    ReadBitstream bitstream 2 = Ok (LZCLSubCodec.codecType decoder', bs1)
    /\ DecodeUniversalLomont1 fuel bs1 6 0 = Ok (LZCLSubCodec.bitLength decoder', bs2)
    /\ 0 <= LZCLSubCodec.codecType decoder' <= 3
    /\ bitstream'
       = mkBitstream (wrap32 (position bs2 + LZCLSubCodec.bitLength decoder'))
           (data bitstream)
    /\ (LZCLSubCodec.codecType decoder' = 2 ->
        HuffmanState.byteLength (LZCLSubCodec.huffmanState decoder') = 0xFFFFFFFF).
Proof.
  unfold ReadLZCLItem. cbv zeta. intros H.
  apply bind_Ok in H as [[v bs1] [H1 H]]. apply bind_Ok in H as [[len bs2] [H2 H]].
  apply bind_Ok in H as [dec [H3 H]]. injection H as <- <-.
  pose proof (ReadBitstream_bound _ _ _ _ H1 ltac:(lia)) as Hv.
  change (2 ^ 2) with 4 in Hv.
  assert (Hw : wrap8 v = v) by (unfold wrap8; apply Z.mod_small; lia).
  pose proof (ReadBitstream_data _ _ _ _ H1) as Hd1.
  pose proof (DecodeUniversalLomont1_data _ _ _ _ _ _ H2) as Hd2.
  rewrite Hw in H3. subcodec_fields.
  assert (Hdec : LZCLSubCodec.codecType dec = v /\ LZCLSubCodec.bitLength dec = len
                 /\ (v = 2 -> HuffmanState.byteLength (LZCLSubCodec.huffmanState dec)
                              = 0xFFFFFFFF)).
  { destruct (v =? 0) eqn:E0.
    { apply Z.eqb_eq in E0. apply bind_Ok in H3 as [st [_ H3]]. injection H3 as <-.
      subcodec_fields. split; [reflexivity|]. split; [reflexivity | lia]. }
    destruct (v =? 1) eqn:E1.
    { apply Z.eqb_eq in E1. apply bind_Ok in H3 as [[n st] [_ H3]]. injection H3 as <-.
      subcodec_fields. split; [reflexivity|]. split; [reflexivity | lia]. }
    destruct (v =? 2) eqn:E2.
    { apply bind_Ok in H3 as [st [_ H3]]. injection H3 as <-.
      subcodec_fields. split; [reflexivity|]. split; reflexivity. }
    apply Z.eqb_neq in E2.
    destruct (v =? 3) eqn:E3.
    { apply bind_Ok in H3 as [st [_ H3]]. injection H3 as <-.
      subcodec_fields. split; [reflexivity|]. split; [reflexivity | lia]. }
    injection H3 as <-. subcodec_fields. split; [reflexivity|].
    split; [reflexivity | lia]. }
  destruct Hdec as (Hc & Hl & Hh). rewrite Hc, Hl.
  exists bs1, bs2. split; [exact H1|]. split; [exact H2|]. split; [lia|].
  split; [|exact Hh]. f_equal. congruence.
Qed.

Lemma ReadLZCLItem_skips_witness :
  exists bs1 bs2,
    ReadBitstream (mkBitstream 22 token_mode_stream) 2 = Ok (0, bs1)
    /\ DecodeUniversalLomont1 4 bs1 6 0 = Ok (7, bs2)
    /\ 0 <= 0 <= 3
    /\ mkBitstream 38 token_mode_stream
       = mkBitstream (wrap32 (position bs2 + 7)) (data (mkBitstream 22 token_mode_stream))
    /\ (0 = 2 -> HuffmanState.byteLength HuffmanState.zero = 0xFFFFFFFF).
Proof.
  exact (ReadLZCLItem_skips 4 LZCLSubCodec.zero (mkBitstream 22 token_mode_stream)
           (LZCLSubCodec.set_bitLength 7
              (LZCLSubCodec.set_fixedState
                 (FixedState.mk (mkBitstream 35 token_mode_stream) 1)
                 LZCLSubCodec.zero))
           (mkBitstream 38 token_mode_stream) eq_refl).
Defined.

(** ** LZCL coding: decisions stored as runs *)

Ltac lzcl_fields :=
  cbn [LZCLState.actualMinLength LZCLState.actualMaxDistance LZCLState.byteLength
       LZCLState.byteIndex LZCLState.bitstream LZCLState.useDecisionRuns
       LZCLState.decisionCodec LZCLState.literalCodec LZCLState.useTokens
       LZCLState.tokenCodec LZCLState.lengthCodec LZCLState.initialValue
       LZCLState.dest LZCLState.destLength LZCLState.curRun LZCLState.runsLeft
       LZCLState.decisionRunCodec LZCLState.distanceCodec
       LZCLState.set_decisionCodec LZCLState.set_decisionRunCodec
       LZCLState.set_curRun LZCLState.set_runsLeft] in *.

(** X22. When decisions are stored as runs, with [initialValue] a bit and
    [curRun] one of -1, 0, 1, a decision returned by [GetLZCLDecision] is 0
    or 1 and is the new [curRun]; [initialValue] and the mode are kept.
    While a run is under way ([curRun >= 0], [runsLeft > 0]) the decision is
    [curRun] and only [runsLeft] changes, by one: no input is read. *)
Theorem GetLZCLDecision_runs_binary (fuel : nat) (state : LZCLState_t)
    (decision : Z) (state' : LZCLState_t) :
  LZCLState.useDecisionRuns state <> 0 ->
  0 <= LZCLState.initialValue state <= 1 ->
  -1 <= LZCLState.curRun state <= 1 ->
  GetLZCLDecision fuel state = Ok (decision, state') ->
  0 <= decision <= 1
  /\ LZCLState.curRun state' = decision
  /\ LZCLState.initialValue state' = LZCLState.initialValue state
  /\ LZCLState.useDecisionRuns state' = LZCLState.useDecisionRuns state
  /\ (0 <= LZCLState.curRun state -> 0 < LZCLState.runsLeft state ->
      decision = LZCLState.curRun state
      /\ state' = LZCLState.set_runsLeft (wrap32 (LZCLState.runsLeft state - 1)) state).
Proof.
  intros Hmode Hinit Hcur H. unfold GetLZCLDecision in H.
  apply Z.eqb_neq in Hmode. rewrite Hmode in H.
  assert (Hx : forall c, 0 <= c <= 1 -> 0 <= Z.lxor c 1 <= 1 /\ wrap32 c = c
                                       /\ wrap32 (Z.lxor c 1) = Z.lxor c 1).
  { intros c Hc. assert (c = 0 \/ c = 1) as [-> | ->] by lia.
    - change (Z.lxor 0 1) with 1. split; [lia | split; reflexivity].
    - change (Z.lxor 1 1) with 0. split; [lia | split; reflexivity]. }
  assert (Hi : to_int32 (LZCLState.initialValue state) = LZCLState.initialValue state).
  { unfold to_int32. assert (E : (LZCLState.initialValue state <? 2 ^ 31) = true)
      by (apply Z.ltb_lt; lia). rewrite E. reflexivity. }
  destruct state as [ml md bl bi bs udr dc lc ut tc lnc iv dest dl cr rl].
  lzcl_fields. rewrite Hi in H.
  destruct (cr =? -1) eqn:E1; lzcl_fields.
  - apply Z.eqb_eq in E1.
    apply bind_Ok in H as [s1 [H1 H]]. apply bind_Ok in H1 as [[v1 c1] [_ H1]].
    injection H1 as <-. lzcl_fields.
    destruct (Hx iv Hinit) as (Hl & Hw & Hwl).
    destruct (v1 =? 0); lzcl_fields.
    + apply bind_Ok in H as [s2 [H2 H]]. apply bind_Ok in H2 as [[v2 c2] [_ H2]].
      injection H2 as <-. injection H as <- <-. lzcl_fields.
      rewrite Hwl. repeat split; try lia.
    + cbn [bind] in H. injection H as <- <-. lzcl_fields.
      rewrite Hw. repeat split; try lia.
  - apply Z.eqb_neq in E1. cbn [bind] in H. lzcl_fields.
    assert (Hc : 0 <= cr <= 1) by lia.
    destruct (Hx cr Hc) as (Hl & Hw & Hwl).
    destruct (rl =? 0) eqn:E2; lzcl_fields.
    + apply Z.eqb_eq in E2.
      apply bind_Ok in H as [s2 [H2 H]]. apply bind_Ok in H2 as [[v2 c2] [_ H2]].
      injection H2 as <-. injection H as <- <-. lzcl_fields.
      rewrite Hwl. repeat split; try lia.
    + cbn [bind] in H. injection H as <- <-. lzcl_fields.
      rewrite Hw. repeat split; try lia.
Qed.

Lemma GetLZCLDecision_runs_binary_witness :
  GetLZCLDecision 4 lzcl_runs_state = Ok (1, LZCLState.set_runsLeft 1 lzcl_runs_state)
  /\ 0 <= 1 <= 1
  /\ LZCLState.curRun (LZCLState.set_runsLeft 1 lzcl_runs_state) = 1
  /\ LZCLState.initialValue (LZCLState.set_runsLeft 1 lzcl_runs_state)
     = LZCLState.initialValue lzcl_runs_state
  /\ LZCLState.useDecisionRuns (LZCLState.set_runsLeft 1 lzcl_runs_state)
     = LZCLState.useDecisionRuns lzcl_runs_state
  /\ (0 <= LZCLState.curRun lzcl_runs_state -> 0 < LZCLState.runsLeft lzcl_runs_state ->
      1 = LZCLState.curRun lzcl_runs_state
      /\ LZCLState.set_runsLeft 1 lzcl_runs_state
         = LZCLState.set_runsLeft (wrap32 (LZCLState.runsLeft lzcl_runs_state - 1))
             lzcl_runs_state).
Proof.
  split; [reflexivity|].
  apply (GetLZCLDecision_runs_binary 4 lzcl_runs_state 1
           (LZCLState.set_runsLeft 1 lzcl_runs_state));
    [simpl; lia | simpl; lia | simpl; lia | reflexivity].
Defined.

(** ** Counting bits *)

Lemma digit_div_mod k d a :
  0 <= d < 2 ^ k -> (d + 2 ^ k * a) mod 2 ^ k = d /\ (d + 2 ^ k * a) / 2 ^ k = a.
Proof.
  intros Hd. split; symmetry.
  - apply (Z.mod_unique_pos _ _ a); lia.
  - apply (Z.div_unique_pos _ _ a d); lia.
Qed.

Lemma testbit_digit k d a n :
  0 <= k -> 0 <= d < 2 ^ k -> 0 <= n ->
  Z.testbit (d + 2 ^ k * a) n = if n <? k then Z.testbit d n else Z.testbit a (n - k).
Proof.
  intros Hk Hd Hn. destruct (n <? k) eqn:E.
  - apply Z.ltb_lt in E. rewrite <- (Z.mod_pow2_bits_low (d + 2 ^ k * a) k n) by lia.
    f_equal. apply digit_div_mod. exact Hd.
  - apply Z.ltb_ge in E.
    replace n with (n - k + k) at 1 by lia.
    rewrite <- Z.div_pow2_bits by lia. f_equal. apply digit_div_mod. exact Hd.
Qed.

Lemma land_small_range k d m : 0 <= k -> 0 <= d < 2 ^ k -> 0 <= m -> 0 <= Z.land d m < 2 ^ k.
Proof.
  intros Hk Hd Hm. split; [apply Z.land_nonneg; lia|].
  destruct (Z.eq_dec (Z.land d m) 0) as [-> | Hnz]; [lia|].
  apply Z.log2_lt_pow2; [pose proof (proj2 (Z.land_nonneg d m) (or_introl (proj1 Hd))); lia|].
  pose proof (Z.log2_land d m ltac:(lia) Hm) as Hl.
  destruct (Z.eq_dec d 0) as [-> | Hd0]; [rewrite Z.land_0_l in Hnz; lia|].
  assert (Z.log2 d < k) by (apply Z.log2_lt_pow2; lia). lia.
Qed.

Lemma land_digit k d a m b :
  0 <= k -> 0 <= d < 2 ^ k -> 0 <= m < 2 ^ k ->
  Z.land (d + 2 ^ k * a) (m + 2 ^ k * b) = Z.land d m + 2 ^ k * Z.land a b.
Proof.
  intros Hk Hd Hm. apply Z.bits_inj'. intros n Hn.
  rewrite Z.land_spec, !testbit_digit by (try apply land_small_range; lia).
  destruct (n <? k); rewrite Z.land_spec; reflexivity.
Qed.

Lemma land_digits k : forall ds ms,
  0 <= k -> Forall (fun d => 0 <= d < 2 ^ k) ds -> Forall (fun m => 0 <= m < 2 ^ k) ms ->
  Z.land (digits_value k ds) (digits_value k ms) = digits_value k (zip_with Z.land ds ms).
Proof.
  intros ds ms Hk Hds. revert ms. induction Hds as [|d ds Hd Hds IH]; intros ms Hms.
  - apply Z.land_0_l.
  - destruct Hms as [|m ms Hm Hms]; [apply Z.land_0_r|].
    cbn [digits_value foldr zip_with]. fold (digits_value k ds) (digits_value k ms).
    rewrite land_digit by lia. rewrite IH by exact Hms. reflexivity.
Qed.

Lemma shiftr_digits k d ds :
  0 <= k -> 0 <= d < 2 ^ k ->
  Z.shiftr (digits_value k (d :: ds)) k = digits_value k ds.
Proof.
  intros Hk Hd. rewrite Z.shiftr_div_pow2 by lia.
  cbn [digits_value foldr]. fold (digits_value k ds).
  apply digit_div_mod. exact Hd.
Qed.

Lemma bits_of_value n : forall v,
  0 <= v < 2 ^ Z.of_nat n -> v = digits_value 1 (bits_of n v).
Proof.
  induction n as [|n IH]; intros v Hv.
  - change (2 ^ Z.of_nat 0) with 1 in Hv. cbn. lia.
  - unfold bits_of. cbn [seq fmap list_fmap digits_value foldr].
    rewrite <- seq_shift, <- list_fmap_compose.
    assert (Hh : 0 <= Z.div2 v < 2 ^ Z.of_nat n).
    { rewrite Z.div2_div. rewrite Nat2Z.inj_succ, Z.pow_succ_r in Hv by lia.
      split; [apply Z.div_pos; lia | apply Z.div_lt_upper_bound; lia]. }
    specialize (IH _ Hh). unfold bits_of in IH.
    erewrite (list_fmap_ext _ (fun i => Z.b2z (Z.testbit (Z.div2 v) (Z.of_nat i)))).
    + fold (digits_value 1 ((fun i => Z.b2z (Z.testbit (Z.div2 v) (Z.of_nat i)))
                              <$> seq 0 n)).
      rewrite <- IH. change (Z.of_nat 0) with 0. rewrite Z.bit0_odd.
      change (2 ^ 1) with 2. pose proof (Z.div2_odd v). lia.
    + intros i x _. cbn. rewrite Z.div2_spec, Z.shiftr_spec by lia.
      do 2 f_equal. lia.
Qed.

Lemma land_low_mask d k m :
  0 <= k -> m = Z.ones k -> 0 <= d < 2 ^ k -> Z.land d m = d.
Proof. intros Hk -> Hd. rewrite Z.land_ones by lia. apply Z.mod_small. lia. Qed.

Ltac explode_digits ds Hlen Hall :=
  repeat (destruct ds as [|? ds]; [discriminate Hlen|]);
  destruct ds; [|discriminate Hlen]; clear Hlen;
  repeat match goal with
         | H : Forall _ (_ :: _) |- _ => apply Forall_cons in H as [? H]
         end;
  clear Hall.

Ltac digits_arith :=
  cbn [digits_value foldr pair_sums zip_with];
  change (2 ^ 1) with 2; change (2 ^ 2) with 4; change (2 ^ 4) with 16;
  change (2 ^ 8) with 256; change (2 ^ 16) with 65536; change (2 ^ 32) with 4294967296.

Lemma OnesCount_pairs (bs : list Z) :
  length bs = 32%nat -> Forall (fun b => 0 <= b <= 1) bs ->
  wrap32 (digits_value 1 bs - Z.land (Z.shiftr (digits_value 1 bs) 1) 0x55555555)
  = digits_value 2 (pair_sums bs).
Proof.
  intros Hlen Hall. explode_digits bs Hlen Hall.
  rewrite shiftr_digits by lia.
  change 0x55555555 with (digits_value 1 [1; 0; 1; 0; 1; 0; 1; 0; 1; 0; 1; 0; 1; 0; 1; 0; 1; 0; 1; 0; 1; 0; 1; 0; 1; 0; 1; 0; 1; 0; 1; 0]).
  rewrite land_digits by (try lia; repeat constructor; lia).
  cbn [zip_with]. rewrite !Z.land_0_r.
  repeat match goal with
         | |- context [Z.land ?b 1] => rewrite (land_low_mask b 1 1) by (try reflexivity; lia)
         end.
  unfold wrap32. rewrite Z.mod_small; digits_arith; lia.
Qed.

Lemma OnesCount_nibbles (ds : list Z) :
  length ds = 16%nat -> Forall (fun d => 0 <= d <= 2) ds ->
  wrap32 (Z.land (Z.shiftr (digits_value 2 ds) 2) 0x33333333
          + Z.land (digits_value 2 ds) 0x33333333)
  = digits_value 4 (pair_sums ds).
Proof.
  intros Hlen Hall. explode_digits ds Hlen Hall.
  rewrite shiftr_digits by lia.
  change 0x33333333 with (digits_value 2 [3; 0; 3; 0; 3; 0; 3; 0; 3; 0; 3; 0; 3; 0; 3; 0]).
  rewrite !land_digits by (try lia; repeat constructor; lia).
  cbn [zip_with]. rewrite !Z.land_0_r.
  repeat match goal with
         | |- context [Z.land ?d 3] => rewrite (land_low_mask d 2 3) by (try reflexivity; lia)
         end.
  unfold wrap32. rewrite Z.mod_small; digits_arith; lia.
Qed.

Lemma OnesCount_bytes (ds : list Z) :
  length ds = 8%nat -> Forall (fun d => 0 <= d <= 4) ds ->
  Z.land (wrap32 (Z.shiftr (digits_value 4 ds) 4 + digits_value 4 ds)) 0x0f0f0f0f
  = digits_value 8 (pair_sums ds).
Proof.
  intros Hlen Hall. explode_digits ds Hlen Hall.
  rewrite shiftr_digits by lia.
  match goal with
  | |- context [digits_value 4 (?n0 :: ?n1 :: ?n2 :: ?n3 :: ?n4 :: ?n5 :: ?n6 :: ?n7 :: [])] =>
      replace (wrap32 (digits_value 4 [n1; n2; n3; n4; n5; n6; n7]
                       + digits_value 4 [n0; n1; n2; n3; n4; n5; n6; n7]))
        with (digits_value 4 [n0 + n1; n1 + n2; n2 + n3; n3 + n4; n4 + n5; n5 + n6;
                              n6 + n7; n7])
        by (unfold wrap32; rewrite Z.mod_small; digits_arith; lia)
  end.
  change 0x0f0f0f0f with (digits_value 4 [15; 0; 15; 0; 15; 0; 15; 0]).
  rewrite land_digits by (try lia; repeat constructor; lia).
  cbn [zip_with]. rewrite !Z.land_0_r.
  repeat match goal with
         | |- context [Z.land ?d 15] => rewrite (land_low_mask d 4 15) by (try reflexivity; lia)
         end.
  digits_arith. lia.
Qed.

Lemma OnesCount_total (ds : list Z) :
  length ds = 4%nat -> Forall (fun d => 0 <= d <= 8) ds ->
  let value := digits_value 8 ds in
  let value := wrap32 (value + Z.shiftr value 8) in
  let value := wrap32 (value + Z.shiftr value 16) in
  Z.land value 0x0000003f = foldr Z.add 0 ds.
Proof.
  intros Hlen Hall. explode_digits ds Hlen Hall. cbv zeta.
  rewrite shiftr_digits by lia.
  match goal with
  | |- context [digits_value 8 (?c0 :: ?c1 :: ?c2 :: ?c3 :: [])] =>
      replace (wrap32 (digits_value 8 [c0; c1; c2; c3] + digits_value 8 [c1; c2; c3]))
        with (digits_value 16 [c0 + c1 + 256 * (c1 + c2); c2 + c3 + 256 * c3])
        by (unfold wrap32; rewrite Z.mod_small; digits_arith; lia);
      rewrite shiftr_digits by lia;
      replace (wrap32 (digits_value 16 [c0 + c1 + 256 * (c1 + c2); c2 + c3 + 256 * c3]
                       + digits_value 16 [c2 + c3 + 256 * c3]))
        with (digits_value 6 [c0 + c1 + c2 + c3;
                              4 * (c1 + c2 + c3) + 1024 * (c2 + c3) + 262144 * c3])
        by (unfold wrap32; rewrite Z.mod_small; digits_arith;
            change (2 ^ 6) with 64; lia)
  end.
  change 0x0000003f with (digits_value 6 [63]). cbn [digits_value foldr].
  rewrite land_digit by lia.
  rewrite (land_low_mask _ 6 63) by (try reflexivity; lia).
  rewrite Z.land_0_r. lia.
Qed.

Lemma pair_sums_total : forall ds n,
  length ds = (2 * n)%nat -> foldr Z.add 0 (pair_sums ds) = foldr Z.add 0 ds.
Proof.
  fix IH 1. intros [|a [|b ds]] n Hlen; [reflexivity | cbn in Hlen; lia |].
  cbn [pair_sums foldr]. destruct n as [|n]; [discriminate|].
  rewrite (IH ds n) by (cbn in Hlen; lia). lia.
Qed.

Lemma pair_sums_length : forall ds n,
  length ds = (2 * n)%nat -> length (pair_sums ds) = n.
Proof.
  fix IH 1. intros [|a [|b ds]] n Hlen; [cbn in *; lia | cbn in *; lia |].
  cbn [pair_sums length]. destruct n as [|n]; [discriminate|].
  rewrite (IH ds n) by (cbn in Hlen; lia). reflexivity.
Qed.

Lemma pair_sums_bound m : forall ds,
  Forall (fun d => 0 <= d <= m) ds -> Forall (fun d => 0 <= d <= 2 * m) (pair_sums ds).
Proof.
  fix IH 1. intros [|a [|b ds]] Hall; [constructor | constructor |].
  apply Forall_cons in Hall as [Ha Hall]. apply Forall_cons in Hall as [Hb Hall].
  cbn [pair_sums]. constructor; [lia | apply IH; exact Hall].
Qed.

(** X23. On every [uint32_t], [OnesCount] is the number of bits set, a
    value between 0 and 32. *)
Theorem OnesCount_bits_set (value : Z) :
  0 <= value < 2 ^ 32 -> OnesCount value = bits_set value /\ 0 <= OnesCount value <= 32.
Proof.
  intros Hv. unfold bits_set.
  assert (Hall : Forall (fun b => 0 <= b <= 1) (bits_of 32 value)).
  { unfold bits_of. apply Forall_fmap, Forall_forall. intros i _. cbn.
    destruct (Z.testbit value (Z.of_nat i)); cbn; lia. }
  assert (Hlen : length (bits_of 32 value) = 32%nat).
  { unfold bits_of. rewrite length_fmap. apply length_seq. }
  pose proof (bits_of_value 32 value Hv) as Hval.
  revert Hall Hlen Hval. generalize (bits_of 32 value). intros bs Hall Hlen ->.
  clear Hv.
  assert (Hcount : OnesCount (digits_value 1 bs) = foldr Z.add 0 bs).
  { unfold OnesCount.
    rewrite OnesCount_pairs by assumption. cbv zeta.
    assert (H2 : length (pair_sums bs) = 16%nat) by (apply pair_sums_length; exact Hlen).
    assert (B2 : Forall (fun d => 0 <= d <= 2) (pair_sums bs))
      by (apply (pair_sums_bound 1); exact Hall).
    rewrite OnesCount_nibbles by assumption.
    assert (H4 : length (pair_sums (pair_sums bs)) = 8%nat)
      by (apply pair_sums_length; exact H2).
    assert (B4 : Forall (fun d => 0 <= d <= 4) (pair_sums (pair_sums bs)))
      by (apply (pair_sums_bound 2); exact B2).
    rewrite OnesCount_bytes by assumption.
    assert (H8 : length (pair_sums (pair_sums (pair_sums bs))) = 4%nat)
      by (apply pair_sums_length; exact H4).
    assert (B8 : Forall (fun d => 0 <= d <= 8) (pair_sums (pair_sums (pair_sums bs))))
      by (apply (pair_sums_bound 4); exact B4).
    pose proof (OnesCount_total _ H8 B8) as Ht. cbv zeta in Ht. rewrite Ht.
    rewrite (pair_sums_total _ 4 H4), (pair_sums_total _ 8 H2), (pair_sums_total _ 16 Hlen).
    reflexivity. }
  split; [exact Hcount|]. rewrite Hcount. clear Hcount.
  explode_digits bs Hlen Hall. cbn [foldr]. lia.
Qed.

Lemma OnesCount_bits_set_witness :
  OnesCount 0xF00F0001 = 9
  /\ OnesCount 0xF00F0001 = bits_set 0xF00F0001 /\ 0 <= OnesCount 0xF00F0001 <= 32.
Proof. split; [reflexivity|]. apply (OnesCount_bits_set 0xF00F0001). lia. Defined.

(** ** LZ77: the one-shot decoder runs to the announced length *)

Lemma DecompressLZ77Block_progress (state : LZ77State_t) (r : Z) (state' : LZ77State_t) :
  0 <= LZ77State.actualBitsPerToken state < 32 ->
  0 <= LZ77State.actualMinLength state < 256 ->
  DecompressLZ77Block state = Ok (r, state') ->
  LZ77State.byteLength state' = LZ77State.byteLength state
  /\ LZ77State.actualBitsPerToken state' = LZ77State.actualBitsPerToken state
  /\ LZ77State.actualMinLength state' = LZ77State.actualMinLength state
  /\ (r = CL_COMPRESSOR_END_TOKEN ->
      state' = state /\ LZ77State.byteLength state <= LZ77State.byteIndex state).
Proof.
  intros Hbpt Hml. unfold DecompressLZ77Block.
  destruct (LZ77State.byteLength state <=? LZ77State.byteIndex state) eqn:E.
  { intros [= <- <-]. apply Z.leb_le in E. auto. }
  intros H. apply bind_Ok in H as [[decision bs1] [_ H]].
  destruct (decision =? 0).
  - apply bind_Ok in H as [[lit bs2] [_ H]]. apply bind_Ok in H as [to [_ H]].
    apply bind_Ok in H as [dest1 [_ H]]. injection H as <- <-.
    split; [reflexivity|]. split; [reflexivity|]. split; [reflexivity|].
    unfold CL_COMPRESSOR_END_TOKEN. discriminate.
  - apply bind_Ok in H as [[token bs2] [Ht H]]. apply bind_Ok in H as [q [Hq H]].
    apply bind_Ok in H as [distance [_ H]].
    apply bind_Ok in H as [[[length1 state1] stores] [Hrun H]]. injection H as <- <-.
    unfold DecompressLZ77Block_run in Hrun. cbv zeta in Hrun.
    apply bind_Ok in Hrun as [[state2 stores2] [Hcopy Hrun]].
    injection Hrun as <- <- <-.
    apply DecompressLZ77Block_copy_frame in Hcopy. rewrite Hcopy.
    cbn [LZ77State.byteLength LZ77State.actualBitsPerToken LZ77State.actualMinLength
         LZ77State.set_byteIndex LZ77State.set_dest LZ77State.set_bitstream].
    split; [reflexivity|]. split; [reflexivity|]. split; [reflexivity|].
    intros Hend. exfalso.
    cbn [LZ77State.bitstream LZ77State.actualBitsPerToken LZ77State.set_bitstream] in Ht.
    apply ReadBitstream_bound in Ht; [|lia].
    assert (Hp : 2 ^ LZ77State.actualBitsPerToken state <= 2 ^ 31)
      by (apply Z.pow_le_mono_r; lia).
    apply divu_Ok in Hq as [Hnz ->].
    cbn [LZ77State.actualMaxDistance LZ77State.actualMinLength
         LZ77State.set_bitstream] in Hend, Hnz.
    pose proof (wrap32_range (LZ77State.actualMaxDistance state + 1)) as Hd.
    set (d := wrap32 (LZ77State.actualMaxDistance state + 1)) in *.
    assert (Hq : 0 <= token / d <= token).
    { split; [apply Z.div_pos; lia|]. apply Z.div_le_upper_bound; [lia|]. nia. }
    unfold CL_COMPRESSOR_END_TOKEN in Hend.
    rewrite wrap32_small in Hend by lia. lia.
Qed.

Lemma DecompressLZ77Block_copy_byteIndex n : forall delta state state' stores,
  DecompressLZ77Block_copy n delta state = Ok (state', stores) ->
  0 <= LZ77State.byteIndex state < 2 ^ 32 ->
  0 <= LZ77State.byteIndex state' < 2 ^ 32.
Proof.
  induction n as [|n IH]; intros delta state state' stores H Hb.
  - injection H as <- _. exact Hb.
  - cbn [DecompressLZ77Block_copy] in H.
    apply bind_Ok in H as [to [_ H]]. apply bind_Ok in H as [from [_ H]].
    apply bind_Ok in H as [v [_ H]]. apply bind_Ok in H as [dest1 [_ H]].
    apply bind_Ok in H as [[state1 stores1] [Hc H]]. injection H as <- _.
    apply IH in Hc; [exact Hc|].
    cbn [LZ77State.byteIndex LZ77State.set_byteIndex]. apply wrap32_range.
Qed.

Lemma DecompressLZ77Block_byteIndex (state : LZ77State_t) (r : Z) (state' : LZ77State_t) :
  DecompressLZ77Block state = Ok (r, state') ->
  0 <= LZ77State.byteIndex state < 2 ^ 32 ->
  0 <= LZ77State.byteIndex state' < 2 ^ 32.
Proof.
  unfold DecompressLZ77Block.
  destruct (LZ77State.byteLength state <=? LZ77State.byteIndex state).
  { intros [= _ <-]. auto. }
  intros H Hb. apply bind_Ok in H as [[decision bs1] [_ H]].
  destruct (decision =? 0).
  - apply bind_Ok in H as [[lit bs2] [_ H]]. apply bind_Ok in H as [to [_ H]].
    apply bind_Ok in H as [dest1 [_ H]]. injection H as _ <-.
    cbn [LZ77State.byteIndex LZ77State.set_byteIndex]. apply wrap32_range.
  - apply bind_Ok in H as [[token bs2] [_ H]]. apply bind_Ok in H as [q [_ H]].
    apply bind_Ok in H as [distance [_ H]].
    apply bind_Ok in H as [[[length1 state1] stores] [Hrun H]]. injection H as _ <-.
    unfold DecompressLZ77Block_run in Hrun. cbv zeta in Hrun.
    apply bind_Ok in Hrun as [[state2 stores2] [Hcopy Hrun]].
    injection Hrun as _ <- _.
    apply DecompressLZ77Block_copy_byteIndex in Hcopy; [exact Hcopy|].
    exact Hb.
Qed.

Lemma DecompressLZ77_loop_reaches fuel : forall state state',
  0 <= LZ77State.actualBitsPerToken state < 32 ->
  0 <= LZ77State.actualMinLength state < 256 ->
  0 <= LZ77State.byteIndex state < 2 ^ 32 ->
  DecompressLZ77_loop fuel state = Ok state' ->
  LZ77State.byteLength state' = LZ77State.byteLength state
  /\ LZ77State.byteLength state' <= LZ77State.byteIndex state'
  /\ 0 <= LZ77State.byteIndex state' < 2 ^ 32.
Proof.
  induction fuel as [|fuel IH]; intros state state' Hbpt Hml Hbi H; [discriminate|].
  cbn [DecompressLZ77_loop] in H. apply bind_Ok in H as [[r state1] [Hb H]].
  pose proof (DecompressLZ77Block_byteIndex _ _ _ Hb Hbi) as Hbi1.
  apply DecompressLZ77Block_progress in Hb as (Hl & Hb1 & Hm1 & Hend); try assumption.
  destruct (r =? CL_COMPRESSOR_END_TOKEN) eqn:E; cbn [negb] in H.
  - injection H as <-. apply Z.eqb_eq in E. destruct (Hend E) as [-> Hle].
    split; [reflexivity | lia].
  - apply IH in H as [H1 H2]; [|lia|lia|exact Hbi1]. split; [congruence | exact H2].
Qed.

(** X24. When the header gives fewer than 32 bits per token, a run of the
    one-shot [DecompressLZ77] that returns has decoded at least the number
    of bytes the header announces: the value returned, read as a
    [uint32_t], is the [byteIndex] the loop ended with, and it is at least
    [byteLength].  The loop only stops on the end token that
    [DecompressLZ77Block] returns once [byteIndex >= byteLength], never on
    the length of a run. *)
Theorem DecompressLZ77_decodes_all (fuel : nat) (source : list Z) (sourceLength : Z)
    (dest : list Z) (destLength : Z) (state : LZ77State_t) (n : Z) (dest' : list Z) :
  DecompressLZ77Start fuel source sourceLength dest destLength = Ok state ->
  LZ77State.actualBitsPerToken state < 32 ->
  DecompressLZ77 fuel source sourceLength dest destLength = Ok (n, dest') ->
  LZ77State.byteLength state <= wrap32 n
  /\ exists state',
       DecompressLZ77_loop fuel state = Ok state'
       /\ LZ77State.byteIndex state' = wrap32 n
       /\ LZ77State.dest state' = dest'.
Proof.
  intros Hs Hbpt H. unfold DecompressLZ77 in H. rewrite Hs in H. cbn [bind] in H.
  apply bind_Ok in H as [state' [Hloop H]]. injection H as <- <-.
  assert (Hr : 0 <= LZ77State.actualBitsPerToken state
               /\ 0 <= LZ77State.actualMinLength state < 256
               /\ LZ77State.byteIndex state = 0).
  { unfold DecompressLZ77Start in Hs. cbv zeta in Hs. bind_steps.
    cbn [LZ77State.actualBitsPerToken LZ77State.actualMinLength LZ77State.byteIndex].
    unfold wrap8. change (2 ^ 8) with 256.
    split; [apply Z.mod_pos_bound; lia|]. split; [apply Z.mod_pos_bound; lia|].
    reflexivity. }
  destruct Hr as (Hb0 & Hml & Hbi0).
  pose proof Hloop as Hloop'.
  apply DecompressLZ77_loop_reaches in Hloop' as (Hl & Hle & Hrange);
    [|lia|exact Hml|lia].
  assert (Hw : wrap32 (to_int32 (LZ77State.byteIndex state'))
               = LZ77State.byteIndex state').
  { unfold to_int32. destruct (LZ77State.byteIndex state' <? 2 ^ 31).
    - apply wrap32_small. lia.
    - rewrite (wrap32_congr _ (LZ77State.byteIndex state') (-1)) by lia.
      apply wrap32_small. lia. }
  rewrite Hw. split; [lia|]. exists state'. auto.
Qed.

Lemma DecompressLZ77_decodes_all_witness :
  DecompressLZ77 8 lz77_stream 11 [0; 0; 0; 9; 9] 3 = Ok (5, [98; 97; 97; 9; 9])
  /\ 5 <= wrap32 5
  /\ exists state',
       DecompressLZ77_loop 8
         (LZ77State.mk (mkBitstream 61 lz77_stream) 0 5 [0; 0; 0; 9; 9] 3 15 1 2 8 4)
       = Ok state'
       /\ LZ77State.byteIndex state' = wrap32 5
       /\ LZ77State.dest state' = [98; 97; 97; 9; 9].
Proof.
  split; [vm_compute; reflexivity|].
  apply (DecompressLZ77_decodes_all 8 lz77_stream 11 [0; 0; 0; 9; 9] 3
           (LZ77State.mk (mkBitstream 61 lz77_stream) 0 5 [0; 0; 0; 9; 9] 3 15 1 2 8 4)
           5 [98; 97; 97; 9; 9]).
  - vm_compute. reflexivity.
  - simpl. lia.
  - vm_compute. reflexivity.
Defined.
